(** * Pollen dashboard: the data-normalisation core of [src/app/page.tsx]

    The development embeds the pure functions of the page
    ([parseDay], [toNumber], [cumulative], [cumAtProgress],
    [transformApiToNormalizedChart], [formatBubble]) together with the
    part of the JavaScript runtime they call, and proves the properties
    the specification states about them.  It then covers the code
    around them: the labels of the cards and the dots of the chart, the
    timing of [SplitFlapValue], the shift of the pixels, the state that
    [loadData] writes, and the handler [GET] of the route the page
    fetches.

    Numbers.  A JavaScript number is modelled by [number]: the three
    special values [NaN], [PosInf], [NegInf] and the finite values
    [Fin q], where [q] is an exact rational kept in lowest terms.
    Arithmetic on finite values is exact: the rounding of IEEE-754
    doubles is not modelled, and neither is the sign of zero (the
    program never divides by a zero and never prints one with its
    sign).  The module [Binary64] and the last section compare this
    with the arithmetic of doubles at the places where an integer
    decides.  The conversions from text ([Number], [parseInt]) map a
    literal beyond the range of doubles to an infinity, as the runtime
    does, so that every [Number.isFinite] test of the source keeps its
    meaning.

    Strings.  A JavaScript string is modelled by [string], one [ascii]
    per code unit; the model covers the code units below 256. *)

From Stdlib Require Import ZArith QArith Qround Qabs List Bool Ascii String Lia Lqa.
From Stdlib Require Import Permutation Sorted.
From Stdlib Require Import DecimalString.
From Stdlib Require DecimalN.
From Stdlib Require Qcanon.
From Stdlib Require SpecFloat.
Import ListNotations.

Set Implicit Arguments.

(** ** JavaScript numbers *)

Module JS.

Inductive number : Type :=
| NaN
| NegInf
| Fin (q : Q)
| PosInf.

Definition of_Z (z : Z) : number := Fin (inject_Z z).
Definition of_Q (q : Q) : number := Fin (Qred q).

Definition zero : number := of_Z 0.

Definition Qlt_bool (p q : Q) : bool := negb (Qle_bool q p).

(** Relational operators: every comparison with [NaN] is false. *)
Definition lt (a b : number) : bool :=
  match a, b with
  | NaN, _ | _, NaN => false
  | _, NegInf => false
  | NegInf, _ => true
  | PosInf, _ => false
  | _, PosInf => true
  | Fin p, Fin q => Qlt_bool p q
  end.

Definition le (a b : number) : bool :=
  match a, b with
  | NaN, _ | _, NaN => false
  | NegInf, _ => true
  | _, NegInf => false
  | _, PosInf => true
  | PosInf, _ => false
  | Fin p, Fin q => Qle_bool p q
  end.

Definition gt (a b : number) : bool := lt b a.
Definition ge (a b : number) : bool := le b a.

(** [a === b] on numbers. *)
Definition strict_eq (a b : number) : bool :=
  match a, b with
  | NegInf, NegInf | PosInf, PosInf => true
  | Fin p, Fin q => Qeq_bool p q
  | _, _ => false
  end.

Definition isFinite (a : number) : bool :=
  match a with Fin _ => true | _ => false end.

Definition neg (a : number) : number :=
  match a with
  | NaN => NaN
  | NegInf => PosInf
  | PosInf => NegInf
  | Fin q => of_Q (- q)
  end.

Definition add (a b : number) : number :=
  match a, b with
  | NaN, _ | _, NaN => NaN
  | PosInf, NegInf | NegInf, PosInf => NaN
  | PosInf, _ | _, PosInf => PosInf
  | NegInf, _ | _, NegInf => NegInf
  | Fin p, Fin q => of_Q (p + q)
  end.

Definition sub (a b : number) : number := add a (neg b).

(** An infinity (positive or negative) times the finite value [q]: the
    sign is the product of the signs; [NaN] when [q] is zero. *)
Definition inf_times (positive : bool) (q : Q) : number :=
  match Qcompare q 0 with
  | Eq => NaN
  | Gt => if positive then PosInf else NegInf
  | Lt => if positive then NegInf else PosInf
  end.

Definition mul (a b : number) : number :=
  match a, b with
  | NaN, _ | _, NaN => NaN
  | PosInf, PosInf | NegInf, NegInf => PosInf
  | PosInf, NegInf | NegInf, PosInf => NegInf
  | PosInf, Fin q | Fin q, PosInf => inf_times true q
  | NegInf, Fin q | Fin q, NegInf => inf_times false q
  | Fin p, Fin q => of_Q (p * q)
  end.

Definition div (a b : number) : number :=
  match a, b with
  | NaN, _ | _, NaN => NaN
  | (PosInf | NegInf), (PosInf | NegInf) => NaN
  | PosInf, Fin q => if Qlt_bool q 0 then NegInf else PosInf
  | NegInf, Fin q => if Qlt_bool q 0 then PosInf else NegInf
  | Fin _, (PosInf | NegInf) => zero
  | Fin p, Fin q =>
      if Qeq_bool q 0 then inf_times true p else of_Q (p / q)
  end.

(** [a % b]: the remainder has the sign of the dividend. *)
Definition Qtrunc (q : Q) : Z :=
  if Qlt_bool q 0 then Qceiling q else Qfloor q.

Definition rem (a b : number) : number :=
  match a, b with
  | Fin p, Fin q =>
      if Qeq_bool q 0 then NaN
      else of_Q (p - q * inject_Z (Qtrunc (p / q)))
  | Fin p, (PosInf | NegInf) => Fin p
  | _, _ => NaN
  end.

Definition Math_floor (a : number) : number :=
  match a with Fin q => of_Z (Qfloor q) | _ => a end.

Definition Math_ceil (a : number) : number :=
  match a with Fin q => of_Z (Qceiling q) | _ => a end.

(** [Math.round] rounds to the nearest integer, a half towards
    [+Infinity]. *)
Definition Math_round (a : number) : number :=
  match a with Fin q => of_Z (Qfloor (q + (1 # 2))) | _ => a end.

Definition max2 (a b : number) : number :=
  match a, b with
  | NaN, _ | _, NaN => NaN
  | _, _ => if lt a b then b else a
  end.

Definition min2 (a b : number) : number :=
  match a, b with
  | NaN, _ | _, NaN => NaN
  | _, _ => if lt b a then b else a
  end.

(** [Math.max(...l)]: [-Infinity] for no argument, [NaN] as soon as
    one argument is [NaN]. *)
Definition Math_max (l : list number) : number := fold_left max2 l NegInf.
Definition Math_min (l : list number) : number := fold_left min2 l PosInf.

End JS.

(** ** JavaScript strings and the conversions between text and numbers *)

Module Str.

Import JS.

Local Open Scope char_scope.
Local Open Scope string_scope.

Definition code (c : ascii) : nat := nat_of_ascii c.

(** White space and line terminators among the code units below 256:
    TAB, LF, VT, FF, CR, SP and NBSP. *)
Definition isWhiteSpace (c : ascii) : bool :=
  ((9 <=? code c) && (code c <=? 13) || (code c =? 32) || (code c =? 160))%nat.

Fixpoint trimStart_l (l : list ascii) : list ascii :=
  match l with
  | [] => []
  | c :: r => if isWhiteSpace c then trimStart_l r else l
  end.

Definition trimEnd_l (l : list ascii) : list ascii :=
  rev (trimStart_l (rev l)).

(** [s.trim()] *)
Definition trim (s : string) : string :=
  string_of_list_ascii (trimEnd_l (trimStart_l (list_ascii_of_string s))).

(** Lower-case mapping of one code unit: A-Z, and the Latin-1 capitals
    U+00C0-U+00DE except the multiplication sign U+00D7. *)
Definition lower (c : ascii) : ascii :=
  let n := code c in
  if ((65 <=? n) && (n <=? 90))%nat then ascii_of_nat (n + 32)
  else if ((192 <=? n) && (n <=? 222) && negb (n =? 215))%nat
       then ascii_of_nat (n + 32)
  else c.

(** [s.toLowerCase()] *)
Definition toLowerCase (s : string) : string :=
  string_of_list_ascii (map lower (list_ascii_of_string s)).

(** A string is truthy when it is not empty. *)
Definition truthy (s : string) : bool :=
  match s with EmptyString => false | _ => true end.

(** *** Digits *)

Definition isDigit (c : ascii) : bool :=
  ((48 <=? code c) && (code c <=? 57))%nat.

Definition digitValue (c : ascii) : Z := Z.of_nat (code c - 48).

(** Value of a hexadecimal digit (of any case), if it is one. *)
Definition hexValue (c : ascii) : option Z :=
  let n := code c in
  if isDigit c then Some (Z.of_nat (n - 48))
  else if ((97 <=? n) && (n <=? 102))%nat then Some (Z.of_nat (n - 87))
  else if ((65 <=? n) && (n <=? 70))%nat then Some (Z.of_nat (n - 55))
  else None.

(** The longest prefix of decimal digits, and the rest. *)
Fixpoint spanDigits (l : list ascii) : list ascii * list ascii :=
  match l with
  | c :: r =>
      if isDigit c then let (d, t) := spanDigits r in (c :: d, t)
      else ([], l)
  | [] => ([], [])
  end.

Definition digitsValue (l : list ascii) : Z :=
  fold_left (fun acc c => (10 * acc + digitValue c)%Z) l 0%Z.

(** Value in base [radix] of a non-empty list of digits of that base. *)
Fixpoint radixValue (radix : Z) (acc : Z) (l : list ascii) : option Z :=
  match l with
  | [] => Some acc
  | c :: r =>
      match hexValue c with
      | Some v => if (v <? radix)%Z then radixValue radix (radix * acc + v) r
                  else None
      | None => None
      end
  end.

(** *** The Number value of a real *)

(** Reals of magnitude at least [2^1024 - 2^970] round to an infinity. *)
Definition overflow_threshold : Q := inject_Z (2 ^ 1024 - 2 ^ 970).

Definition number_value (q : Q) : number :=
  if Qle_bool overflow_threshold (Qabs q)
  then if Qlt_bool q 0 then NegInf else PosInf
  else of_Q q.

(** An optional sign: the sign as [1] or [-1], and the rest. *)
Definition spanSign (l : list ascii) : Z * list ascii :=
  match l with
  | c :: r => if Ascii.eqb c "+" then (1%Z, r)
              else if Ascii.eqb c "-" then ((-1)%Z, r)
              else (1%Z, l)
  | [] => (1%Z, [])
  end.

(** [parseInt(s, 10)]: leading white space is skipped, a sign is read,
    then the longest prefix of decimal digits; [NaN] when there is no
    digit. *)
Definition parseInt10 (s : string) : number :=
  let l := trimStart_l (list_ascii_of_string s) in
  let (sgn, l1) := spanSign l in
  let (ds, _) := spanDigits l1 in
  match ds with
  | [] => NaN
  | _ => number_value (inject_Z (sgn * digitsValue ds))
  end.

(** The exponent part of a decimal literal: empty, or [e] or [E]
    followed by a signed non-empty integer that ends the literal. *)
Definition exponentPart (l : list ascii) : option Z :=
  match l with
  | [] => Some 0%Z
  | c :: r =>
      if Ascii.eqb c "e" || Ascii.eqb c "E" then
        let (sgn, r1) := spanSign r in
        let (ds, r2) := spanDigits r1 in
        match ds, r2 with
        | _ :: _, [] => Some (sgn * digitsValue ds)%Z
        | _, _ => None
        end
      else None
  end.

Definition unsignedDecimal (l : list ascii) : option Q :=
  let (ip, l2) := spanDigits l in
  let '(fp, l3) :=
    match l2 with
    | c :: r => if Ascii.eqb c "." then spanDigits r else ([], l2)
    | [] => ([], l2)
    end in
  match (ip ++ fp)%list with
  | [] => None
  | ds =>
      match exponentPart l3 with
      | Some e =>
          Some (inject_Z (digitsValue ds)
                * Qpower (inject_Z 10) (e - Z.of_nat (List.length fp)))%Q
      | None => None
      end
  end.

Definition strDecimalLiteral (l : list ascii) : number :=
  let (sgn, l1) := spanSign l in
  if list_eq_dec ascii_dec l1 (list_ascii_of_string "Infinity")
  then (if (sgn <? 0)%Z then NegInf else PosInf)
  else match unsignedDecimal l1 with
       | Some q => number_value (inject_Z sgn * q)
       | None => NaN
       end.

(** A binary, octal or hexadecimal integer literal: [0b], [0o] or [0x]
    (of any case) followed by at least one digit of the base. *)
Definition nonDecimalLiteral (l : list ascii) : option number :=
  match l with
  | z :: p :: (_ :: _) as ds =>
      if Ascii.eqb z "0" then
        let radix :=
          if Ascii.eqb p "x" || Ascii.eqb p "X" then Some 16%Z
          else if Ascii.eqb p "o" || Ascii.eqb p "O" then Some 8%Z
          else if Ascii.eqb p "b" || Ascii.eqb p "B" then Some 2%Z
          else None in
        match radix with
        | Some b =>
            Some match radixValue b 0 ds with
                 | Some v => number_value (inject_Z v)
                 | None => NaN
                 end
        | None => None
        end
      else None
  | _ => None
  end.

(** [Number(s)] on a string: white space is trimmed; the empty string
    is 0; otherwise the whole text must be a numeric literal. *)
Definition Number (s : string) : number :=
  let l := trimEnd_l (trimStart_l (list_ascii_of_string s)) in
  match l with
  | [] => zero
  | _ => match nonDecimalLiteral l with
         | Some n => n
         | None => strDecimalLiteral l
         end
  end.

(** *** From numbers to text *)

(** The decimal digits of a natural number. *)
Definition digits (n : Z) : string :=
  NilZero.string_of_uint (N.to_uint (Z.to_N n)).

Definition zeros (n : nat) : list ascii := repeat "0"%char n.

(** The least [j >= 0], among the first [fuel] candidates, that makes
    [y * 10^j] an integer, with that integer.  When the fuel runs out
    the integer part is taken: this happens only for a rational that
    has no finite decimal expansion, which no double is. *)
Fixpoint findScale (fuel : nat) (y : Q) (j : Z) : Z * Z :=
  let y' := Qred y in
  match fuel with
  | O => (Qfloor y', j)
  | S f => if Pos.eqb (Qden y') 1 then (Qnum y', j)
           else findScale f (y' * inject_Z 10) (j + 1)
  end.

Fixpoint dropZeros (r : list ascii) : list ascii :=
  match r with
  | c :: t => if Ascii.eqb c "0" then dropZeros t else r
  | [] => []
  end.

(** A list of digits without its trailing zeros. *)
Definition stripZeros (l : list ascii) : list ascii :=
  rev (dropZeros (rev l)).

(** Number::toString of a positive finite value: with [s] its [k]
    significant digits and [n] the position of the decimal point,
    the four layouts of the language specification. *)
Definition positiveToString (q : Q) : string :=
  let (m, j) := findScale (Pos.size_nat (Qden q)) q 0 in
  let ds := list_ascii_of_string (digits m) in
  let s := stripZeros ds in
  let k := Z.of_nat (List.length s) in
  let n := (Z.of_nat (List.length ds) - j)%Z in
  string_of_list_ascii
    (if (k <=? n)%Z && (n <=? 21)%Z then
       s ++ zeros (Z.to_nat (n - k))
     else if (0 <? n)%Z && (n <=? 21)%Z then
       firstn (Z.to_nat n) s ++ "."%char :: skipn (Z.to_nat n) s
     else if (-6 <? n)%Z && (n <=? 0)%Z then
       "0"%char :: "."%char :: zeros (Z.to_nat (- n)) ++ s
     else
       let e := (n - 1)%Z in
       let ex := "e"%char :: (if (e <? 0)%Z then "-"%char else "+"%char)
                     :: list_ascii_of_string (digits (Z.abs e)) in
       match s with
       | [c] => c :: ex
       | c :: t => c :: "."%char :: t ++ ex
       | [] => ex
       end)%list.

(** [String(x)], the text a template literal inserts for a number. *)
Definition numberToString (x : number) : string :=
  match x with
  | NaN => "NaN"
  | PosInf => "Infinity"
  | NegInf => "-Infinity"
  | Fin q =>
      match Qcompare q 0 with
      | Eq => "0"
      | Gt => positiveToString q
      | Lt => "-" ++ positiveToString (- q)
      end
  end.

(** [x.toFixed(f)]: the digits of the integer nearest to [x * 10^f]
    (the larger one at a tie), with the point before the last [f]. *)
Definition toFixed (x : number) (f : nat) : string :=
  match x with
  | Fin q =>
      if Qle_bool (inject_Z (10 ^ 21)) (Qabs q) then numberToString x
      else
        let a := Qabs q in
        let n := Qfloor (a * inject_Z (10 ^ Z.of_nat f) + (1 # 2)) in
        let m := list_ascii_of_string (digits n) in
        let m := (zeros (S f - List.length m) ++ m)%list in
        let k := List.length m in
        (if Qlt_bool q 0 then "-" else "")
        ++ string_of_list_ascii
             (match f with
              | O => m
              | _ => firstn (k - f) m ++ "."%char :: skipn (k - f) m
              end)%list
  | _ => numberToString x
  end.

End Str.

(** ** The program *)

Import JS Str.

Local Open Scope string_scope.

(** A value of type [unknown]: what [typeof] distinguishes, with the
    payload of numbers and strings. *)
Inductive value : Type :=
| VUndefined
| VNull
| VBoolean (b : bool)
| VNumber (n : number)
| VString (s : string)
| VObject.

Definition one : number := of_Z 1.

(** [a ?? d] on a possibly missing value. *)
Definition nullish {A : Type} (a : option A) (d : A) : A :=
  match a with Some v => v | None => d end.

(** [arr[i]] for a number [i]: defined at the non-negative integers
    below the length. *)
Definition index {A : Type} (arr : list A) (i : number) : option A :=
  match i with
  | Fin q =>
      if Qeq_bool q (inject_Z (Qfloor q)) && Qle_bool 0 q
      then nth_error arr (Z.to_nat (Qfloor q))
      else None
  | _ => None
  end.

Definition parseDay (v : value) : number :=
  match v with
  | VNumber n => Math_floor n
  | VString s =>
      let n := parseInt10 s in
      if isFinite n then n else zero
  | _ => zero
  end.

(** The texts that [toNumber] reads as "no amount". *)
Definition isSentinel (s : string) : bool :=
  negb (truthy s) || String.eqb s "nan" || String.eqb s "null"
  || String.eqb s "undefined".

Definition toNumber (v : value) : number :=
  match v with
  | VNumber n => if isFinite n then n else zero
  | VString v =>
      let s := toLowerCase (trim v) in
      if isSentinel s then zero
      else
        let n := Number s in
        if isFinite n then n else zero
  | _ => zero
  end.

Fixpoint cumulative_from (acc : number) (daily : list number) : list number :=
  match daily with
  | [] => []
  | v :: rest =>
      let acc := add acc v in
      acc :: cumulative_from acc rest
  end.

Definition cumulative (daily : list number) : list number :=
  cumulative_from zero daily.

Definition cumAtProgress (cum : list number) (L p : number) : number :=
  if le L zero then zero
  else if le p zero then zero
  else if ge p one then nullish (index cum (sub L one)) zero
  else
    let dayFloat := mul p L in
    let loDay := Math_floor dayFloat in
    let hiDay := Math_min [add loDay one; L] in
    let loIndex := Math_max [sub loDay one; of_Z (-1)] in
    let hiIndex := sub hiDay one in
    let loValue :=
      if ge loIndex zero then nullish (index cum loIndex) zero else zero in
    let hiValue := nullish (index cum hiIndex) loValue in
    let loPos := loDay in
    let hiPos := hiDay in
    if strict_eq hiPos loPos then hiValue
    else
      let t := div (sub dayFloat loPos) (sub hiPos loPos) in
      add loValue (mul (sub hiValue loValue) t).

(** A row of the API.  The declared fields are strings; a field that
    the response leaves out (or sets to [null]) is [None], the case the
    source guards with [??]. *)
Record ApiRow : Type := mkApiRow {
  base_month_day : option string;
  current_month_total_amount_released : option string;
  record_month_total_amount_released : option string;
  last_year_current_month_total_amount_released : option string
}.

(** [keyof ApiRow] *)
Inductive ApiKey : Type :=
| K_base_month_day
| K_current
| K_record
| K_last_year.

Definition field (r : ApiRow) (k : ApiKey) : option string :=
  match k with
  | K_base_month_day => base_month_day r
  | K_current => current_month_total_amount_released r
  | K_record => record_month_total_amount_released r
  | K_last_year => last_year_current_month_total_amount_released r
  end.

(** A field as the [unknown] argument of the parsers. *)
Definition fieldValue (f : option string) : value :=
  match f with Some s => VString s | None => VUndefined end.

Definition rowDay (r : ApiRow) : number :=
  parseDay (fieldValue (base_month_day r)).

Module ChartRow.
Record t : Type := make {
  x : number;
  current : option number;
  lastYear : number;
  record : number
}.
End ChartRow.

Record TransformMeta : Type := mkMeta {
  currentMonthLen : number;
  recordMonthLen : number;
  todayDay : number;
  currentProgressX : number
}.

Record Transformed : Type := mkTransformed {
  data : list ChartRow.t;
  meta : TransformMeta
}.

(** *** [Array.prototype.sort] with the comparator of the source

    The sort is stable: an element moves behind another one only when
    the comparator, the difference of the two days, is positive. *)
Fixpoint insertByDay (r : ApiRow) (l : list ApiRow) : list ApiRow :=
  match l with
  | [] => [r]
  | y :: t =>
      if gt (sub (rowDay r) (rowDay y)) zero then y :: insertByDay r t
      else r :: l
  end.

Definition sortByDay (rows : list ApiRow) : list ApiRow :=
  fold_right insertByDay [] rows.

(** *** [Map<number, ApiRow>] *)
Definition DayMap : Type := number -> option ApiRow.

Definition map_empty : DayMap := fun _ => None.

Definition map_set (m : DayMap) (k : number) (r : ApiRow) : DayMap :=
  fun k' => if strict_eq k' k then Some r else m k'.

Definition map_get (m : DayMap) (k : number) : option ApiRow := m k.

(** *** [transformApiToNormalizedChart] *)

(** [(f ?? '').toString().trim().toLowerCase()] *)
Definition rawText (f : option string) : string :=
  toLowerCase (trim (nullish f "")).

Definition buildByDay (sorted : list ApiRow) : DayMap :=
  fold_left
    (fun byDay r =>
       let day := rowDay r in
       if ge day one && le day (of_Z 31) then map_set byDay day r else byDay)
    sorted map_empty.

(** One turn of the loop that looks for today. *)
Definition todayStep (todayDay : number) (r : ApiRow) : number :=
  let d := rowDay r in
  if le d zero then todayDay
  else
    let raw := rawText (current_month_total_amount_released r) in
    if negb (String.eqb raw "nan") then Math_max [todayDay; d] else todayDay.

Definition todayScan (sorted : list ApiRow) : number :=
  fold_left todayStep sorted zero.

(** [sorted.map((r) => parseDay(r.base_month_day)).filter((d) => d > 0)] *)
Definition positiveDays (sorted : list ApiRow) : list number :=
  filter (fun d => gt d zero) (map rowDay sorted).

Definition inferToday (sorted : list ApiRow) : number :=
  let todayDay := todayScan sorted in
  if strict_eq todayDay zero then Math_max (positiveDays sorted ++ [zero])
  else todayDay.

(** A field counts for the length of the month when its text is neither
    empty nor ["nan"]. *)
Definition qualifies (r : ApiRow) (k : ApiKey) : bool :=
  let raw := rawText (field r k) in
  truthy raw && negb (String.eqb raw "nan").

(** The inner loop over the keys, left at the first key that counts. *)
Fixpoint scanKeys (r : ApiRow) (d L : number) (keys : list ApiKey) : number :=
  match keys with
  | [] => L
  | k :: rest =>
      if qualifies r k then Math_max [L; d] else scanKeys r d L rest
  end.

Definition lenStep (keys : list ApiKey) (L : number) (r : ApiRow) : number :=
  let d := rowDay r in
  if le d zero then L else scanKeys r d L keys.

(** The length candidate after the loop over the rows, before the
    fallback and the clamp. *)
Definition lenScan (sorted : list ApiRow) (keys : list ApiKey) : number :=
  fold_left (lenStep keys) sorted zero.

Definition inferLen (sorted : list ApiRow) (keys : list ApiKey) : number :=
  let L := lenScan sorted keys in
  let L :=
    if strict_eq L zero then Math_max (positiveDays sorted ++ [of_Z 31])
    else L in
  Math_min [Math_max [L; of_Z 28]; of_Z 31].

(** The loop [for (let d = 1; d <= L; d++)] of [buildDaily], with the
    number of turns bounded by [fuel]. *)
Fixpoint buildDaily_loop (byDay : DayMap) (key : ApiKey) (L : number)
    (fuel : nat) (d : number) : list number :=
  match fuel with
  | O => []
  | S fuel =>
      if le d L then
        let raw :=
          match map_get byDay d with
          | Some r => nullish (field r key) "0"
          | None => "0"
          end in
        toNumber (VString raw) :: buildDaily_loop byDay key L fuel (add d one)
      else []
  end.

(** [L] is at most 31 at both calls, so 31 turns are enough
    (see [buildDaily_fuel]). *)
Definition buildDaily (byDay : DayMap) (key : ApiKey) (L : number) : list number :=
  buildDaily_loop byDay key L 31 one.

Definition chartPoint (currentCum lastYearCum recordCum : list number)
    (currentMonthLen recordMonthLen currentProgressX : number) (x : number)
  : ChartRow.t :=
  let p := div x (of_Z 100) in
  let currentVal := cumAtProgress currentCum currentMonthLen p in
  let lastYearVal := cumAtProgress lastYearCum currentMonthLen p in
  let recordVal := cumAtProgress recordCum recordMonthLen p in
  ChartRow.make x
    (if gt x currentProgressX then None else Some currentVal)
    lastYearVal recordVal.

(** The values of [x] in [for (let x = 0; x <= 100; x++)]. *)
Definition percents : list number := map (fun i => of_Z (Z.of_nat i)) (seq 0 101).

Definition empty : Transformed :=
  mkTransformed
    [ChartRow.make zero (Some zero) zero zero]
    (mkMeta (of_Z 31) (of_Z 31) zero zero).

Definition transformRows (rows : list ApiRow) : Transformed :=
  let sorted := sortByDay rows in
  let byDay := buildByDay sorted in
  let todayDay := inferToday sorted in
  let currentMonthLen := inferLen sorted [K_current; K_last_year] in
  let recordMonthLen := inferLen sorted [K_record] in
  let todayDay := Math_min [todayDay; currentMonthLen] in
  let currentCum := cumulative (buildDaily byDay K_current currentMonthLen) in
  let lastYearCum := cumulative (buildDaily byDay K_last_year currentMonthLen) in
  let recordCum := cumulative (buildDaily byDay K_record recordMonthLen) in
  let currentProgress :=
    if gt currentMonthLen zero then div todayDay currentMonthLen else zero in
  let currentProgressX := Math_round (mul currentProgress (of_Z 100)) in
  mkTransformed
    (map (chartPoint currentCum lastYearCum recordCum
            currentMonthLen recordMonthLen currentProgressX) percents)
    (mkMeta currentMonthLen recordMonthLen todayDay currentProgressX).

(** [rows] is [None] when the argument is [null] or [undefined]. *)
Definition transformApiToNormalizedChart (rows : option (list ApiRow)) : Transformed :=
  match rows with
  | None | Some [] => empty
  | Some rows => transformRows rows
  end.

(** *** [formatBubble] *)
Definition formatBubble (v : number) : string :=
  let millions := div v (of_Z 1000000) in
  if lt millions (of_Z 10) then
    let rounded := div (Math_ceil (mul millions (of_Z 10))) (of_Z 10) in
    let text :=
      if strict_eq (rem rounded one) zero then toFixed rounded 0
      else toFixed rounded 1 in
    text ++ "M"
  else numberToString (Math_ceil millions) ++ "M".

(** ** IEEE-754 doubles

    The operations of the Standard Library on binary64 numbers, used to
    check that wherever an integer decides what the program does (the
    progress of today, the two running totals a point lies between,
    the tenths of the examples of [formatBubble]) the doubles of the
    runtime and the exact rationals of [number] agree. *)

Module Binary64.

Import SpecFloat.

Definition prec : Z := 53.
Definition emax : Z := 1024.

Definition double : Type := spec_float.

Definition of_Z (z : Z) : double := binary_normalize prec emax z 0 false.
Definition mul : double -> double -> double := SFmul prec emax.
Definition div : double -> double -> double := SFdiv prec emax.

(** The rational that a finite double stands for. *)
Definition exact (f : double) : option Q :=
  match f with
  | S754_zero _ => Some 0%Q
  | S754_finite s m e =>
      Some ((if s then -1 else 1) * inject_Z (Zpos m) * Qpower 2 e)%Q
  | _ => None
  end.

(** [Math.round(today / len * 100)] on doubles. *)
Definition progress (today len : Z) : option Z :=
  option_map (fun q => Qfloor (q + (1 # 2)))
    (exact (mul (div (of_Z today) (of_Z len)) (of_Z 100))).

(** [x / 100] and [x / 100 * L] on doubles. *)
Definition fraction (x : Z) : option Q := exact (div (of_Z x) (of_Z 100)).

Definition position (x L : Z) : option Q :=
  exact (mul (div (of_Z x) (of_Z 100)) (of_Z L)).

(** [Math.ceil(v / 1000000 * 10)] and that number over 10, on doubles. *)
Definition tenths (v : Z) : option Z :=
  option_map Qceiling (exact (mul (div (of_Z v) (of_Z 1000000)) (of_Z 10))).

Definition rounded (v : Z) : option Q :=
  match tenths v with
  | Some c => option_map Qred (exact (div (of_Z c) (of_Z 10)))
  | None => None
  end.

End Binary64.

(** ** Notions used to state the properties *)

(** The day of a row as an integer (see [rowDay_dayZ]). *)
Definition dayZ (r : ApiRow) : Z :=
  match rowDay r with Fin q => Qfloor q | _ => 0%Z end.

(** A text made of white space only. *)
Definition blank (s : string) : bool :=
  forallb isWhiteSpace (list_ascii_of_string s).

(** The sentinel texts of the specification. *)
Definition sentinels : list string := [""; "nan"; "null"; "undefined"].

(** The greatest day among the rows that satisfy [P]; 0 when there is
    none with a positive day. *)
Definition maxDayOf (P : ApiRow -> bool) (rows : list ApiRow) : Z :=
  fold_right Z.max 0%Z (map dayZ (filter P rows)).

Definition positiveDay (r : ApiRow) : bool := (0 <? dayZ r)%Z.

(** A row counts for today when its day is positive and the text of
    its current-month amount is not ["nan"]. *)
Definition countsForToday (r : ApiRow) : bool :=
  positiveDay r
  && negb (String.eqb (rawText (current_month_total_amount_released r)) "nan").

(** A row counts for the length of the month, for a set of keys, when
    its day is positive and one of the keys holds a text that is
    neither empty nor ["nan"]. *)
Definition countsForLen (keys : list ApiKey) (r : ApiRow) : bool :=
  positiveDay r && existsb (qualifies r) keys.

(** Today as the loop and its fallback infer it, before the clamp to
    the length of the month, on integers (see [inferToday_Z]). *)
Definition todayInferred (rows : list ApiRow) : Z :=
  let t := maxDayOf countsForToday rows in
  if (t =? 0)%Z then maxDayOf positiveDay rows else t.

(** The length of the month for a set of keys, on integers
    (see [inferLen_Z]). *)
Definition monthLength (keys : list ApiKey) (rows : list ApiRow) : Z :=
  let L := maxDayOf (countsForLen keys) rows in
  let L := if (L =? 0)%Z then Z.max 31 (maxDayOf positiveDay rows) else L in
  Z.min (Z.max L 28) 31.

(** The two sets of keys of the source. *)
Definition currentKeys : list ApiKey := [K_current; K_last_year].
Definition recordKeys : list ApiKey := [K_record].

(** [round(today / len * 100)], a half rounded up. *)
Definition progressPercent (today len : Z) : Z :=
  Qfloor (inject_Z today / inject_Z len * inject_Z 100 + (1 # 2)).

(** A row with all four fields present. *)
Definition row (day cur rec last : string) : ApiRow :=
  mkApiRow (Some day) (Some cur) (Some rec) (Some last).

(** One row, day 15, whose amounts are all the sentinel ["nan"]. *)
Definition rowsDay15 : list ApiRow := [row "15" "nan" "nan" "nan"].

(** Day 1 with a current-month amount, and day 31 with empty amounts. *)
Definition rowsEmptyDay31 : list ApiRow :=
  [row "1" "1" "" ""; row "31" "" "" ""].

(** Scenario C of the specification: days 1 to 28 with the
    current-month amount ["100"], and day 29 with ["nan"] for the
    current month and a last-year amount. *)
Definition rowsScenarioC : list ApiRow :=
  (map (fun d => row (digits (Z.of_nat d)) "100" "7" "50") (seq 1 28)
   ++ [row "29" "nan" "nan" "50"])%list.

(** A row of scenario C: one of the days 1 to 28 with the current-month
    amount ["100"], or day 29 with the current-month amount ["nan"]. *)
Definition scenarioRow (r : ApiRow) : Prop :=
  ((1 <= dayZ r <= 28)%Z
   /\ current_month_total_amount_released r = Some "100")
  \/ (dayZ r = 29%Z /\ current_month_total_amount_released r = Some "nan").

(** Two rows that agree on the day and on the current-month amount. *)
Definition sameDayAndCurrent (r r' : ApiRow) : Prop :=
  base_month_day r = base_month_day r'
  /\ current_month_total_amount_released r
     = current_month_total_amount_released r'.

(** The sum of a list of numbers, added from left to right. *)
Definition total (l : list number) : number := fold_left add l zero.

(** The row that stands for day [d]: the last one of that day. *)
Definition rowOfDay (rows : list ApiRow) (d : Z) : option ApiRow :=
  hd_error (rev (filter (fun r => (dayZ r =? d)%Z) rows)).

(** The parsed amount of day [d] for a key: 0 for a day without row. *)
Definition dailyAmount (rows : list ApiRow) (key : ApiKey) (d : Z) : number :=
  toNumber (VString match rowOfDay rows d with
                    | Some r => nullish (field r key) "0"
                    | None => "0"
                    end).

(** The days [d, d+1, ..., d+n-1]. *)
Definition daysFrom (d : Z) (n : nat) : list Z :=
  map (fun i => (d + Z.of_nat i)%Z) (seq 0 n).

(** The parsed amounts of the days [1..L] for a key. *)
Definition dailyAmounts (rows : list ApiRow) (key : ApiKey) (L : Z) : list number :=
  map (dailyAmount rows key) (daysFrom 1 (Z.to_nat L)).

(** [represents n q]: the number [n] is finite and its value is [q]. *)
Definition represents (n : number) (q : Q) : Prop :=
  exists q' : Q, n = Fin q' /\ (q' == q)%Q.

(** The value of a finite number (0 for the others). *)
Definition valueOf (n : number) : Q :=
  match n with Fin q => q | _ => 0%Q end.

Definition sumQ (l : list Q) : Q := fold_right Qplus 0%Q l.

(** The sum of the first [k] amounts of a list, as a rational. *)
Definition prefixQ (daily : list number) (k : nat) : Q :=
  sumQ (map valueOf (firstn k daily)).

(** Linear interpolation of the running totals at the position [s],
    counted in days: between the total of [floor s] days and the total
    of one more day. *)
Definition interpolate (daily : list number) (s : Q) : Q :=
  let lo := Z.to_nat (Qfloor s) in
  (prefixQ daily lo
   + (prefixQ daily (S lo) - prefixQ daily lo) * (s - inject_Z (Qfloor s)))%Q.

(** Every value of a series is at least 0. *)
Definition nonNegative (l : list number) : Prop :=
  forall v, In v l -> le zero v = true.

(** A series, in the order of its points, never goes down. *)
Definition nonDecreasing (l : list number) : Prop :=
  forall (i j : nat) (a b : number),
    (i <= j)%nat -> nth_error l i = Some a -> nth_error l j = Some b ->
    le a b = true.

(** The current values that are present, in the order of the points. *)
Definition presentValues (l : list (option number)) : list number :=
  flat_map (fun o => match o with Some v => [v] | None => [] end) l.

(** The three series of a result are non-negative and non-decreasing. *)
Definition seriesMonotone (out : Transformed) : Prop :=
  let cur := presentValues (map ChartRow.current (data out)) in
  let last := map ChartRow.lastYear (data out) in
  let rec := map ChartRow.record (data out) in
  (nonNegative cur /\ nonDecreasing cur)
  /\ (nonNegative last /\ nonDecreasing last)
  /\ (nonNegative rec /\ nonDecreasing rec).

(** The amount that [buildDaily] reads in a field. *)
Definition parsedAmount (r : ApiRow) (key : ApiKey) : number :=
  toNumber (VString (nullish (field r key) "0")).

Definition amountKeys : list ApiKey := [K_current; K_record; K_last_year].

(** No amount of the rows parses to a negative number. *)
Definition amountsNonNegative (rows : list ApiRow) : Prop :=
  forall r key, In r rows -> In key amountKeys ->
    le zero (parsedAmount r key) = true.

(** The same, as a test. *)
Definition amountsNonNegativeb (rows : list ApiRow) : bool :=
  forallb (fun r => forallb (fun key => le zero (parsedAmount r key)) amountKeys)
    rows.

(** One row whose last-year amount is negative. *)
Definition rowsNegative : list ApiRow := [row "1" "0" "0" "-5"].

(** The value a series built from the daily amounts [daily], for a
    month of [L] days, takes at the point [x]. *)
Definition seriesAt (daily : list number) (L : Z) (x : number) : number :=
  cumAtProgress (cumulative daily) (of_Z L) (div x (of_Z 100)).

(** The position, in days, of the point [i] percent of a month of [L] days. *)
Definition position (i L : Z) : Q := (inject_Z i / inject_Z 100 * inject_Z L)%Q.

(** Amounts that are finite and not negative. *)
Definition amountOK (v : number) : Prop :=
  isFinite v = true /\ (0 <= valueOf v)%Q.



(** The rows are in the order of their days. *)
Definition dayLe (a b : ApiRow) : Prop := (dayZ a <= dayZ b)%Z.

(** [r] is the last row of day [d] in the order of the input. *)
Definition lastOfDay (rows : list ApiRow) (d : Z) (r : ApiRow) : Prop :=
  exists before after : list ApiRow,
    rows = (before ++ r :: after)%list
    /\ dayZ r = d
    /\ forall r', In r' after -> dayZ r' <> d.

(** The test on the rows of day [d]. *)
Definition ofDay (d : Z) (r : ApiRow) : bool := (dayZ r =? d)%Z.



(** ** The page around the chart

    The parts of the component [Page] that compute values: the labels
    of the cards and the top of the axis, the dots at the ends of the
    lines, the shift of the pixels, and what a finished request does to
    the state of the page. *)

(** A number in a condition: [0] and [NaN] count as false. *)
Definition numberTruthy (v : number) : bool :=
  match v with
  | NaN => false
  | Fin q => negb (Qeq_bool q 0)
  | _ => true
  end.

(** [data.find((d) => d.x === x)] *)
Definition findX (data : list ChartRow.t) (x : number) : option ChartRow.t :=
  find (fun d => strict_eq (ChartRow.x d) x) data.

(** [v ? formatBubble(v) : '0M'] *)
Definition labelOf (v : number) : string :=
  if numberTruthy v then formatBubble v else "0M".

Record Labels : Type := mkLabels {
  yAxisMax : number;
  todayLabel : string;
  lastYearLabel : string;
  recordLabel : string;
  recordDiffLabel : string
}.

(** The values of one point in the order [current ?? 0], [lastYear],
    [record]. *)
Definition pointValues (d : ChartRow.t) : list number :=
  [nullish (ChartRow.current d) zero; ChartRow.lastYear d; ChartRow.record d].

(** The memo that computes [yAxisMax] and the four labels from [data]
    and [meta.currentProgressX]. *)
Definition chartLabels (data : list ChartRow.t) (currentProgressX : number)
  : Labels :=
  match data with
  | [] => mkLabels zero "0M" "0M" "0M" "0M"
  | first :: _ =>
      let maxValue := Math_max (flat_map pointValues data) in
      let yAxisMax := mul maxValue (Fin (11 # 10)) in
      let todayPoint := nullish (findX data currentProgressX) first in
      let todayValue := nullish (ChartRow.current todayPoint) zero in
      let lastYearSameProgress := ChartRow.lastYear todayPoint in
      let recordSameProgress := ChartRow.record todayPoint in
      let finalRecord :=
        match findX data (of_Z 100) with
        | Some d => ChartRow.record d
        | None => zero
        end in
      let recordDifference :=
        Math_max [sub finalRecord recordSameProgress; zero] in
      mkLabels yAxisMax (labelOf todayValue) (labelOf lastYearSameProgress)
        (labelOf recordSameProgress) (labelOf recordDifference)
  end.

(** *** The dots at the ends of the lines *)

Inductive DataKey : Type :=
| DK_current
| DK_lastYear
| DK_record.

Record LineStyle : Type := mkLineStyle {
  color : string;
  strokeWidth : number;
  circleRadius : number;
  fontSize : number
}.

Definition lineConfig (isMobile : bool) (dataKey : DataKey) : LineStyle :=
  if isMobile then
    match dataKey with
    | DK_current => mkLineStyle "#ffd200" (of_Z 6) (of_Z 34) (of_Z 16)
    | DK_lastYear => mkLineStyle "#ff4a00" (of_Z 3) (of_Z 22) (of_Z 12)
    | DK_record => mkLineStyle "#9ccfc9" (of_Z 2) (of_Z 22) (of_Z 12)
    end
  else
    match dataKey with
    | DK_current => mkLineStyle "#ffd200" (of_Z 15) (of_Z 65) (of_Z 32)
    | DK_lastYear => mkLineStyle "#ff4a00" (of_Z 10) (of_Z 40) (of_Z 20)
    | DK_record => mkLineStyle "#9ccfc9" (Fin (15 # 2)) (of_Z 40) (of_Z 20)
    end.

Definition DOT_GROW_MS : number := of_Z 950.

(** [payload[dataKey]]: [None] is the [null] of the current series. *)
Definition payloadValue (dataKey : DataKey) (payload : ChartRow.t)
  : option number :=
  match dataKey with
  | DK_current => ChartRow.current payload
  | DK_lastYear => Some (ChartRow.lastYear payload)
  | DK_record => Some (ChartRow.record payload)
  end.

(** What [CustomDot] draws: the circle and the text in it. *)
Record Dot : Type := mkDot {
  dot_cx : number;
  dot_cy : number;
  dot_r : number;
  dot_fill : string;
  dot_fontSize : number;
  dot_animationDuration : number;
  dot_text : string
}.

(** [createCustomDot(dataKey)] applied to the properties [cx], [cy]
    and [payload] of a point; [None] is the [null] that draws nothing. *)
Definition createCustomDot (isMobile dotsVisible : bool)
    (currentProgressX : number) (dataKey : DataKey)
    (cx cy : number) (payload : ChartRow.t) : option Dot :=
  let config := lineConfig isMobile dataKey in
  let isLastCurrent :=
    match dataKey with
    | DK_current => strict_eq (ChartRow.x payload) currentProgressX
    | _ => false
    end in
  let isLastOther :=
    match dataKey with
    | DK_lastYear | DK_record => strict_eq (ChartRow.x payload) (of_Z 100)
    | DK_current => false
    end in
  if negb isLastCurrent && negb isLastOther then None
  else
    match payloadValue dataKey payload with
    | None => None
    | Some value =>
        if strict_eq value zero then None
        else if negb dotsVisible then None
        else
          let displayValue := formatBubble value in
          Some (mkDot cx cy (circleRadius config) (color config)
                  (fontSize config) DOT_GROW_MS displayValue)
    end.

(** The point of a non-empty input at [x = i]. *)
Definition pointAt (rows : list ApiRow) (i : Z) : ChartRow.t :=
  let len := monthLength currentKeys rows in
  let rlen := monthLength recordKeys rows in
  let today := Z.min (todayInferred rows) len in
  ChartRow.make (of_Z i)
    (if (progressPercent today len <? i)%Z then None
     else Some (seriesAt (dailyAmounts rows K_current len) len (of_Z i)))
    (seriesAt (dailyAmounts rows K_last_year len) len (of_Z i))
    (seriesAt (dailyAmounts rows K_record rlen) rlen (of_Z i)).

(** *** The shift of the pixels *)

Definition PIXEL_SHIFT_MAX : number := of_Z 4.

(** [rand], with the value of [Math.random()] as its argument. *)
Definition rand (random : number) : number :=
  sub (Math_floor (mul random (add (mul PIXEL_SHIFT_MAX (of_Z 2)) one)))
    PIXEL_SHIFT_MAX.

(** *** The timing of [SplitFlapValue] *)

Module SplitFlapValue.

Definition CHAR_STAGGER_MS : number := of_Z 80.
Definition FLIP_MS : number := of_Z 1000.

(** [value.split('')]: one entry per code unit. *)
Definition chars (value : string) : list ascii := list_ascii_of_string value.

(** The delay after which the component is locked. *)
Definition total (delay : number) (value : string) : number :=
  add (add delay
         (mul (sub (of_Z (Z.of_nat (List.length (chars value)))) one)
            CHAR_STAGGER_MS))
    FLIP_MS.

(** The delay of the animation of the character [i]. *)
Definition d (delay : number) (i : nat) : number :=
  add delay (mul (of_Z (Z.of_nat i)) (of_Z 80)).

End SplitFlapValue.

(** *** [loadData]

    The state of the page that [loadData] writes, and what one call
    does to it once its request has come to an end.  The four ends of a
    request: a response that is not [ok], a response whose body is the
    rows (or [null]), a rejection by the abort of the controller, and
    any other rejection, with the [message] of the error if it has
    one.  The second component of the result tells whether a reload of
    the page has been scheduled. *)

Record PageState : Type := mkPageState {
  st_data : list ChartRow.t;
  st_meta : TransformMeta;
  st_loading : bool;
  st_error : option string;
  st_dataReady : bool;
  st_cycle : number;
  st_retryCount : number
}.

Inductive FetchOutcome : Type :=
| HttpError (status : number)
| Loaded (json : option (list ApiRow))
| Aborted
| Crashed (message : option string).

Definition MAX_RETRIES : number := of_Z 3.

(** The state of a page that has just been loaded. *)
Definition initialState : PageState :=
  mkPageState [] (mkMeta (of_Z 31) (of_Z 31) zero zero) true None false zero zero.

Definition loadData (st : PageState) (outcome : FetchOutcome)
  : PageState * bool :=
  (* setLoading(true); setError(null); setDataReady(false) *)
  let st := mkPageState (st_data st) (st_meta st) true None false
              (st_cycle st) (st_retryCount st) in
  match outcome with
  | HttpError status =>
      let error := "API error: " ++ numberToString status in
      let data := [ChartRow.make zero (Some zero) zero zero] in
      let retryCount := add (st_retryCount st) one in
      (mkPageState data (st_meta st) false (Some error) (st_dataReady st)
         (st_cycle st) retryCount,
       le retryCount MAX_RETRIES)
  | Loaded json =>
      let out := transformApiToNormalizedChart json in
      (mkPageState (data out) (meta out) false (st_error st) true
         (add (st_cycle st) one) (st_retryCount st),
       false)
  | Aborted =>
      (mkPageState (st_data st) (st_meta st) false (st_error st)
         (st_dataReady st) (st_cycle st) (st_retryCount st),
       false)
  | Crashed message =>
      let error := nullish message "Unknown fetch error" in
      let data := [ChartRow.make zero (Some zero) zero zero] in
      let retryCount := add (st_retryCount st) one in
      (mkPageState data (st_meta st) false (Some error) (st_dataReady st)
         (st_cycle st) retryCount,
       le retryCount MAX_RETRIES)
  end.

(** One call after the other in the life of one page: the state at the
    end, and the number of reloads that were scheduled. *)
Fixpoint loadAll (st : PageState) (outcomes : list FetchOutcome)
  : PageState * nat :=
  match outcomes with
  | [] => (st, O)
  | o :: rest =>
      let (st', reload) := loadData st o in
      let (st'', n) := loadAll st' rest in
      (st'', ((if reload then 1 else 0) + n)%nat)
  end.

(** The requests that ended in a failure. *)
Definition isFailure (o : FetchOutcome) : bool :=
  match o with
  | HttpError _ | Crashed _ => true
  | Loaded _ | Aborted => false
  end.


(** ** The route handler [GET]

    The handler of the route that the page fetches: it reads the
    address and the token of the upstream API from the environment,
    asks the upstream API and passes the answer on.  The call of
    [fetch] is an argument: a function from the request to the way the
    call ends.  [JSON.parse] is an argument as well: a function that
    gives the parsed value or what it throws.  The result is the
    response together with what was written to the console. *)

Module Route.

(** What a rejected promise or a [throw] gives the [catch]:
    [err?.message] and [String(err)]. *)
Record Thrown : Type := mkThrown {
  message : option string;
  asString : string
}.

(** A response of the upstream API, as far as the handler reads it:
    [res.status], [res.statusText], [res.headers.get("content-type")]
    and [res.text()], [None] when that promise rejects. *)
Record Upstream : Type := mkUpstream {
  status : Z;
  statusText : string;
  contentTypeHeader : option string;
  text : option string
}.

Inductive FetchResult : Type :=
| Rejected (err : Thrown)
| Responded (res : Upstream).

Record Request : Type := mkRequest {
  req_url : string;
  req_method : string;
  req_headers : list (string * string);
  req_cache : string
}.

(** A value of a field of the objects the handler builds itself. *)
Inductive Field : Type :=
| FString (s : string)
| FNumber (n : Z).

(** The argument of [NextResponse.json]: an object built by the
    handler, the value that [JSON.parse] gave, or the raw text. *)
Inductive Body (J : Type) : Type :=
| Object (fields : list (string * Field))
| Parsed (d : J)
| Raw (raw : string).

Arguments Object {J} fields.
Arguments Parsed {J} d.
Arguments Raw {J} raw.

Record Response (J : Type) : Type := mkResponse {
  body : Body J;
  code : Z
}.

(** The two calls of [console.error]. *)
Inductive LogEntry : Type :=
| UpstreamErrorLog (status : Z) (statusText contentType body : string)
| FetchFailedLog (err : Thrown).

(** [res.ok]: the status is in the range 200-299. *)
Definition ok (res : Upstream) : bool :=
  (200 <=? status res)%Z && (status res <=? 299)%Z.

(** [s.includes(t)] *)
Fixpoint includes (s t : string) : bool :=
  String.prefix t s
  || match s with
     | String _ r => includes r t
     | EmptyString => false
     end.

(** [s.slice(0, n)] *)
Definition slice0 (s : string) (n : nat) : string := String.substring 0 n s.

Definition request (url token : string) : Request :=
  mkRequest url "GET"
    [("Authorization", "Bearer " ++ token);
     ("Content-Type", "application/json");
     ("Accept", "application/json")]
    "no-store".

Section Handler.

Variable J : Type.
Variable JSON_parse : string -> J + Thrown.

(** The [catch] of the handler. *)
Definition caught (err : Thrown) : Response J * list LogEntry :=
  (mkResponse
     (Object [("error", FString "Failed to reach upstream API");
              ("detail", FString (nullish (message err) (asString err)))])
     502,
   [FetchFailedLog err]).

Definition GET (url token : option string) (fetch : Request -> FetchResult)
  : Response J * list LogEntry :=
  let url := nullish url "" in
  let token := nullish token "" in
  if negb (truthy url) || negb (truthy token) then
    (mkResponse
       (Object [("error",
                 FString "Missing DASHBOARD_API_URL or DASHBOARD_API_TOKEN in environment.")])
       500,
     [])
  else
    match fetch (request url token) with
    | Rejected err => caught err
    | Responded res =>
        let contentType :=
          match contentTypeHeader res with
          | Some c => if truthy c then c else ""
          | None => ""
          end in
        let raw := nullish (text res) "" in
        if negb (ok res) then
          (mkResponse
             (Object [("error", FString "Upstream API error");
                      ("status", FNumber (status res))])
             502,
           [UpstreamErrorLog (status res) (statusText res) contentType
              (slice0 raw 2000)])
        else if includes contentType "application/json" then
          match JSON_parse raw with
          | inl d => (mkResponse (Parsed d) 200, [])
          | inr err => caught err
          end
        else (mkResponse (Raw raw) 200, [])
    end.

End Handler.

(** The environment has both variables, neither of them empty. *)
Definition configured (url token : option string) : Prop :=
  exists u t : string,
    url = Some u /\ token = Some t /\ u <> "" /\ t <> "".

(** The content type and the text of a response as the handler reads
    them: the empty text for a header or a body that is missing. *)
Definition contentType (res : Upstream) : string :=
  match contentTypeHeader res with
  | Some c => if truthy c then c else ""
  | None => ""
  end.

Definition raw (res : Upstream) : string := nullish (text res) "".

End Route.


(** * Properties *)

(** ** Arithmetic of the integers among the numbers *)

Lemma Qred_inject_Z (z : Z) : Qred (inject_Z z) = inject_Z z.
Proof.
  apply Qcanon.Qred_identity. simpl. apply Z.gcd_1_r.
Qed.

Lemma of_Q_inject_Z (z : Z) : of_Q (inject_Z z) = of_Z z.
Proof. unfold of_Q, of_Z. now rewrite Qred_inject_Z. Qed.

Lemma of_Q_eq (p q : Q) : (p == q)%Q -> of_Q p = of_Q q.
Proof. intros H. unfold of_Q. f_equal. now apply Qred_complete. Qed.

Lemma le_of_Z (a b : Z) : le (of_Z a) (of_Z b) = (a <=? b)%Z.
Proof. unfold le, of_Z, Qle_bool. simpl. now rewrite !Z.mul_1_r. Qed.

Lemma lt_of_Z (a b : Z) : lt (of_Z a) (of_Z b) = (a <? b)%Z.
Proof.
  unfold lt, of_Z, Qlt_bool, Qle_bool. simpl.
  rewrite !Z.mul_1_r. symmetry. apply Z.ltb_antisym.
Qed.

Lemma gt_of_Z (a b : Z) : gt (of_Z a) (of_Z b) = (b <? a)%Z.
Proof. apply lt_of_Z. Qed.

Lemma ge_of_Z (a b : Z) : ge (of_Z a) (of_Z b) = (b <=? a)%Z.
Proof. apply le_of_Z. Qed.

Lemma strict_eq_of_Z (a b : Z) : strict_eq (of_Z a) (of_Z b) = (a =? b)%Z.
Proof.
  unfold strict_eq, of_Z, Qeq_bool. simpl. now rewrite !Z.mul_1_r.
Qed.

Lemma add_of_Z (a b : Z) : add (of_Z a) (of_Z b) = of_Z (a + b).
Proof.
  rewrite <- (of_Q_inject_Z (a + b)).
  change (add (of_Z a) (of_Z b)) with (of_Q (inject_Z a + inject_Z b)).
  apply of_Q_eq. now rewrite inject_Z_plus.
Qed.

Lemma neg_of_Z (a : Z) : neg (of_Z a) = of_Z (- a).
Proof.
  rewrite <- (of_Q_inject_Z (- a)).
  change (neg (of_Z a)) with (of_Q (- inject_Z a)).
  apply of_Q_eq. now rewrite inject_Z_opp.
Qed.

Lemma sub_of_Z (a b : Z) : sub (of_Z a) (of_Z b) = of_Z (a - b).
Proof. unfold sub. now rewrite neg_of_Z, add_of_Z. Qed.

Lemma max2_of_Z (a b : Z) : max2 (of_Z a) (of_Z b) = of_Z (Z.max a b).
Proof.
  unfold max2, of_Z at 1 2. fold (of_Z a). fold (of_Z b). rewrite lt_of_Z.
  destruct (Z.ltb_spec a b); [rewrite Z.max_r | rewrite Z.max_l]; auto; lia.
Qed.

Lemma min2_of_Z (a b : Z) : min2 (of_Z a) (of_Z b) = of_Z (Z.min a b).
Proof.
  unfold min2, of_Z at 1 2. fold (of_Z a). fold (of_Z b). rewrite lt_of_Z.
  destruct (Z.ltb_spec b a); [rewrite Z.min_r | rewrite Z.min_l]; auto; lia.
Qed.

(** ** The runtime functions on a few inputs *)

Example Number_examples :
  Number "1e3" = of_Z 1000
  /\ Number " -12.50 " = Fin (-25 # 2)
  /\ Number "0x1f" = of_Z 31
  /\ Number ".5" = Fin (1 # 2)
  /\ Number "" = zero
  /\ Number "12px" = NaN
  /\ Number "infinity" = NaN
  /\ Number "Infinity" = PosInf
  /\ Number "1e309" = PosInf.
Proof. repeat split; vm_compute; reflexivity. Qed.

Example parseInt10_examples :
  parseInt10 " 15abc" = of_Z 15
  /\ parseInt10 "12.9" = of_Z 12
  /\ parseInt10 "-7" = of_Z (-7)
  /\ parseInt10 "0x1f" = of_Z 0
  /\ parseInt10 "abc" = NaN
  /\ parseInt10 "" = NaN.
Proof. repeat split; vm_compute; reflexivity. Qed.

Example text_examples :
  trim "  NaN  " = "NaN"
  /\ toLowerCase "UNDEFINED" = "undefined"
  /\ toFixed (Fin (5 # 2)) 1 = "2.5"
  /\ toFixed (of_Z 10) 0 = "10"
  /\ numberToString (of_Z 124) = "124"
  /\ numberToString (of_Z (10 ^ 21)) = "1e+21"
  /\ numberToString (Fin (1 # 8)) = "0.125".
Proof. repeat split; vm_compute; reflexivity. Qed.

Example parseDay_examples :
  parseDay (VString "15") = of_Z 15
  /\ parseDay (VString "day") = zero
  /\ parseDay (VNumber (Fin (31 # 2))) = of_Z 15
  /\ parseDay VUndefined = zero
  /\ toNumber (VString "1,5") = zero
  /\ toNumber (VString "-5") = of_Z (-5).
Proof. repeat split; vm_compute; reflexivity. Qed.

(** ** Text: trimming and lower-casing *)

Lemma isWhiteSpace_lower (c : ascii) : isWhiteSpace (lower c) = isWhiteSpace c.
Proof.
  destruct c as [[] [] [] [] [] [] [] []]; vm_compute; reflexivity.
Qed.

Lemma list_ascii_of_string_append (s t : string) :
  list_ascii_of_string (s ++ t)
  = (list_ascii_of_string s ++ list_ascii_of_string t)%list.
Proof. induction s as [| c s IH]; simpl; [reflexivity | now rewrite IH]. Qed.

Lemma trimStart_l_skip (pre l : list ascii) :
  forallb isWhiteSpace pre = true -> trimStart_l (pre ++ l) = trimStart_l l.
Proof.
  induction pre as [| c pre IH]; simpl; [reflexivity |].
  intros H. apply andb_prop in H. destruct H as [Hc Hpre].
  rewrite Hc. now apply IH.
Qed.

Lemma trimStart_l_blank (l : list ascii) :
  forallb isWhiteSpace l = true -> trimStart_l l = [].
Proof.
  intros H. rewrite <- (app_nil_r l). now rewrite trimStart_l_skip.
Qed.

Lemma forallb_rev_true (A : Type) (f : A -> bool) (l : list A) :
  forallb f l = true -> forallb f (rev l) = true.
Proof.
  rewrite !forallb_forall. intros H a Ha. apply H. now apply in_rev.
Qed.

(** Trimming removes the white space around a text that neither starts
    nor ends with white space. *)
Lemma trim_l_surrounded (pre core post : list ascii) (a b : ascii) (mid : list ascii) :
  forallb isWhiteSpace pre = true ->
  forallb isWhiteSpace post = true ->
  core = a :: mid -> isWhiteSpace a = false ->
  rev core = b :: rev (removelast core) -> isWhiteSpace b = false ->
  trimEnd_l (trimStart_l (pre ++ core ++ post)) = core.
Proof.
  intros Hpre Hpost Hhead Ha Hlast Hb.
  rewrite trimStart_l_skip by assumption.
  assert (Hs : trimStart_l (core ++ post) = (core ++ post)%list).
  { rewrite Hhead. simpl. now rewrite Ha. }
  rewrite Hs. unfold trimEnd_l. rewrite rev_app_distr.
  rewrite trimStart_l_skip by (now apply forallb_rev_true).
  rewrite Hlast. simpl. rewrite Hb. rewrite <- Hlast. apply rev_involutive.
Qed.

Lemma rev_last_cons (l : list ascii) :
  l <> [] -> rev l = last l " "%char :: rev (removelast l).
Proof.
  intros H. rewrite (app_removelast_last " "%char H) at 1.
  rewrite rev_app_distr. reflexivity.
Qed.

Lemma no_white_of_lower (l : list ascii) :
  forallb (fun c => negb (isWhiteSpace c)) (map lower l) = true ->
  forallb (fun c => negb (isWhiteSpace c)) l = true.
Proof.
  induction l as [| c l IH]; simpl; [reflexivity |].
  rewrite isWhiteSpace_lower. intros H. apply andb_prop in H.
  destruct H as [-> H]. now apply IH.
Qed.

Lemma trim_l_around (pre core post : list ascii) :
  forallb isWhiteSpace pre = true ->
  forallb isWhiteSpace post = true ->
  forallb (fun c => negb (isWhiteSpace c)) core = true ->
  trimEnd_l (trimStart_l (pre ++ core ++ post)) = core.
Proof.
  intros Hpre Hpost Hcore. destruct core as [| a mid] eqn:E.
  - simpl. rewrite trimStart_l_skip by assumption.
    now rewrite trimStart_l_blank.
  - rewrite <- E in *.
    assert (Hne : core <> []) by (rewrite E; discriminate).
    apply (@trim_l_surrounded pre core post a (last core " "%char) mid);
      try assumption.
    + rewrite E in Hcore. simpl in Hcore. apply andb_prop in Hcore.
      destruct Hcore as [Ha _]. now apply negb_true_iff in Ha.
    + now apply rev_last_cons.
    + rewrite forallb_forall in Hcore.
      specialize (Hcore (last core " "%char)).
      apply negb_true_iff, Hcore.
      rewrite (app_removelast_last " "%char Hne) at 2.
      apply in_or_app. right. now left.
Qed.

(** [trim] removes surrounding white space from a text without any. *)
Lemma trim_around (pre core post : string) :
  blank pre = true -> blank post = true ->
  forallb (fun c => negb (isWhiteSpace c)) (list_ascii_of_string core) = true ->
  trim (pre ++ core ++ post) = core.
Proof.
  intros Hpre Hpost Hcore. unfold trim.
  rewrite !list_ascii_of_string_append.
  rewrite trim_l_around by assumption.
  apply string_of_list_ascii_of_string.
Qed.

(** A text that lower-cases to a sentinel contains no white space. *)
Lemma sentinel_no_white (core : string) :
  In (toLowerCase core) sentinels ->
  forallb (fun c => negb (isWhiteSpace c)) (list_ascii_of_string core) = true.
Proof.
  intros H. apply no_white_of_lower.
  assert (E : map lower (list_ascii_of_string core)
              = list_ascii_of_string (toLowerCase core)).
  { unfold toLowerCase. now rewrite list_ascii_of_string_of_list_ascii. }
  rewrite E. simpl in H.
  destruct H as [<- | [<- | [<- | [<- | []]]]]; reflexivity.
Qed.

Lemma isSentinel_iff (s : string) : isSentinel s = true <-> In s sentinels.
Proof.
  unfold isSentinel, sentinels. simpl. rewrite !orb_true_iff, !String.eqb_eq.
  split.
  - intros [[[H | H] | H] | H]; subst; auto.
    destruct s; [auto | discriminate].
  - intros [H | [H | [H | [H | []]]]]; subst; auto.
Qed.

(** ** The parsers *)

Lemma toNumber_finite (v : value) : isFinite (toNumber v) = true.
Proof.
  destruct v as [| | b | n | s |]; simpl; try reflexivity.
  - destruct (isFinite n) eqn:E; [assumption | reflexivity].
  - destruct (isSentinel _); [reflexivity |].
    destruct (isFinite (Number _)) eqn:E; [assumption | reflexivity].
Qed.

(** C7.  [toNumber] (the [parseAmount] of the specification) is total
    and returns a finite number in every case: a number is returned as
    it is when finite and is 0 otherwise; a string that, trimmed and
    lower-cased, is one of the sentinels [""], ["nan"], ["null"],
    ["undefined"] gives exactly 0, whatever the case of its letters and
    the white space around it; any other string gives what [Number]
    reads in it, or 0 when that is [NaN] or an infinity; a value of any
    other type gives 0. *)
Theorem toNumber_spec :
  (forall n : number,
      toNumber (VNumber n) = if isFinite n then n else zero)
  /\ (forall pre core post : string,
         blank pre = true -> blank post = true ->
         In (toLowerCase core) sentinels ->
         toNumber (VString (pre ++ core ++ post)) = zero)
  /\ (forall s : string,
         ~ In (toLowerCase (trim s)) sentinels ->
         toNumber (VString s)
         = match Number (toLowerCase (trim s)) with
           | Fin q => Fin q
           | _ => zero
           end)
  /\ (forall v : value,
         (forall n, v <> VNumber n) -> (forall s, v <> VString s) ->
         toNumber v = zero)
  /\ (forall v : value, isFinite (toNumber v) = true).
Proof.
  repeat split.
  - intros pre core post Hpre Hpost Hcore. simpl.
    rewrite trim_around by (auto using sentinel_no_white).
    apply isSentinel_iff in Hcore. now rewrite Hcore.
  - intros s Hs. simpl.
    destruct (isSentinel (toLowerCase (trim s))) eqn:E.
    + apply isSentinel_iff in E. contradiction.
    + now destruct (Number (toLowerCase (trim s))).
  - intros v Hn Hs. destruct v; try reflexivity.
    + now elim (Hn n).
    + now elim (Hs s).
  - apply toNumber_finite.
Qed.

(** The sentinels of C7 written in capitals between blanks. *)
Lemma toNumber_spec_witness :
  toNumber (VString ("  " ++ "NaN" ++ " ")) = zero
  /\ toNumber (VString " 12.5 ") = Fin (25 # 2)
  /\ toNumber VNull = zero.
Proof.
  destruct toNumber_spec as (_ & Hsent & Hother & Htype & _).
  split; [| split].
  - apply Hsent; [reflexivity | reflexivity | vm_compute; auto].
  - rewrite Hother; [vm_compute; reflexivity |].
    vm_compute. intros [H | [H | [H | [H | []]]]]; discriminate.
  - apply Htype; intros; discriminate.
Defined.

(** C3.  On a number [parseDay] returns its floor without testing that
    it is finite: [parseDay(NaN)] is [NaN] and [parseDay(Infinity)] is
    [Infinity], where the string branch (and [toNumber] on numbers)
    returns 0. *)
Theorem parseDay_number_not_finite :
  parseDay (VNumber NaN) = NaN
  /\ parseDay (VNumber PosInf) = PosInf
  /\ parseDay (VNumber NegInf) = NegInf
  /\ toNumber (VNumber PosInf) = zero
  /\ parseDay (VString "Infinity") = zero.
Proof. repeat split. Qed.

(** C5.  Without rows ([null], [undefined] or an empty array) the
    result is the single point [{x: 0, current: 0, lastYear: 0,
    record: 0}] with the meta data [{31, 31, 0, 0}]. *)
Theorem transform_empty_input :
  let fallback :=
    mkTransformed
      [ChartRow.make (of_Z 0) (Some (of_Z 0)) (of_Z 0) (of_Z 0)]
      (mkMeta (of_Z 31) (of_Z 31) (of_Z 0) (of_Z 0)) in
  transformApiToNormalizedChart None = fallback
  /\ transformApiToNormalizedChart (Some []) = fallback.
Proof. split; reflexivity. Qed.

(** ** Days are integers *)

Lemma number_value_inject_Z (z : Z) :
  number_value (inject_Z z) = PosInf
  \/ number_value (inject_Z z) = NegInf
  \/ number_value (inject_Z z) = of_Z z.
Proof.
  unfold number_value.
  destruct (Qle_bool _ _).
  - destruct (Qlt_bool _ _); auto.
  - right; right. apply of_Q_inject_Z.
Qed.

Lemma parseDay_string (s : string) : exists z : Z, parseDay (VString s) = of_Z z.
Proof.
  simpl. unfold parseInt10.
  destruct (spanSign _) as [sgn l1]. destruct (spanDigits l1) as [ds rest].
  destruct ds as [| c ds].
  - now exists 0%Z.
  - destruct (number_value_inject_Z (sgn * digitsValue (c :: ds))) as [E | [E | E]];
      rewrite E; simpl; eauto; now exists 0%Z.
Qed.

Lemma rowDay_int (r : ApiRow) : exists z : Z, rowDay r = of_Z z.
Proof.
  unfold rowDay. destruct (base_month_day r) as [s |]; simpl fieldValue.
  - apply parseDay_string.
  - now exists 0%Z.
Qed.

Lemma rowDay_dayZ (r : ApiRow) : rowDay r = of_Z (dayZ r).
Proof.
  unfold dayZ. destruct (rowDay_int r) as [z ->].
  cbv beta iota delta [of_Z]. now rewrite Qfloor_Z.
Qed.

(** ** Sorting *)

Lemma insertByDay_perm (r : ApiRow) (l : list ApiRow) :
  Permutation (insertByDay r l) (r :: l).
Proof.
  induction l as [| y t IH]; cbn [insertByDay]; [reflexivity |].
  destruct (gt (sub (rowDay r) (rowDay y)) zero); [| reflexivity].
  rewrite IH. apply perm_swap.
Qed.

Lemma sortByDay_perm (rows : list ApiRow) : Permutation (sortByDay rows) rows.
Proof.
  induction rows as [| r rows IH]; simpl; [reflexivity |].
  rewrite insertByDay_perm. now constructor.
Qed.

(** The sort is stable: the rows of one day keep their order. *)
Lemma insertByDay_filter (d : Z) (r : ApiRow) (l : list ApiRow) :
  filter (fun y => (dayZ y =? d)%Z) (insertByDay r l)
  = filter (fun y => (dayZ y =? d)%Z) (r :: l).
Proof.
  induction l as [| y t IH]; [reflexivity |].
  cbn [insertByDay]. rewrite !rowDay_dayZ, sub_of_Z.
  change zero with (of_Z 0). rewrite gt_of_Z.
  destruct (Z.ltb_spec 0 (dayZ r - dayZ y)) as [Hlt | Hge]; [| reflexivity].
  cbn [filter] in *. rewrite IH.
  destruct (Z.eqb_spec (dayZ r) d), (Z.eqb_spec (dayZ y) d); try reflexivity.
  lia.
Qed.

Lemma sortByDay_filter (d : Z) (rows : list ApiRow) :
  filter (fun y => (dayZ y =? d)%Z) (sortByDay rows)
  = filter (fun y => (dayZ y =? d)%Z) rows.
Proof.
  induction rows as [| r rows IH]; [reflexivity |].
  cbn [sortByDay fold_right]. fold (sortByDay rows).
  rewrite insertByDay_filter. cbn [filter]. now rewrite IH.
Qed.

(** ** The scans over the rows, on integers *)

Lemma max2_NegInf (a : Z) : max2 NegInf (of_Z a) = of_Z a.
Proof. reflexivity. Qed.

Lemma min2_PosInf (a : Z) : min2 PosInf (of_Z a) = of_Z a.
Proof. reflexivity. Qed.

Lemma Math_max_pair (a b : Z) : Math_max [of_Z a; of_Z b] = of_Z (Z.max a b).
Proof. unfold Math_max. cbn [fold_left]. now rewrite max2_NegInf, max2_of_Z. Qed.

Lemma Math_min_pair (a b : Z) : Math_min [of_Z a; of_Z b] = of_Z (Z.min a b).
Proof. unfold Math_min. cbn [fold_left]. now rewrite min2_PosInf, min2_of_Z. Qed.

Lemma fold_max2_of_Z (l : list Z) (a : Z) :
  fold_left max2 (map of_Z l) (of_Z a) = of_Z (fold_left Z.max l a).
Proof.
  revert a. induction l as [| b l IH]; intros a; cbn [map fold_left];
    [reflexivity |].
  now rewrite max2_of_Z, IH.
Qed.

Lemma maxDayOf_nonneg (P : ApiRow -> bool) (rows : list ApiRow) :
  (0 <= maxDayOf P rows)%Z.
Proof.
  unfold maxDayOf. induction (filter P rows) as [| r l IH]; simpl; lia.
Qed.

Lemma maxDayOf_cons (P : ApiRow -> bool) (r : ApiRow) (rows : list ApiRow) :
  maxDayOf P (r :: rows)
  = if P r then Z.max (dayZ r) (maxDayOf P rows) else maxDayOf P rows.
Proof. unfold maxDayOf. cbn [filter]. now destruct (P r). Qed.

Lemma maxDayOf_perm (P : ApiRow -> bool) (l l' : list ApiRow) :
  Permutation l l' -> maxDayOf P l = maxDayOf P l'.
Proof.
  induction 1 as [| r l l' _ IH | r s l | l l' l'' _ IH1 _ IH2].
  - reflexivity.
  - rewrite !maxDayOf_cons, IH. reflexivity.
  - rewrite !maxDayOf_cons. destruct (P r), (P s); lia.
  - congruence.
Qed.

(** [maxDayOf] is a maximum: no row that satisfies [P] has a greater
    day, and the value is 0 or the day of such a row. *)
Lemma maxDayOf_upper (P : ApiRow -> bool) (rows : list ApiRow) (r : ApiRow) :
  In r rows -> P r = true -> (dayZ r <= maxDayOf P rows)%Z.
Proof.
  induction rows as [| y rows IH]; [intros [] |].
  intros [-> | Hin] HP; rewrite maxDayOf_cons.
  - rewrite HP. lia.
  - specialize (IH Hin HP). destruct (P y); lia.
Qed.

Lemma maxDayOf_attained (P : ApiRow -> bool) (rows : list ApiRow) :
  maxDayOf P rows = 0%Z
  \/ exists r, In r rows /\ P r = true /\ dayZ r = maxDayOf P rows.
Proof.
  induction rows as [| y rows IH]; [now left |].
  rewrite maxDayOf_cons. destruct (P y) eqn:HP.
  - destruct (Z.max_spec (dayZ y) (maxDayOf P rows)) as [[Hlt E] | [Hle E]];
      rewrite E.
    + destruct IH as [IH | (r & Hin & Hr & Hd)]; [now left |].
      right. exists r. repeat split; auto. now right.
    + right. exists y. repeat split; auto. now left.
  - destruct IH as [IH | (r & Hin & Hr & Hd)]; [now left |].
    right. exists r. repeat split; auto. now right.
Qed.

Lemma scan_maxDayOf (P : ApiRow -> bool) (l : list ApiRow) (a : Z) :
  (0 <= a)%Z ->
  fold_left (fun t r => if P r then Z.max t (dayZ r) else t) l a
  = Z.max a (maxDayOf P l).
Proof.
  revert a. induction l as [| r l IH]; intros a Ha; cbn [fold_left].
  - unfold maxDayOf. simpl. lia.
  - rewrite maxDayOf_cons. destruct (P r); rewrite IH by lia; lia.
Qed.

Lemma fold_left_of_Z (A : Type) (f : number -> A -> number) (g : Z -> A -> Z)
    (l : list A) (a : Z) :
  (forall t r, f (of_Z t) r = of_Z (g t r)) ->
  fold_left f l (of_Z a) = of_Z (fold_left g l a).
Proof.
  intros H. revert a. induction l as [| r l IH]; intros a; cbn [fold_left];
    [reflexivity |].
  now rewrite H, IH.
Qed.

Lemma todayStep_Z (t : Z) (r : ApiRow) :
  todayStep (of_Z t) r = of_Z (if countsForToday r then Z.max t (dayZ r) else t).
Proof.
  unfold todayStep, countsForToday, positiveDay.
  rewrite rowDay_dayZ. change zero with (of_Z 0). rewrite le_of_Z.
  destruct (Z.leb_spec (dayZ r) 0) as [Hle | Hgt].
  - replace (0 <? dayZ r)%Z with false by (symmetry; apply Z.ltb_ge; lia).
    reflexivity.
  - replace (0 <? dayZ r)%Z with true by (symmetry; apply Z.ltb_lt; lia).
    cbn [andb].
    destruct (negb _); [apply Math_max_pair | reflexivity].
Qed.

Lemma todayScan_Z (rows : list ApiRow) :
  todayScan rows = of_Z (maxDayOf countsForToday rows).
Proof.
  unfold todayScan. change zero with (of_Z 0).
  rewrite (fold_left_of_Z _ _ _ _ todayStep_Z).
  rewrite scan_maxDayOf by lia.
  f_equal. pose proof (maxDayOf_nonneg countsForToday rows). lia.
Qed.

Lemma scanKeys_Z (r : ApiRow) (d L : Z) (keys : list ApiKey) :
  scanKeys r (of_Z d) (of_Z L) keys
  = of_Z (if existsb (qualifies r) keys then Z.max L d else L).
Proof.
  induction keys as [| k keys IH]; cbn [scanKeys existsb]; [reflexivity |].
  destruct (qualifies r k); cbn [orb]; [apply Math_max_pair | apply IH].
Qed.

Lemma lenStep_Z (keys : list ApiKey) (L : Z) (r : ApiRow) :
  lenStep keys (of_Z L) r
  = of_Z (if countsForLen keys r then Z.max L (dayZ r) else L).
Proof.
  unfold lenStep, countsForLen, positiveDay.
  rewrite rowDay_dayZ. change zero with (of_Z 0). rewrite le_of_Z.
  destruct (Z.leb_spec (dayZ r) 0) as [Hle | Hgt].
  - replace (0 <? dayZ r)%Z with false by (symmetry; apply Z.ltb_ge; lia).
    reflexivity.
  - replace (0 <? dayZ r)%Z with true by (symmetry; apply Z.ltb_lt; lia).
    cbn [andb]. apply scanKeys_Z.
Qed.

Lemma lenScan_Z (rows : list ApiRow) (keys : list ApiKey) :
  lenScan rows keys = of_Z (maxDayOf (countsForLen keys) rows).
Proof.
  unfold lenScan. change zero with (of_Z 0).
  rewrite (fold_left_of_Z _ _ _ _ (lenStep_Z keys)).
  rewrite scan_maxDayOf by lia.
  f_equal. pose proof (maxDayOf_nonneg (countsForLen keys) rows). lia.
Qed.

Lemma fold_left_Zmax_gen (l : list Z) (a : Z) :
  Z.max 0 (fold_left Z.max l a) = Z.max (Z.max 0 a) (fold_right Z.max 0%Z l).
Proof.
  revert a. induction l as [| b l IH]; intros a; cbn [fold_left fold_right].
  - lia.
  - rewrite IH. lia.
Qed.

Lemma Math_max_with_default (zs : list Z) (c : Z) :
  (0 <= c)%Z ->
  Math_max (map of_Z zs ++ [of_Z c]) = of_Z (Z.max c (fold_right Z.max 0%Z zs)).
Proof.
  intros Hc. unfold Math_max. rewrite fold_left_app. cbn [fold_left].
  destruct zs as [| a zs]; cbn [map fold_left].
  - rewrite max2_NegInf. simpl. f_equal. lia.
  - rewrite max2_NegInf, fold_max2_of_Z, max2_of_Z. f_equal.
    pose proof (fold_left_Zmax_gen zs a) as H. cbn [fold_right]. lia.
Qed.

Lemma positiveDays_Z (rows : list ApiRow) :
  positiveDays rows = map of_Z (map dayZ (filter positiveDay rows)).
Proof.
  unfold positiveDays. induction rows as [| r rows IH]; [reflexivity |].
  cbn [map filter]. rewrite IH, rowDay_dayZ.
  change zero with (of_Z 0). rewrite gt_of_Z. unfold positiveDay.
  now destruct (0 <? dayZ r)%Z.
Qed.

Lemma Math_max_positiveDays (rows : list ApiRow) (c : Z) :
  (0 <= c)%Z ->
  Math_max (positiveDays rows ++ [of_Z c])
  = of_Z (Z.max c (maxDayOf positiveDay rows)).
Proof.
  intros Hc. rewrite positiveDays_Z. now apply Math_max_with_default.
Qed.

Lemma inferToday_Z (rows : list ApiRow) :
  inferToday rows = of_Z (todayInferred rows).
Proof.
  unfold inferToday, todayInferred. rewrite todayScan_Z.
  change zero with (of_Z 0). rewrite strict_eq_of_Z.
  destruct (maxDayOf countsForToday rows =? 0)%Z; [| reflexivity].
  rewrite Math_max_positiveDays by lia. f_equal.
  pose proof (maxDayOf_nonneg positiveDay rows). lia.
Qed.

Lemma inferLen_Z (rows : list ApiRow) (keys : list ApiKey) :
  inferLen rows keys = of_Z (monthLength keys rows).
Proof.
  unfold inferLen, monthLength. rewrite lenScan_Z.
  change zero with (of_Z 0). rewrite strict_eq_of_Z.
  destruct (maxDayOf (countsForLen keys) rows =? 0)%Z.
  - rewrite Math_max_positiveDays by lia.
    now rewrite Math_max_pair, Math_min_pair.
  - now rewrite Math_max_pair, Math_min_pair.
Qed.

Lemma todayInferred_perm (l l' : list ApiRow) :
  Permutation l l' -> todayInferred l = todayInferred l'.
Proof.
  intros H. unfold todayInferred.
  now rewrite (maxDayOf_perm countsForToday H), (maxDayOf_perm positiveDay H).
Qed.

Lemma monthLength_perm (keys : list ApiKey) (l l' : list ApiRow) :
  Permutation l l' -> monthLength keys l = monthLength keys l'.
Proof.
  intros H. unfold monthLength.
  now rewrite (maxDayOf_perm (countsForLen keys) H), (maxDayOf_perm positiveDay H).
Qed.

Lemma monthLength_range (keys : list ApiKey) (rows : list ApiRow) :
  (28 <= monthLength keys rows <= 31)%Z.
Proof. unfold monthLength. lia. Qed.

Lemma todayInferred_nonneg (rows : list ApiRow) : (0 <= todayInferred rows)%Z.
Proof.
  unfold todayInferred.
  pose proof (maxDayOf_nonneg countsForToday rows).
  pose proof (maxDayOf_nonneg positiveDay rows).
  destruct (_ =? 0)%Z; lia.
Qed.

(** ** The meta data of a non-empty input *)

Lemma progress_Z (today len : Z) :
  (0 < len)%Z ->
  Math_round (mul (div (of_Z today) (of_Z len)) (of_Z 100))
  = of_Z (progressPercent today len).
Proof.
  intros Hlen.
  assert (E : Qeq_bool (inject_Z len) 0 = false).
  { apply not_true_is_false. intros H. apply Qeq_bool_eq in H.
    unfold Qeq in H. simpl in H. lia. }
  cbv beta iota delta [div of_Z mul Math_round of_Q]. rewrite E.
  unfold progressPercent. do 2 f_equal.
  apply Qfloor_comp. now rewrite !Qred_correct.
Qed.

Lemma transformRows_meta (rows : list ApiRow) :
  let len := monthLength currentKeys rows in
  let today := Z.min (todayInferred rows) len in
  meta (transformRows rows)
  = mkMeta (of_Z len) (of_Z (monthLength recordKeys rows)) (of_Z today)
      (of_Z (progressPercent today len)).
Proof.
  intros len today. unfold transformRows. cbn [meta].
  rewrite !inferLen_Z, inferToday_Z.
  fold currentKeys. fold recordKeys.
  rewrite (todayInferred_perm (sortByDay_perm rows)).
  rewrite !(monthLength_perm _ (sortByDay_perm rows)).
  fold len. rewrite Math_min_pair. fold today.
  change zero with (of_Z 0). rewrite gt_of_Z.
  assert (Hlen : (0 < len)%Z) by (pose proof (monthLength_range currentKeys rows); subst len; lia).
  replace (0 <? len)%Z with true by (symmetry; now apply Z.ltb_lt).
  now rewrite progress_Z.
Qed.

Lemma transform_nonempty (rows : list ApiRow) :
  rows <> [] -> transformApiToNormalizedChart (Some rows) = transformRows rows.
Proof. destruct rows; [congruence | reflexivity]. Qed.

Lemma maxDayOf_none (P : ApiRow -> bool) (rows : list ApiRow) :
  (forall r, In r rows -> P r = false) -> maxDayOf P rows = 0%Z.
Proof.
  induction rows as [| y rows IH]; intros H; [reflexivity |].
  rewrite maxDayOf_cons, (H y) by now left.
  apply IH. intros r Hr. apply H. now right.
Qed.

(** ** The length of the month *)

(** C2.  When no row has a text that counts for the given keys, the
    fallback [Math.max(...days, 31)] is at least 31 whatever the days
    are, so the inferred length is 31: the greatest day present never
    shows.  In particular the rows whose only day is 15, all amounts
    ["nan"], give 31 and not 28. *)
Theorem inferLen_no_qualifying_row (rows : list ApiRow) (keys : list ApiKey) :
  (forall r k, In r rows -> In k keys -> qualifies r k = false) ->
  inferLen (sortByDay rows) keys = of_Z 31.
Proof.
  intros H. rewrite inferLen_Z, (monthLength_perm _ (sortByDay_perm rows)).
  unfold monthLength. rewrite maxDayOf_none.
  - cbn [Z.eqb]. f_equal. lia.
  - intros r Hr. unfold countsForLen.
    replace (existsb (qualifies r) keys) with false; [apply andb_false_r |].
    symmetry. apply not_true_is_false. intros E.
    apply existsb_exists in E. destruct E as (k & Hk & Hq).
    rewrite (H r k Hr Hk) in Hq. discriminate.
Qed.

(** The input of C2: greatest day 15, every amount a sentinel. *)
Lemma inferLen_no_qualifying_row_witness :
  positiveDays (sortByDay rowsDay15) = [of_Z 15]
  /\ inferLen (sortByDay rowsDay15) currentKeys = of_Z 31
  /\ currentMonthLen (meta (transformApiToNormalizedChart (Some rowsDay15)))
     = of_Z 31.
Proof.
  split; [reflexivity | split].
  - apply inferLen_no_qualifying_row.
    intros r k [<- | []] [<- | [<- | []]]; reflexivity.
  - reflexivity.
Defined.

(** ** Today *)

Lemma countsForToday_same (r r' : ApiRow) :
  sameDayAndCurrent r r' ->
  countsForToday r = countsForToday r' /\ dayZ r = dayZ r'.
Proof.
  intros [Hd Hc]. unfold countsForToday, positiveDay, dayZ, rowDay.
  now rewrite Hd, Hc.
Qed.

Lemma maxDayOf_today_same (rows rows' : list ApiRow) :
  Forall2 sameDayAndCurrent rows rows' ->
  maxDayOf countsForToday rows = maxDayOf countsForToday rows'.
Proof.
  induction 1 as [| r r' l l' Hr _ IH]; [reflexivity |].
  rewrite !maxDayOf_cons, IH.
  destruct (countsForToday_same Hr) as [-> ->]. reflexivity.
Qed.

(** The claim C6 as it is written fails: in [rowsEmptyDay31] the
    greatest day whose current-month amount is not ["nan"] is 31 (its
    amount is empty), and the month is 28 days long, so the reported
    today is 28. *)
Lemma today_is_max_day_counterexample :
  ~ (forall rows : list ApiRow,
        rows <> [] ->
        todayDay (meta (transformApiToNormalizedChart (Some rows)))
        = of_Z (maxDayOf countsForToday rows)).
Proof.
  intros H. assert (E := H rowsEmptyDay31 ltac:(discriminate)).
  vm_compute in E. discriminate E.
Qed.

Lemma maxDayOf_eq (P : ApiRow -> bool) (rows : list ApiRow) (M : Z) :
  (0 <= M)%Z ->
  (forall r, In r rows -> P r = true -> (dayZ r <= M)%Z) ->
  (exists r, In r rows /\ P r = true /\ dayZ r = M) ->
  maxDayOf P rows = M.
Proof.
  intros HM Hup (r & Hin & HP & Hd).
  pose proof (maxDayOf_upper P rows r Hin HP) as Hle.
  destruct (maxDayOf_attained P rows) as [E | (r' & Hin' & HP' & Hd')].
  - lia.
  - specialize (Hup r' Hin' HP'). lia.
Qed.

(** C6, amended.  The loop that looks for today computes the greatest
    day [d > 0] whose current-month amount, trimmed and lower-cased, is
    not ["nan"], and reads nothing but the day and that amount; the
    length of the month is inferred from other fields.  The reported
    today is that day (or, when there is none, the greatest positive
    day) clamped to the length of the current month.  In scenario C
    (days 1 to 28 with the current-month amount ["100"], day 29 with
    ["nan"]) today is 28, and the current month is 29 days long when
    the last-year amount of day 29 counts. *)
Theorem today_inference (rows : list ApiRow) :
  rows <> [] ->
  let out := transformApiToNormalizedChart (Some rows) in
  let candidate := maxDayOf countsForToday rows in
  let len := monthLength currentKeys rows in
  todayScan (sortByDay rows) = of_Z candidate
  /\ (forall r, In r rows -> countsForToday r = true -> (dayZ r <= candidate)%Z)
  /\ (candidate = 0%Z
      \/ exists r, In r rows /\ countsForToday r = true /\ dayZ r = candidate)
  /\ (forall rows', Forall2 sameDayAndCurrent rows rows' ->
        todayScan (sortByDay rows') = of_Z candidate)
  /\ currentMonthLen (meta out) = of_Z len
  /\ todayDay (meta out)
     = of_Z (Z.min (if (candidate =? 0)%Z then maxDayOf positiveDay rows
                    else candidate) len)
  /\ ((forall r, In r rows -> scenarioRow r) ->
      (exists r, In r rows /\ dayZ r = 28%Z) ->
      todayDay (meta out) = of_Z 28
      /\ ((exists r, In r rows /\ dayZ r = 29%Z
                     /\ qualifies r K_last_year = true) ->
          currentMonthLen (meta out) = of_Z 29)).
Proof.
  intros Hne out candidate len.
  assert (Hscan : forall l, todayScan (sortByDay l) = of_Z (maxDayOf countsForToday l)).
  { intros l. rewrite todayScan_Z. f_equal. apply maxDayOf_perm, sortByDay_perm. }
  assert (Hmeta : todayDay (meta out)
                  = of_Z (Z.min (if (candidate =? 0)%Z
                                 then maxDayOf positiveDay rows
                                 else candidate) len)
                  /\ currentMonthLen (meta out) = of_Z len).
  { subst out. rewrite transform_nonempty, transformRows_meta by assumption.
    split; reflexivity. }
  destruct Hmeta as [Htoday Hlen].
  split; [apply Hscan |].
  split; [intros r Hin Hr; now apply maxDayOf_upper |].
  split; [apply maxDayOf_attained |].
  split.
  { intros rows' Hsame. rewrite Hscan. f_equal. symmetry.
    now apply maxDayOf_today_same. }
  split; [exact Hlen |]. split; [exact Htoday |].
  intros Hrows (r28 & Hin28 & Hd28).
  assert (Hcounts : forall r, In r rows ->
            countsForToday r = (dayZ r <=? 28)%Z /\ (1 <= dayZ r <= 29)%Z
            /\ ((dayZ r <= 28)%Z -> countsForLen currentKeys r = true)).
  { intros r Hr. unfold countsForToday, countsForLen, positiveDay.
    destruct (Hrows r Hr) as [[Hd Hc] | [Hd Hc]].
    - unfold currentKeys, qualifies. cbn [existsb field]. rewrite Hc.
      replace (0 <? dayZ r)%Z with true by (symmetry; apply Z.ltb_lt; lia).
      replace (dayZ r <=? 28)%Z with true by (symmetry; apply Z.leb_le; lia).
      repeat split; try reflexivity; lia.
    - rewrite Hc, Hd. repeat split; try reflexivity; lia. }
  assert (Hcand : candidate = 28%Z).
  { apply maxDayOf_eq; [lia | |].
    - intros r Hr Hc. destruct (Hcounts r Hr) as (E & _ & _).
      rewrite E in Hc. now apply Z.leb_le.
    - exists r28. destruct (Hcounts r28 Hin28) as (E & _ & _).
      repeat split; try assumption. rewrite E, Hd28. reflexivity. }
  pose proof (monthLength_range currentKeys rows) as Hrange. fold len in Hrange.
  split.
  - rewrite Htoday, Hcand. cbn [Z.eqb]. f_equal. lia.
  - intros (r29 & Hin29 & Hd29 & Hq).
    rewrite Hlen. f_equal. subst len. unfold monthLength.
    assert (HL : maxDayOf (countsForLen currentKeys) rows = 29%Z).
    { apply maxDayOf_eq; [lia | |].
      - intros r Hr _. destruct (Hcounts r Hr) as (_ & Hd & _). lia.
      - exists r29. repeat split; try assumption.
        unfold countsForLen, positiveDay, currentKeys. cbn [existsb].
        rewrite Hq, Hd29. now destruct (qualifies r29 K_current). }
    rewrite HL. reflexivity.
Qed.

(** Scenario C on the rows [rowsScenarioC]. *)
Lemma today_inference_witness :
  let out := transformApiToNormalizedChart (Some rowsScenarioC) in
  todayScan (sortByDay rowsScenarioC) = of_Z 28
  /\ todayDay (meta out) = of_Z 28
  /\ currentMonthLen (meta out) = of_Z 29.
Proof.
  assert (Hne : rowsScenarioC <> []) by discriminate.
  destruct (today_inference Hne) as (Hscan & _ & _ & _ & _ & _ & Hsc).
  assert (Hrows : forall r, In r rowsScenarioC -> scenarioRow r).
  { intros r Hr. unfold rowsScenarioC in Hr. apply in_app_or in Hr.
    destruct Hr as [Hr | [<- | []]].
    - apply in_map_iff in Hr. destruct Hr as (d & <- & Hd).
      apply in_seq in Hd. left. split; [| reflexivity].
      assert (H : forallb (fun d => (dayZ (row (digits (Z.of_nat d)) "100" "7" "50")
                                      =? Z.of_nat d)%Z) (seq 1 28) = true)
        by (vm_compute; reflexivity).
      rewrite forallb_forall in H. specialize (H d ltac:(apply in_seq; lia)).
      apply Z.eqb_eq in H. rewrite H. lia.
    - right. split; reflexivity. }
  assert (H28 : exists r, In r rowsScenarioC /\ dayZ r = 28%Z).
  { exists (row "28" "100" "7" "50"). split; [| reflexivity].
    apply (nth_error_In _ 27). reflexivity. }
  destruct (Hsc Hrows H28) as [Htoday Hlen].
  split; [| split].
  - rewrite Hscan. vm_compute. reflexivity.
  - exact Htoday.
  - apply Hlen. exists (row "29" "nan" "nan" "50").
    repeat split. apply in_or_app. right. now left.
Defined.

(** ** Empty amounts: today against the length of the month *)

Lemma rawText_empty (f : option string) :
  trim (nullish f "") = "" -> rawText f = "".
Proof. unfold rawText. now intros ->. Qed.

Lemma scanKeys_unqualified (r : ApiRow) (d L : number) (keys : list ApiKey) :
  (forall k, In k keys -> qualifies r k = false) -> scanKeys r d L keys = L.
Proof.
  induction keys as [| k keys IH]; intros H; cbn [scanKeys]; [reflexivity |].
  rewrite (H k) by now left. apply IH. intros k' Hk'. apply H. now right.
Qed.

(** The claim C10 as it is written fails: in [rowsEmptyDay31] the row
    of day 31 has an empty current-month amount, and the reported today
    is 28, the length of the month. *)
Lemma empty_amount_today_counterexample :
  ~ (forall (rows : list ApiRow) (r : ApiRow),
        In r rows -> (1 <= dayZ r <= 31)%Z ->
        trim (nullish (current_month_total_amount_released r) "") = "" ->
        le (of_Z (dayZ r))
           (todayDay (meta (transformApiToNormalizedChart (Some rows))))
        = true).
Proof.
  intros H.
  assert (E := H rowsEmptyDay31 (row "31" "" "" "")
                 ltac:(right; left; reflexivity)
                 ltac:(vm_compute; split; discriminate)
                 ltac:(reflexivity)).
  vm_compute in E. discriminate E.
Qed.

(** C10, amended.  A row of day [d] in [1,31] whose current-month
    amount trims to the empty text counts for today: the day inferred
    by the loop is at least [d], and the reported today, which is that
    day clamped to the length of the current month, is at least the
    smaller of [d] and that length.  A row whose amounts, for the keys
    looked at, all trim to the empty text leaves the length candidate
    of the loop as it is. *)
Theorem empty_amount_asymmetry (rows : list ApiRow) (r : ApiRow) :
  In r rows -> (1 <= dayZ r <= 31)%Z ->
  let out := transformApiToNormalizedChart (Some rows) in
  (trim (nullish (current_month_total_amount_released r) "") = "" ->
   exists inferred today len : Z,
     inferToday (sortByDay rows) = of_Z inferred
     /\ (dayZ r <= inferred)%Z
     /\ currentMonthLen (meta out) = of_Z len
     /\ todayDay (meta out) = of_Z today
     /\ today = Z.min inferred len
     /\ (Z.min (dayZ r) len <= today)%Z)
  /\ (forall keys : list ApiKey,
         (forall k, In k keys -> trim (nullish (field r k) "") = "") ->
         forall L : number, lenStep keys L r = L).
Proof.
  intros Hin Hd out. split.
  - intros Hempty.
    assert (Hne : rows <> []) by (intros ->; contradiction).
    assert (Hc : countsForToday r = true).
    { unfold countsForToday, positiveDay.
      rewrite (rawText_empty _ Hempty).
      apply andb_true_intro. split; [apply Z.ltb_lt; lia | reflexivity]. }
    pose proof (maxDayOf_upper countsForToday rows r Hin Hc) as Hup.
    assert (Hinf : (dayZ r <= todayInferred rows)%Z).
    { unfold todayInferred.
      destruct (Z.eqb_spec (maxDayOf countsForToday rows) 0); lia. }
    exists (todayInferred rows),
      (Z.min (todayInferred rows) (monthLength currentKeys rows)),
      (monthLength currentKeys rows).
    subst out. rewrite transform_nonempty, transformRows_meta by assumption.
    rewrite inferToday_Z, (todayInferred_perm (sortByDay_perm rows)).
    cbn [currentMonthLen todayDay]. repeat split; try assumption; lia.
  - intros keys Hkeys L. unfold lenStep.
    destruct (le (rowDay r) zero); [reflexivity |].
    apply scanKeys_unqualified. intros k Hk. unfold qualifies.
    now rewrite (rawText_empty _ (Hkeys k Hk)).
Qed.

(** Day 31 of [rowsEmptyDay31]: the loop infers a today of at least
    31, the reported today is at least 28, and the row leaves a length
    candidate of 1 as it is. *)
Lemma empty_amount_asymmetry_witness :
  let r := row "31" "" "" "" in
  let out := transformApiToNormalizedChart (Some rowsEmptyDay31) in
  (exists inferred today len : Z,
      inferToday (sortByDay rowsEmptyDay31) = of_Z inferred
      /\ (31 <= inferred)%Z
      /\ currentMonthLen (meta out) = of_Z len
      /\ todayDay (meta out) = of_Z today
      /\ today = Z.min inferred len
      /\ (Z.min 31 len <= today)%Z)
  /\ lenStep currentKeys (of_Z 1) r = of_Z 1.
Proof.
  intros r out.
  assert (Hin : In r rowsEmptyDay31) by (right; left; reflexivity).
  assert (Hd : (1 <= dayZ r <= 31)%Z) by (vm_compute; split; discriminate).
  destruct (empty_amount_asymmetry rowsEmptyDay31 r Hin Hd) as [Htoday Hlen].
  split.
  - apply Htoday. reflexivity.
  - apply Hlen. intros k [<- | [<- | []]]; reflexivity.
Defined.

(** ** The points of the chart *)

Lemma transformRows_data (rows : list ApiRow) :
  exists currentCum lastYearCum recordCum,
    data (transformRows rows)
    = map (chartPoint currentCum lastYearCum recordCum
             (currentMonthLen (meta (transformRows rows)))
             (recordMonthLen (meta (transformRows rows)))
             (currentProgressX (meta (transformRows rows)))) percents.
Proof. unfold transformRows. cbn [data meta currentMonthLen recordMonthLen currentProgressX]. eauto. Qed.

Lemma percents_In (v : number) :
  In v percents <-> exists i : Z, (0 <= i <= 100)%Z /\ v = of_Z i.
Proof.
  unfold percents. rewrite in_map_iff. split.
  - intros (n & <- & Hn). apply in_seq in Hn. exists (Z.of_nat n). split; [lia | reflexivity].
  - intros (i & Hi & ->). exists (Z.to_nat i). split.
    + f_equal. lia.
    + apply in_seq. lia.
Qed.

Lemma progressPercent_nonneg (today len : Z) :
  (0 <= today)%Z -> (0 < len)%Z -> (0 <= progressPercent today len)%Z.
Proof.
  intros Ht Hl. unfold progressPercent.
  rewrite <- (Qfloor_Z 0). apply Qfloor_resp_le.
  assert (0 <= inject_Z today / inject_Z len)%Q.
  { apply Qle_shift_div_l.
    - change 0%Q with (inject_Z 0). rewrite <- Zlt_Qlt. exact Hl.
    - rewrite Qmult_0_l. change 0%Q with (inject_Z 0). now rewrite <- Zle_Qle. }
  change (inject_Z 0) with 0%Q. change (inject_Z 100) with 100%Q.
  revert H. generalize (inject_Z today / inject_Z len)%Q. intros q Hq. lra.
Qed.

(** C4.  For a non-empty input the progress of today is
    [round(todayDay / currentMonthLen * 100)]; the chart has the 101
    points [x = 0..100]; a point beyond today's progress has no current
    value ([null]), and a point up to it has one. *)
Theorem current_truncation (rows : list ApiRow) :
  rows <> [] ->
  let out := transformApiToNormalizedChart (Some rows) in
  exists today len : Z,
    todayDay (meta out) = of_Z today
    /\ currentMonthLen (meta out) = of_Z len
    /\ (0 <= today <= len)%Z /\ (28 <= len <= 31)%Z
    /\ currentProgressX (meta out) = of_Z (progressPercent today len)
    /\ map ChartRow.x (data out) = percents
    /\ forall pt, In pt (data out) ->
         (gt (ChartRow.x pt) (currentProgressX (meta out)) = true ->
          ChartRow.current pt = None)
         /\ (le (ChartRow.x pt) (currentProgressX (meta out)) = true ->
             exists v : number, ChartRow.current pt = Some v).
Proof.
  intros Hne out. subst out. rewrite transform_nonempty by assumption.
  destruct (transformRows_data rows) as (cc & lc & rc & Hdata).
  rewrite Hdata. rewrite transformRows_meta.
  cbn [todayDay currentMonthLen recordMonthLen currentProgressX].
  set (len := monthLength currentKeys rows).
  set (today := Z.min (todayInferred rows) len).
  pose proof (monthLength_range currentKeys rows) as Hlen. fold len in Hlen.
  pose proof (todayInferred_nonneg rows) as Ht.
  exists today, len.
  split; [reflexivity |]. split; [reflexivity |].
  split; [subst today; lia |]. split; [exact Hlen |].
  split; [reflexivity |]. split.
  { rewrite map_map. cbn [chartPoint ChartRow.x]. apply map_id. }
  intros pt H. split.
  - intros Hgt. apply in_map_iff in H. destruct H as (v & <- & Hv).
    cbn [chartPoint ChartRow.x ChartRow.current] in *. now rewrite Hgt.
  - intros Hle. apply in_map_iff in H. destruct H as (v & <- & Hv).
    cbn [chartPoint ChartRow.x ChartRow.current] in *.
    apply percents_In in Hv. destruct Hv as (i & Hi & ->).
    rewrite gt_of_Z. rewrite le_of_Z in Hle. apply Z.leb_le in Hle.
    replace (_ <? i)%Z with false by (symmetry; apply Z.ltb_ge; lia).
    eauto.
Qed.

Lemma current_truncation_witness :
  let out := transformApiToNormalizedChart (Some rowsScenarioC) in
  currentProgressX (meta out) = of_Z 97
  /\ exists today len : Z,
    todayDay (meta out) = of_Z today
    /\ currentMonthLen (meta out) = of_Z len
    /\ (0 <= today <= len)%Z /\ (28 <= len <= 31)%Z
    /\ currentProgressX (meta out) = of_Z (progressPercent today len)
    /\ map ChartRow.x (data out) = percents
    /\ forall pt, In pt (data out) ->
         (gt (ChartRow.x pt) (currentProgressX (meta out)) = true ->
          ChartRow.current pt = None)
         /\ (le (ChartRow.x pt) (currentProgressX (meta out)) = true ->
             exists v : number, ChartRow.current pt = Some v).
Proof.
  split; [vm_compute; reflexivity |].
  apply current_truncation. discriminate.
Defined.

(** ** The daily amounts *)

Lemma rowOfDay_cons (r : ApiRow) (l : list ApiRow) (d : Z) :
  rowOfDay (r :: l) d
  = match rowOfDay l d with
    | Some r' => Some r'
    | None => if (dayZ r =? d)%Z then Some r else None
    end.
Proof.
  unfold rowOfDay. cbn [filter].
  destruct (dayZ r =? d)%Z.
  - cbn [rev]. destruct (rev (filter _ l)); reflexivity.
  - destruct (rev (filter _ l)); reflexivity.
Qed.

Lemma rowOfDay_sort (rows : list ApiRow) (d : Z) :
  rowOfDay (sortByDay rows) d = rowOfDay rows d.
Proof. unfold rowOfDay. now rewrite sortByDay_filter. Qed.

Lemma rowOfDay_In (rows : list ApiRow) (d : Z) (r : ApiRow) :
  rowOfDay rows d = Some r -> In r rows.
Proof.
  unfold rowOfDay. intros H.
  assert (Hin : In r (rev (filter (fun r => (dayZ r =? d)%Z) rows))).
  { destruct (rev _); [discriminate | injection H as ->; now left]. }
  apply in_rev, filter_In in Hin. tauto.
Qed.

Lemma buildByDay_fold (l : list ApiRow) (m : DayMap) (d : Z) :
  (1 <= d <= 31)%Z ->
  fold_left
    (fun byDay r =>
       let day := rowDay r in
       if ge day one && le day (of_Z 31) then map_set byDay day r else byDay)
    l m (of_Z d)
  = match rowOfDay l d with
    | Some r => Some r
    | None => m (of_Z d)
    end.
Proof.
  intros Hd. revert m. induction l as [| r l IH]; intros m; cbn [fold_left];
    [reflexivity |].
  rewrite IH, rowOfDay_cons. destruct (rowOfDay l d); [reflexivity |].
  cbv zeta. rewrite rowDay_dayZ. unfold one. rewrite ge_of_Z, le_of_Z.
  destruct (Z.eqb_spec (dayZ r) d) as [E | E].
  - replace (1 <=? dayZ r)%Z with true by (symmetry; apply Z.leb_le; lia).
    replace (dayZ r <=? 31)%Z with true by (symmetry; apply Z.leb_le; lia).
    cbn [andb]. unfold map_set. rewrite strict_eq_of_Z.
    replace (d =? dayZ r)%Z with true by (symmetry; apply Z.eqb_eq; lia).
    reflexivity.
  - destruct (_ && _); [| reflexivity].
    unfold map_set. rewrite strict_eq_of_Z.
    replace (d =? dayZ r)%Z with false by (symmetry; apply Z.eqb_neq; lia).
    reflexivity.
Qed.

(** The map built from the sorted rows holds, for a day of the
    calendar, the last row of that day. *)
Lemma buildByDay_get (rows : list ApiRow) (d : Z) :
  (1 <= d <= 31)%Z ->
  map_get (buildByDay (sortByDay rows)) (of_Z d) = rowOfDay rows d.
Proof.
  intros Hd. unfold map_get, buildByDay. rewrite buildByDay_fold by assumption.
  rewrite rowOfDay_sort. now destruct (rowOfDay rows d).
Qed.

Lemma daysFrom_S (d : Z) (n : nat) :
  daysFrom d (S n) = d :: daysFrom (d + 1) n.
Proof.
  unfold daysFrom. cbn [seq map]. f_equal; [lia |].
  rewrite <- seq_shift, map_map. apply map_ext. intros i. lia.
Qed.

(** The loop of [buildDaily] stops by its own test as soon as the fuel
    covers the days [d..L]; it then yields one amount per day. *)
Lemma buildDaily_loop_days (byDay : DayMap) (key : ApiKey) (L : Z)
    (fuel : nat) (d : Z) :
  (Z.to_nat (L - d + 1) <= fuel)%nat ->
  buildDaily_loop byDay key (of_Z L) fuel (of_Z d)
  = map (fun z =>
           toNumber (VString match map_get byDay (of_Z z) with
                             | Some r => nullish (field r key) "0"
                             | None => "0"
                             end))
      (daysFrom d (Z.to_nat (L - d + 1))).
Proof.
  revert d. induction fuel as [| fuel IH]; intros d Hfuel.
  - replace (Z.to_nat (L - d + 1)) with O by lia. reflexivity.
  - cbn [buildDaily_loop]. rewrite le_of_Z.
    destruct (Z.leb_spec d L) as [Hle | Hgt].
    + replace (Z.to_nat (L - d + 1)) with (S (Z.to_nat (L - (d + 1) + 1))) by lia.
      rewrite daysFrom_S. cbn [map]. f_equal.
      unfold one. rewrite add_of_Z. apply IH. lia.
    + replace (Z.to_nat (L - d + 1)) with O by lia. reflexivity.
Qed.

Lemma buildDaily_fuel (byDay : DayMap) (key : ApiKey) (L : Z) (fuel : nat) :
  (L <= 31)%Z -> (31 <= fuel)%nat ->
  buildDaily_loop byDay key (of_Z L) fuel one = buildDaily byDay key (of_Z L).
Proof.
  intros HL Hfuel. unfold buildDaily, one.
  rewrite !buildDaily_loop_days by lia. reflexivity.
Qed.

Lemma buildDaily_amounts (rows : list ApiRow) (key : ApiKey) (L : Z) :
  (0 <= L <= 31)%Z ->
  buildDaily (buildByDay (sortByDay rows)) key (of_Z L) = dailyAmounts rows key L.
Proof.
  intros HL. unfold buildDaily, one. rewrite buildDaily_loop_days by lia.
  unfold dailyAmounts. replace (L - 1 + 1)%Z with L by lia.
  apply map_ext_in. intros z Hz. unfold dailyAmount.
  rewrite buildByDay_get; [reflexivity |].
  unfold daysFrom in Hz. apply in_map_iff in Hz.
  destruct Hz as (i & <- & Hi). apply in_seq in Hi. lia.
Qed.

Lemma dailyAmounts_length (rows : list ApiRow) (key : ApiKey) (L : Z) :
  List.length (dailyAmounts rows key L) = Z.to_nat L.
Proof. unfold dailyAmounts, daysFrom. now rewrite !length_map, length_seq. Qed.

(** ** Running totals *)

(** The entry [i] of the running totals is the sum of the first
    [i + 1] amounts. *)
Lemma cumulative_from_nth (acc : number) (l : list number) (i : nat) :
  (i < List.length l)%nat ->
  nth_error (cumulative_from acc l) i = Some (fold_left add (firstn (S i) l) acc).
Proof.
  revert acc i. induction l as [| v l IH]; intros acc i Hi; [inversion Hi |].
  destruct i as [| i]; [reflexivity |].
  cbn [cumulative_from nth_error]. rewrite IH by (cbn in Hi; lia). reflexivity.
Qed.

Lemma cumulative_nth (l : list number) (i : nat) :
  (i < List.length l)%nat ->
  nth_error (cumulative l) i = Some (total (firstn (S i) l)).
Proof. apply cumulative_from_nth. Qed.

Lemma index_of_Z (A : Type) (arr : list A) (i : Z) :
  (0 <= i)%Z -> index arr (of_Z i) = nth_error arr (Z.to_nat i).
Proof.
  intros Hi. unfold index, of_Z. rewrite Qfloor_Z.
  replace (Qeq_bool (inject_Z i) (inject_Z i)) with true
    by (symmetry; apply Qeq_bool_iff; reflexivity).
  replace (Qle_bool 0 (inject_Z i)) with true; [reflexivity |].
  symmetry. apply Qle_bool_iff. change 0%Q with (inject_Z 0).
  now rewrite <- Zle_Qle.
Qed.

(** The points of a non-empty input, with every length on integers. *)
Lemma transformRows_points (rows : list ApiRow) :
  let len := monthLength currentKeys rows in
  let rlen := monthLength recordKeys rows in
  let today := Z.min (todayInferred rows) len in
  data (transformRows rows)
  = map (chartPoint (cumulative (dailyAmounts rows K_current len))
           (cumulative (dailyAmounts rows K_last_year len))
           (cumulative (dailyAmounts rows K_record rlen))
           (of_Z len) (of_Z rlen) (of_Z (progressPercent today len)))
      percents.
Proof.
  intros len rlen today. unfold transformRows. cbn [data].
  rewrite !inferLen_Z, inferToday_Z.
  fold currentKeys. fold recordKeys.
  rewrite (todayInferred_perm (sortByDay_perm rows)).
  rewrite !(monthLength_perm _ (sortByDay_perm rows)).
  fold len. fold rlen. rewrite Math_min_pair. fold today.
  change zero with (of_Z 0). rewrite gt_of_Z.
  pose proof (monthLength_range currentKeys rows).
  pose proof (monthLength_range recordKeys rows).
  replace (0 <? len)%Z with true by (symmetry; apply Z.ltb_lt; subst len; lia).
  rewrite progress_Z by (subst len; lia).
  rewrite !buildDaily_amounts by (subst len rlen; lia).
  reflexivity.
Qed.

Lemma cumAtProgress_start (cum : list number) (L : number) :
  cumAtProgress cum L (div (of_Z 0) (of_Z 100)) = zero.
Proof.
  unfold cumAtProgress. destruct (le L zero); reflexivity.
Qed.

Lemma cumAtProgress_end (cum : list number) (L : Z) :
  (1 <= L)%Z ->
  cumAtProgress cum (of_Z L) (div (of_Z 100) (of_Z 100))
  = nullish (nth_error cum (Z.to_nat (L - 1))) zero.
Proof.
  intros HL. unfold cumAtProgress. change zero with (of_Z 0).
  rewrite le_of_Z.
  replace (L <=? 0)%Z with false by (symmetry; apply Z.leb_gt; lia).
  change (div (of_Z 100) (of_Z 100)) with one.
  change (le one (of_Z 0)) with false. change (ge one one) with true.
  cbv iota. unfold one. rewrite sub_of_Z, index_of_Z by lia. reflexivity.
Qed.

Lemma cumulative_last (l : list number) :
  l <> [] ->
  nth_error (cumulative l) (List.length l - 1) = Some (total l).
Proof.
  intros Hne. assert (0 < List.length l)%nat by (destruct l; [congruence | cbn; lia]).
  rewrite cumulative_nth by lia.
  replace (S (List.length l - 1)) with (List.length l) by lia.
  now rewrite firstn_all.
Qed.

Lemma cumAtProgress_total (daily : list number) (L : Z) :
  (1 <= L)%Z -> List.length daily = Z.to_nat L ->
  cumAtProgress (cumulative daily) (of_Z L) (div (of_Z 100) (of_Z 100))
  = total daily.
Proof.
  intros HL Hlen. rewrite cumAtProgress_end by assumption.
  replace (Z.to_nat (L - 1)) with (List.length daily - 1)%nat by lia.
  rewrite cumulative_last; [reflexivity |].
  intros ->. cbn in Hlen. lia.
Qed.

(** ** The ends of the series *)

(** C8.  For a non-empty input the chart has the points [x = 0..100];
    at [x = 0] the three series are 0 (and the current value is
    present); at [x = 100] the last-year series is the sum of the
    parsed last-year amounts of the days 1 to the length of the current
    month, and the record series the sum of the parsed record amounts
    of the days 1 to the length of the record month. *)
Theorem series_ends (rows : list ApiRow) :
  rows <> [] ->
  let out := transformApiToNormalizedChart (Some rows) in
  exists len rlen : Z,
    currentMonthLen (meta out) = of_Z len
    /\ recordMonthLen (meta out) = of_Z rlen
    /\ map ChartRow.x (data out) = percents
    /\ forall pt, In pt (data out) ->
         (ChartRow.x pt = of_Z 0 ->
          ChartRow.current pt = Some zero
          /\ ChartRow.lastYear pt = zero
          /\ ChartRow.record pt = zero)
         /\ (ChartRow.x pt = of_Z 100 ->
             ChartRow.lastYear pt = total (dailyAmounts rows K_last_year len)
             /\ ChartRow.record pt = total (dailyAmounts rows K_record rlen)).
Proof.
  intros Hne out. subst out. rewrite transform_nonempty by assumption.
  rewrite transformRows_meta, transformRows_points.
  cbn [currentMonthLen recordMonthLen].
  set (len := monthLength currentKeys rows).
  set (rlen := monthLength recordKeys rows).
  set (today := Z.min (todayInferred rows) len).
  pose proof (monthLength_range currentKeys rows) as Hlen. fold len in Hlen.
  pose proof (monthLength_range recordKeys rows) as Hrlen. fold rlen in Hrlen.
  pose proof (todayInferred_nonneg rows) as Ht.
  exists len, rlen.
  split; [reflexivity |]. split; [reflexivity |]. split.
  { rewrite map_map. cbn [chartPoint ChartRow.x]. apply map_id. }
  intros pt Hpt. apply in_map_iff in Hpt. destruct Hpt as (v & <- & Hv).
  cbn [chartPoint ChartRow.x ChartRow.current ChartRow.lastYear ChartRow.record].
  split; intros ->.
  - rewrite !cumAtProgress_start, gt_of_Z.
    assert (0 <= progressPercent today len)%Z
      by (apply progressPercent_nonneg; subst today; lia).
    replace (_ <? 0)%Z with false by (symmetry; apply Z.ltb_ge; lia).
    auto.
  - rewrite !cumAtProgress_total
      by (try lia; rewrite dailyAmounts_length; reflexivity).
    auto.
Qed.

Lemma series_ends_witness :
  let out := transformApiToNormalizedChart (Some rowsScenarioC) in
  nth_error (data out) 100
  = Some (ChartRow.make (of_Z 100) None (of_Z 1450) (of_Z 196))
  /\ exists len rlen : Z,
    currentMonthLen (meta out) = of_Z len
    /\ recordMonthLen (meta out) = of_Z rlen
    /\ map ChartRow.x (data out) = percents
    /\ forall pt, In pt (data out) ->
         (ChartRow.x pt = of_Z 0 ->
          ChartRow.current pt = Some zero
          /\ ChartRow.lastYear pt = zero
          /\ ChartRow.record pt = zero)
         /\ (ChartRow.x pt = of_Z 100 ->
             ChartRow.lastYear pt
             = total (dailyAmounts rowsScenarioC K_last_year len)
             /\ ChartRow.record pt
                = total (dailyAmounts rowsScenarioC K_record rlen)).
Proof.
  split; [vm_compute; reflexivity |].
  apply series_ends. discriminate.
Defined.

(** ** Finite numbers and their values *)

Lemma represents_Fin (q : Q) : represents (Fin q) q.
Proof. exists q. split; reflexivity. Qed.

Lemma represents_of_Q (q : Q) : represents (of_Q q) q.
Proof. exists (Qred q). split; [reflexivity | apply Qred_correct]. Qed.

Lemma represents_of_Z (z : Z) : represents (of_Z z) (inject_Z z).
Proof. apply represents_Fin. Qed.

Lemma represents_eq (n : number) (p q : Q) :
  represents n p -> (p == q)%Q -> represents n q.
Proof. intros (q' & -> & H) E. exists q'. split; [reflexivity |]. now rewrite H. Qed.

Lemma represents_finite (n : number) :
  isFinite n = true -> represents n (valueOf n).
Proof. destruct n; try discriminate. intros _. apply represents_Fin. Qed.

Lemma represents_add (a b : number) (p q : Q) :
  represents a p -> represents b q -> represents (add a b) (p + q).
Proof.
  intros (p' & -> & Hp) (q' & -> & Hq).
  apply represents_eq with (p' + q')%Q; [apply represents_of_Q |].
  now rewrite Hp, Hq.
Qed.

Lemma represents_sub (a b : number) (p q : Q) :
  represents a p -> represents b q -> represents (sub a b) (p - q).
Proof.
  intros (p' & -> & Hp) (q' & -> & Hq).
  apply represents_eq with (p' + Qred (- q'))%Q; [apply represents_of_Q |].
  rewrite Qred_correct, Hp, Hq. reflexivity.
Qed.

Lemma represents_mul (a b : number) (p q : Q) :
  represents a p -> represents b q -> represents (mul a b) (p * q).
Proof.
  intros (p' & -> & Hp) (q' & -> & Hq).
  apply represents_eq with (p' * q')%Q; [apply represents_of_Q |].
  now rewrite Hp, Hq.
Qed.

Lemma represents_div (a b : number) (p q : Q) :
  represents a p -> represents b q -> ~ (q == 0)%Q ->
  represents (div a b) (p / q).
Proof.
  intros (p' & -> & Hp) (q' & -> & Hq) Hnz. unfold div.
  replace (Qeq_bool q' 0) with false.
  - apply represents_eq with (p' / q')%Q; [apply represents_of_Q |].
    now rewrite Hp, Hq.
  - symmetry. apply not_true_is_false. intros H. apply Qeq_bool_eq in H.
    apply Hnz. now rewrite <- Hq.
Qed.

Lemma represents_floor (a : number) (p : Q) :
  represents a p -> Math_floor a = of_Z (Qfloor p).
Proof.
  intros (p' & -> & Hp). unfold Math_floor. f_equal. now apply Qfloor_comp.
Qed.

Lemma represents_le (a b : number) (p q : Q) :
  represents a p -> represents b q -> (le a b = true <-> (p <= q)%Q).
Proof.
  intros (p' & -> & Hp) (q' & -> & Hq). unfold le.
  rewrite Qle_bool_iff. now rewrite Hp, Hq.
Qed.

Lemma represents_le_false (a b : number) (p q : Q) :
  represents a p -> represents b q -> (q < p)%Q -> le a b = false.
Proof.
  intros Ha Hb Hlt. apply not_true_is_false. intros H.
  apply (represents_le Ha Hb) in H. lra.
Qed.

(** ** Sums of finite amounts *)

Lemma fold_add_represents (l : list number) (acc : number) (q : Q) :
  Forall (fun v => isFinite v = true) l -> represents acc q ->
  represents (fold_left add l acc) (q + sumQ (map valueOf l)).
Proof.
  intros Hfin. revert acc q.
  induction Hfin as [| v l Hv _ IH]; intros acc q Hacc; cbn [fold_left map sumQ fold_right].
  - apply represents_eq with q; [assumption | ring].
  - apply represents_eq with ((q + valueOf v) + sumQ (map valueOf l))%Q.
    + apply IH. apply represents_add; [assumption |].
      now apply represents_finite.
    + unfold sumQ. ring.
Qed.

Lemma total_represents (l : list number) :
  Forall (fun v => isFinite v = true) l ->
  represents (total l) (sumQ (map valueOf l)).
Proof.
  intros H. apply represents_eq with (0 + sumQ (map valueOf l))%Q; [| ring].
  apply fold_add_represents; [assumption | apply represents_Fin].
Qed.

Lemma Forall_firstn (A : Type) (P : A -> Prop) (k : nat) (l : list A) :
  Forall P l -> Forall P (firstn k l).
Proof.
  intros H. rewrite <- (firstn_skipn k l) in H.
  now apply Forall_app in H.
Qed.

Lemma prefix_represents (daily : list number) (k : nat) :
  Forall (fun v => isFinite v = true) daily ->
  represents (total (firstn k daily)) (prefixQ daily k).
Proof.
  intros H. apply total_represents. now apply Forall_firstn.
Qed.

(** ** [cumAtProgress] between the ends *)

Lemma floor_position (pq : Q) (L : Z) :
  (0 < pq)%Q -> (pq < 1)%Q -> (1 <= L)%Z ->
  (0 <= Qfloor (pq * inject_Z L) <= L - 1)%Z.
Proof.
  intros H0 H1 HL.
  assert (HLq : (1 <= inject_Z L)%Q) by (change 1%Q with (inject_Z 1); now rewrite <- Zle_Qle).
  split.
  - rewrite <- (Qfloor_Z 0). apply Qfloor_resp_le. change (inject_Z 0) with 0%Q. nra.
  - assert (H : (Qfloor (pq * inject_Z L) < L)%Z); [| lia].
    rewrite Zlt_Qlt. apply Qle_lt_trans with (pq * inject_Z L)%Q.
    + apply Qfloor_le.
    + nra.
Qed.

(** Inside [(0,1)] the function reads the two running totals around
    the position [p * L] and interpolates between them. *)
Lemma cumAtProgress_interior_eq (cum : list number) (L : Z) (p : number) (pq : Q) :
  represents p pq -> (0 < pq)%Q -> (pq < 1)%Q -> (1 <= L)%Z ->
  let lo := Qfloor (pq * inject_Z L) in
  let loValue :=
    if (1 <=? lo)%Z then nullish (nth_error cum (Z.to_nat (lo - 1))) zero
    else zero in
  let hiValue := nullish (nth_error cum (Z.to_nat lo)) loValue in
  cumAtProgress cum (of_Z L) p
  = add loValue
      (mul (sub hiValue loValue)
         (div (sub (mul p (of_Z L)) (of_Z lo)) (of_Z 1))).
Proof.
  intros Hp H0 H1 HL lo loValue hiValue.
  pose proof (floor_position H0 H1 HL) as Hlo. fold lo in Hlo.
  unfold cumAtProgress.
  change zero with (of_Z 0). rewrite le_of_Z.
  replace (L <=? 0)%Z with false by (symmetry; apply Z.leb_gt; lia).
  rewrite (represents_le_false Hp (represents_of_Z 0)) by exact H0.
  unfold ge, one.
  rewrite (represents_le_false (represents_of_Z 1) Hp) by exact H1.
  assert (Hday : represents (mul p (of_Z L)) (pq * inject_Z L)).
  { apply represents_mul; [assumption | apply represents_of_Z]. }
  rewrite (represents_floor Hday). fold lo.
  rewrite add_of_Z, sub_of_Z, Math_min_pair, Math_max_pair.
  replace (Z.min (lo + 1) L) with (lo + 1)%Z by lia.
  replace (Z.max (lo - 1) (-1)) with (lo - 1)%Z by lia.
  rewrite !sub_of_Z, le_of_Z, strict_eq_of_Z.
  replace (lo + 1 - 1)%Z with lo by lia.
  replace (lo + 1 - lo)%Z with 1%Z by lia.
  replace (lo + 1 =? lo)%Z with false by (symmetry; apply Z.eqb_neq; lia).
  rewrite (index_of_Z cum (i := lo)) by lia.
  replace (0 <=? lo - 1)%Z with (1 <=? lo)%Z
    by (destruct (Z.leb_spec 1 lo), (Z.leb_spec 0 (lo - 1)); lia).
  subst hiValue loValue.
  destruct (Z.leb_spec 1 lo) as [H1lo | H1lo].
  - rewrite index_of_Z by lia. reflexivity.
  - reflexivity.
Qed.

Lemma cumAtProgress_interior (daily : list number) (L : Z) (p : number) (pq : Q) :
  Forall (fun v => isFinite v = true) daily ->
  List.length daily = Z.to_nat L ->
  represents p pq -> (0 < pq)%Q -> (pq < 1)%Q -> (1 <= L)%Z ->
  represents (cumAtProgress (cumulative daily) (of_Z L) p)
    (interpolate daily (pq * inject_Z L)).
Proof.
  intros Hfin Hlen Hp H0 H1 HL.
  rewrite (cumAtProgress_interior_eq (cumulative daily) Hp H0 H1 HL).
  pose proof (floor_position H0 H1 HL) as Hlo.
  set (lo := Qfloor (pq * inject_Z L)) in *.
  assert (HloV : (if (1 <=? lo)%Z
                  then nullish (nth_error (cumulative daily) (Z.to_nat (lo - 1))) zero
                  else zero) = total (firstn (Z.to_nat lo) daily)).
  { destruct (Z.leb_spec 1 lo) as [H | H].
    - rewrite cumulative_nth by lia. cbn [nullish].
      now replace (S (Z.to_nat (lo - 1))) with (Z.to_nat lo) by lia.
    - replace (Z.to_nat lo) with O by lia. reflexivity. }
  rewrite HloV. rewrite cumulative_nth by lia. cbn [nullish].
  unfold interpolate. fold lo.
  apply represents_add; [now apply prefix_represents |].
  apply represents_mul.
  - apply represents_sub; now apply prefix_represents.
  - eapply represents_eq.
    + apply represents_div.
      * apply represents_sub; [| apply represents_of_Z].
        apply represents_mul; [eassumption | apply represents_of_Z].
      * apply represents_of_Z.
      * discriminate.
    + change (inject_Z 1) with 1%Q. field.
Qed.

(** ** Running totals of amounts that are not negative *)

Lemma prefixQ_nil (k : nat) : prefixQ [] k = 0%Q.
Proof. unfold prefixQ. now rewrite firstn_nil. Qed.

Lemma prefixQ_0 (daily : list number) : prefixQ daily 0 = 0%Q.
Proof. reflexivity. Qed.

Lemma prefixQ_cons (v : number) (l : list number) (k : nat) :
  prefixQ (v :: l) (S k) = (valueOf v + prefixQ l k)%Q.
Proof. reflexivity. Qed.

Lemma prefixQ_step (daily : list number) (k : nat) :
  Forall amountOK daily -> (prefixQ daily k <= prefixQ daily (S k))%Q.
Proof.
  intros H. revert k. induction H as [| v l [_ Hv] _ IH]; intros k.
  - rewrite !prefixQ_nil. lra.
  - destruct k as [| k].
    + rewrite prefixQ_0, prefixQ_cons, prefixQ_0. lra.
    + rewrite !prefixQ_cons. specialize (IH k). lra.
Qed.

Lemma prefixQ_mono (daily : list number) (k k' : nat) :
  Forall amountOK daily -> (k <= k')%nat ->
  (prefixQ daily k <= prefixQ daily k')%Q.
Proof.
  intros H Hk. induction Hk as [| k' _ IH]; [lra |].
  pose proof (prefixQ_step k' H). lra.
Qed.

Lemma prefixQ_nonneg (daily : list number) (k : nat) :
  Forall amountOK daily -> (0 <= prefixQ daily k)%Q.
Proof.
  intros H. rewrite <- (prefixQ_0 daily). apply prefixQ_mono; [assumption | lia].
Qed.

(** ** The interpolation never goes down *)

Lemma interpolate_bounds (daily : list number) (s : Q) :
  Forall amountOK daily ->
  (prefixQ daily (Z.to_nat (Qfloor s)) <= interpolate daily s)%Q
  /\ (interpolate daily s <= prefixQ daily (S (Z.to_nat (Qfloor s))))%Q.
Proof.
  intros H. unfold interpolate.
  pose proof (prefixQ_step (Z.to_nat (Qfloor s)) H) as Hstep.
  pose proof (Qfloor_le s) as Hlo. pose proof (Qlt_floor s) as Hhi.
  rewrite inject_Z_plus in Hhi. change (inject_Z 1) with 1%Q in Hhi.
  set (a := prefixQ daily (Z.to_nat (Qfloor s))) in *.
  set (b := prefixQ daily (S (Z.to_nat (Qfloor s)))) in *.
  set (f := inject_Z (Qfloor s)) in *.
  split; nra.
Qed.

Lemma interpolate_mono (daily : list number) (s s' : Q) :
  Forall amountOK daily -> (0 <= s)%Q -> (s <= s')%Q ->
  (interpolate daily s <= interpolate daily s')%Q.
Proof.
  intros H Hs Hss.
  assert (Hfl : (Qfloor s <= Qfloor s')%Z) by now apply Qfloor_resp_le.
  assert (H0 : (0 <= Qfloor s)%Z)
    by (rewrite <- (Qfloor_Z 0); now apply Qfloor_resp_le).
  destruct (Z.eq_dec (Qfloor s) (Qfloor s')) as [E | NE].
  - unfold interpolate. rewrite <- E.
    pose proof (prefixQ_step (Z.to_nat (Qfloor s)) H) as Hstep.
    set (a := prefixQ daily (Z.to_nat (Qfloor s))) in *.
    set (b := prefixQ daily (S (Z.to_nat (Qfloor s)))) in *.
    set (f := inject_Z (Qfloor s)) in *.
    nra.
  - destruct (interpolate_bounds s H) as [_ Hup].
    destruct (interpolate_bounds s' H) as [Hlow _].
    assert (Hm : (prefixQ daily (S (Z.to_nat (Qfloor s)))
                  <= prefixQ daily (Z.to_nat (Qfloor s')))%Q)
      by (apply prefixQ_mono; [assumption | lia]).
    lra.
Qed.

Lemma interpolate_nonneg (daily : list number) (s : Q) :
  Forall amountOK daily -> (0 <= interpolate daily s)%Q.
Proof.
  intros H. destruct (interpolate_bounds s H) as [Hlow _].
  pose proof (prefixQ_nonneg (Z.to_nat (Qfloor s)) H). lra.
Qed.

(** ** A series, point by point *)

Lemma amountOK_finite (daily : list number) :
  Forall amountOK daily -> Forall (fun v => isFinite v = true) daily.
Proof. apply Forall_impl. now intros v [H _]. Qed.

Lemma position_range (i L : Z) :
  (0 <= i <= 100)%Z -> (1 <= L)%Z ->
  (0 <= position i L)%Q /\ (position i L <= inject_Z L)%Q.
Proof.
  intros Hi HL. unfold position.
  assert (HLq : (1 <= inject_Z L)%Q) by (change 1%Q with (inject_Z 1); now rewrite <- Zle_Qle).
  assert (H0 : (0 <= inject_Z i)%Q) by (change 0%Q with (inject_Z 0); rewrite <- Zle_Qle; lia).
  assert (H1 : (inject_Z i <= 100)%Q) by (change 100%Q with (inject_Z 100); rewrite <- Zle_Qle; lia).
  change (inject_Z 100) with 100%Q.
  set (q := inject_Z i) in *. set (l := inject_Z L) in *.
  assert (E : (q / 100 * l == q * l * (1 # 100))%Q) by field.
  rewrite E. split; nra.
Qed.

Lemma position_mono (i j L : Z) :
  (i <= j)%Z -> (1 <= L)%Z -> (position i L <= position j L)%Q.
Proof.
  intros Hij HL. unfold position.
  assert (HLq : (1 <= inject_Z L)%Q) by (change 1%Q with (inject_Z 1); now rewrite <- Zle_Qle).
  assert (H : (inject_Z i <= inject_Z j)%Q) by now rewrite <- Zle_Qle.
  change (inject_Z 100) with 100%Q.
  set (p := inject_Z i) in *. set (q := inject_Z j) in *. set (l := inject_Z L) in *.
  assert (E : forall a, (a / 100 * l == a * l * (1 # 100))%Q) by (intros a; field).
  rewrite !E. nra.
Qed.

(** The value of a series at the point [i] is the interpolation of the
    running totals at the position of [i], ends included. *)
Lemma seriesAt_represents (daily : list number) (L i : Z) :
  Forall amountOK daily -> List.length daily = Z.to_nat L ->
  (1 <= L)%Z -> (0 <= i <= 100)%Z ->
  represents (seriesAt daily L (of_Z i)) (interpolate daily (position i L)).
Proof.
  intros Hok Hlen HL Hi. pose proof (amountOK_finite Hok) as Hfin.
  unfold seriesAt.
  destruct (Z.eq_dec i 0) as [-> | Hi0]; [| destruct (Z.eq_dec i 100) as [-> | Hi100]].
  - rewrite cumAtProgress_start. unfold interpolate.
    assert (E : (position 0 L == 0)%Q) by (unfold position; field).
    rewrite (Qfloor_comp _ _ E). change (Qfloor 0) with 0%Z.
    apply represents_eq with 0%Q; [apply represents_Fin |].
    rewrite E, prefixQ_0. change (inject_Z 0) with 0%Q. ring.
  - rewrite cumAtProgress_total by assumption. unfold interpolate.
    assert (E : (position 100 L == inject_Z L)%Q) by (unfold position; field).
    rewrite (Qfloor_comp _ _ E), Qfloor_Z.
    eapply represents_eq; [apply (total_represents Hfin) |].
    rewrite E. unfold prefixQ. rewrite <- Hlen, firstn_all. ring.
  - assert (Hp : represents (div (of_Z i) (of_Z 100)) (inject_Z i / inject_Z 100)).
    { apply represents_div; try apply represents_of_Z. discriminate. }
    assert (H0 : (0 < inject_Z i / inject_Z 100)%Q).
    { apply Qlt_shift_div_l; [reflexivity |]. rewrite Qmult_0_l.
      change 0%Q with (inject_Z 0). rewrite <- Zlt_Qlt. lia. }
    assert (H1 : (inject_Z i / inject_Z 100 < 1)%Q).
    { apply Qlt_shift_div_r; [reflexivity |]. rewrite Qmult_1_l.
      rewrite <- Zlt_Qlt. lia. }
    apply (cumAtProgress_interior Hfin Hlen Hp H0 H1 HL).
Qed.

Lemma percents_nth (i : nat) (v : number) :
  nth_error percents i = Some v ->
  v = of_Z (Z.of_nat i) /\ (0 <= Z.of_nat i <= 100)%Z.
Proof.
  intros H.
  assert (Hi : (i < List.length percents)%nat).
  { apply nth_error_Some. rewrite H. discriminate. }
  change (List.length percents) with 101%nat in Hi.
  unfold percents in H. rewrite nth_error_map, nth_error_seq in H.
  destruct (Nat.ltb_spec i 101); [| lia].
  cbn in H. injection H as <-. split; [reflexivity | lia].
Qed.

(** With amounts that are not negative, a series is not negative and
    never goes down. *)
Lemma seriesAt_monotone (daily : list number) (L : Z) :
  Forall amountOK daily -> List.length daily = Z.to_nat L -> (1 <= L)%Z ->
  nonNegative (map (seriesAt daily L) percents)
  /\ nonDecreasing (map (seriesAt daily L) percents).
Proof.
  intros Hok Hlen HL. split.
  - intros v Hv. apply in_map_iff in Hv. destruct Hv as (x & <- & Hx).
    apply percents_In in Hx. destruct Hx as (i & Hi & ->).
    apply (represents_le (represents_of_Z 0) (seriesAt_represents Hok Hlen HL Hi)).
    change (inject_Z 0) with 0%Q. now apply interpolate_nonneg.
  - intros i j a b Hij Ha Hb.
    rewrite nth_error_map in Ha, Hb.
    destruct (nth_error percents i) as [x |] eqn:Ex; [| discriminate].
    destruct (nth_error percents j) as [y |] eqn:Ey; [| discriminate].
    cbn in Ha, Hb. injection Ha as <-. injection Hb as <-.
    apply percents_nth in Ex, Ey. destruct Ex as [-> Hi], Ey as [-> Hj].
    apply (represents_le (seriesAt_represents Hok Hlen HL Hi)
             (seriesAt_represents Hok Hlen HL Hj)).
    apply interpolate_mono; [assumption | |].
    + now apply position_range.
    + apply position_mono; lia.
Qed.

Lemma amountOK_of_le (v : number) :
  isFinite v = true -> le zero v = true -> amountOK v.
Proof.
  intros Hfin Hle. split; [assumption |].
  destruct v as [| | q |]; try discriminate.
  now apply Qle_bool_iff in Hle.
Qed.

Lemma dailyAmounts_OK (rows : list ApiRow) (key : ApiKey) (L : Z) :
  In key amountKeys ->
  amountsNonNegative rows -> Forall amountOK (dailyAmounts rows key L).
Proof.
  intros Hkey H. unfold dailyAmounts. apply Forall_forall. intros v Hv.
  apply in_map_iff in Hv. destruct Hv as (d & <- & _).
  apply amountOK_of_le; [apply toNumber_finite |].
  unfold dailyAmount. destruct (rowOfDay rows d) as [r |] eqn:E.
  - apply (H r key); [eapply rowOfDay_In; eauto | assumption].
  - reflexivity.
Qed.

Lemma amountsNonNegativeb_true (rows : list ApiRow) :
  amountsNonNegativeb rows = true -> amountsNonNegative rows.
Proof.
  unfold amountsNonNegativeb. rewrite forallb_forall.
  intros H r key Hr Hkey. specialize (H r Hr).
  rewrite forallb_forall in H. now apply H.
Qed.

Lemma percents_daysFrom : percents = map of_Z (daysFrom 0 101).
Proof. reflexivity. Qed.

(** The current values that are present are the first values of the
    series, up to the progress of today. *)
Lemma presentValues_prefix (f : number -> number) (c : Z) (n : nat) (d : Z) :
  presentValues
    (map (fun x => if gt x (of_Z c) then None else Some (f x))
       (map of_Z (daysFrom d n)))
  = firstn (Z.to_nat (c - d + 1)) (map f (map of_Z (daysFrom d n))).
Proof.
  revert d. induction n as [| n IH]; intros d.
  - now rewrite firstn_nil.
  - rewrite daysFrom_S. cbn [map presentValues flat_map].
    fold (presentValues
            (map (fun x => if gt x (of_Z c) then None else Some (f x))
               (map of_Z (daysFrom (d + 1) n)))).
    rewrite IH, gt_of_Z. destruct (Z.ltb_spec c d) as [Hlt | Hge].
    + replace (Z.to_nat (c - (d + 1) + 1)) with O by lia.
      replace (Z.to_nat (c - d + 1)) with O by lia. reflexivity.
    + replace (Z.to_nat (c - d + 1)) with (S (Z.to_nat (c - (d + 1) + 1))) by lia.
      reflexivity.
Qed.

Lemma nonNegative_firstn (l : list number) (k : nat) :
  nonNegative l -> nonNegative (firstn k l).
Proof.
  intros H v Hv. apply H. rewrite <- (firstn_skipn k l).
  apply in_or_app. now left.
Qed.

Lemma nonDecreasing_firstn (l : list number) (k : nat) :
  nonDecreasing l -> nonDecreasing (firstn k l).
Proof.
  intros H i j a b Hij Ha Hb.
  assert (Hj : (j < k)%nat).
  { destruct (Nat.ltb_spec j k); [assumption |].
    rewrite nth_error_firstn in Hb.
    destruct (Nat.ltb_spec j k); [lia | discriminate]. }
  rewrite nth_error_firstn in Ha, Hb.
  destruct (Nat.ltb_spec i k); [| lia]. destruct (Nat.ltb_spec j k); [| lia].
  exact (H i j a b Hij Ha Hb).
Qed.

Lemma seriesMonotone_empty : seriesMonotone empty.
Proof.
  assert (Hn : nonNegative [zero]) by (intros v [<- | []]; reflexivity).
  assert (Hd : nonDecreasing [zero]).
  { intros [| i] [| j] a b _ Ha Hb; cbn in Ha, Hb;
      try (destruct i; discriminate); try (destruct j; discriminate).
    injection Ha as <-. injection Hb as <-. reflexivity. }
  unfold seriesMonotone, empty. cbn. tauto.
Qed.

(** ** The three series *)

(** The claim C1 as it is written fails: an amount may be negative.
    With the single row [{day 1, last-year amount "-5"}] the last-year
    series ends at -5. *)
Lemma series_monotone_counterexample :
  ~ (forall rows : list ApiRow,
        seriesMonotone (transformApiToNormalizedChart (Some rows))).
Proof.
  intros H. destruct (H rowsNegative) as (_ & (Hneg & _) & _).
  specialize (Hneg (of_Z (-5))).
  assert (E : le zero (of_Z (-5)) = true).
  { apply Hneg. apply (nth_error_In _ 100). vm_compute. reflexivity. }
  discriminate E.
Qed.

(** C1, amended.  When no amount of the input parses to a negative
    number, each of the three series of the result (the current values
    that are present, the last-year values and the record values) is
    non-negative and non-decreasing along the points [x = 0..100]. *)
Theorem series_monotone_nonnegative_amounts (rows : list ApiRow) :
  amountsNonNegative rows ->
  seriesMonotone (transformApiToNormalizedChart (Some rows)).
Proof.
  intros Hrows.
  assert (Hcase : rows = [] \/ rows <> [])
    by (destruct rows; [now left | right; discriminate]).
  destruct Hcase as [-> | Hne].
  - apply seriesMonotone_empty.
  - rewrite transform_nonempty by assumption.
    unfold seriesMonotone. rewrite transformRows_points.
    set (len := monthLength currentKeys rows).
    set (rlen := monthLength recordKeys rows).
    set (cpx := progressPercent (Z.min (todayInferred rows) len) len).
    pose proof (monthLength_range currentKeys rows) as Hlen. fold len in Hlen.
    pose proof (monthLength_range recordKeys rows) as Hrlen. fold rlen in Hrlen.
    cbv zeta. rewrite !map_map.
    cbn [chartPoint ChartRow.current ChartRow.lastYear ChartRow.record].
    pose proof (seriesAt_monotone (@dailyAmounts_OK rows K_current len ltac:(cbn; tauto) Hrows)
                  (dailyAmounts_length rows K_current len) ltac:(lia)) as [Hc1 Hc2].
    pose proof (seriesAt_monotone (@dailyAmounts_OK rows K_last_year len ltac:(cbn; tauto) Hrows)
                  (dailyAmounts_length rows K_last_year len) ltac:(lia)) as Hl.
    pose proof (seriesAt_monotone (@dailyAmounts_OK rows K_record rlen ltac:(cbn; tauto) Hrows)
                  (dailyAmounts_length rows K_record rlen) ltac:(lia)) as Hr.
    split; [| split; [exact Hl | exact Hr]].
    pose proof (presentValues_prefix
                  (seriesAt (dailyAmounts rows K_current len) len) cpx 101 0) as Hp.
    rewrite <- percents_daysFrom in Hp.
    unfold seriesAt in Hp at 1. rewrite Hp.
    split; [now apply nonNegative_firstn | now apply nonDecreasing_firstn].
Qed.

Lemma series_monotone_nonnegative_amounts_witness :
  amountsNonNegative rowsScenarioC
  /\ seriesMonotone (transformApiToNormalizedChart (Some rowsScenarioC)).
Proof.
  assert (H : amountsNonNegative rowsScenarioC)
    by (apply amountsNonNegativeb_true; vm_compute; reflexivity).
  split; [exact H | exact (series_monotone_nonnegative_amounts H)].
Defined.

(** ** [formatBubble] *)










Lemma length_list_ascii_of_string (s : string) :
  List.length (list_ascii_of_string s) = String.length s.
Proof. induction s as [| c s IH]; cbn; [reflexivity | now rewrite IH]. Qed.




(** ** Agreement with IEEE doubles where integers decide *)

Lemma daysFrom_In (d : Z) (n : nat) (z : Z) :
  (d <= z < d + Z.of_nat n)%Z -> In z (daysFrom d n).
Proof.
  intros H. unfold daysFrom. apply in_map_iff. exists (Z.to_nat (z - d)).
  split; [lia | apply in_seq; lia].
Qed.

(** X25.  The progress of today computed on doubles,
    [Math.round(todayDay / currentMonthLen * 100)] with the division
    and the product rounded as IEEE-754 binary64 rounds them, is the
    one computed on rationals, for every length and every day the
    program can reach. *)
Lemma progress_binary64 (today len : Z) :
  (28 <= len <= 31)%Z -> (0 <= today <= len)%Z ->
  Binary64.progress today len = Some (progressPercent today len).
Proof.
  intros Hlen Ht.
  assert (H : forallb (fun l =>
                forallb (fun t =>
                  match Binary64.progress t l with
                  | Some c => (c =? progressPercent t l)%Z
                  | None => false
                  end) (daysFrom 0 32)) (daysFrom 28 4) = true)
    by (vm_compute; reflexivity).
  rewrite forallb_forall in H. specialize (H len (@daysFrom_In 28 4 len ltac:(cbn; lia))).
  rewrite forallb_forall in H. specialize (H today (@daysFrom_In 0 32 today ltac:(cbn; lia))).
  destruct (Binary64.progress today len); [| discriminate].
  apply Z.eqb_eq in H. now subst.
Qed.

(** X26.  On doubles too, [x / 100] is 0 at [x = 0], 1 at [x = 100]
    and strictly between them elsewhere, and the position
    [x / 100 * L] lies between the same two days as on rationals: at
    each of the 101 points [cumAtProgress] takes the same branch and
    reads the same two running totals as in exact arithmetic. *)
Lemma position_binary64 (x L : Z) :
  (0 <= x <= 100)%Z -> (28 <= L <= 31)%Z ->
  exists p s : Q,
    Binary64.fraction x = Some p
    /\ Binary64.position x L = Some s
    /\ Qle_bool p 0 = (x =? 0)%Z
    /\ Qle_bool 1 p = (x =? 100)%Z
    /\ Qfloor s = Qfloor (position x L).
Proof.
  intros Hx HL.
  assert (H : forallb (fun l =>
                forallb (fun i =>
                  match Binary64.fraction i, Binary64.position i l with
                  | Some p, Some s =>
                      Bool.eqb (Qle_bool p 0) (i =? 0)%Z
                      && Bool.eqb (Qle_bool 1 p) (i =? 100)%Z
                      && (Qfloor s =? Qfloor (position i l))%Z
                  | _, _ => false
                  end) (daysFrom 0 101)) (daysFrom 28 4) = true)
    by (vm_compute; reflexivity).
  rewrite forallb_forall in H. specialize (H L (@daysFrom_In 28 4 L ltac:(cbn; lia))).
  rewrite forallb_forall in H. specialize (H x (@daysFrom_In 0 101 x ltac:(cbn; lia))).
  destruct (Binary64.fraction x) as [p |]; [| discriminate].
  destruct (Binary64.position x L) as [s |]; [| discriminate].
  apply andb_prop in H. destruct H as [H H3].
  apply andb_prop in H. destruct H as [H1 H2].
  exists p, s. repeat split.
  - now apply Bool.eqb_prop.
  - now apply Bool.eqb_prop.
  - now apply Z.eqb_eq.
Qed.

(** The examples of [formatBubble], on doubles: the tenths and the
    rounded number are those of the exact computation. *)
Lemma formatBubble_binary64 :
  Binary64.tenths 2500000 = Some 25%Z
  /\ Binary64.rounded 2500000 = Some (5 # 2)
  /\ Binary64.tenths 2000000 = Some 20%Z
  /\ Binary64.rounded 2000000 = Some 2%Q
  /\ Binary64.tenths 9999999 = Some 100%Z
  /\ Binary64.rounded 9999999 = Some 10%Q
  /\ Binary64.tenths 0 = Some 0%Z
  /\ Binary64.rounded 0 = Some 0%Q.
Proof. repeat split; vm_compute; reflexivity. Qed.

(** Where no integer decides, the rounding of doubles can show.  The
    double next above 1 700 000 is [1700000 + 2^-32]; divided by
    1 000 000 and multiplied by 10 on doubles it gives exactly 17, so
    [formatBubble] prints ["1.7M"], while the exact quotient is above
    17 tenths and rounds up to 18. *)
Lemma formatBubble_binary64_rounding :
  let v := SpecFloat.S754_finite false (1700000 * 2 ^ 32 + 1) (-32) in
  option_map Qred (Binary64.exact v) = Some (Qred (1700000 + (1 # 2 ^ 32)))
  /\ option_map Qceiling
       (Binary64.exact
          (Binary64.mul (Binary64.div v (Binary64.of_Z 1000000))
             (Binary64.of_Z 10)))
     = Some 17%Z
  /\ Qceiling ((1700000 + (1 # 2 ^ 32)) / 1000000 * 10) = 18%Z.
Proof. repeat split; vm_compute; reflexivity. Qed.

(** * Further properties of the transformation *)

(** ** The sort by day *)

Lemma insertByDay_sorted (r : ApiRow) (l : list ApiRow) :
  StronglySorted dayLe l -> StronglySorted dayLe (insertByDay r l).
Proof.
  induction 1 as [| y t Ht IH Hy]; cbn [insertByDay].
  - repeat constructor.
  - rewrite !rowDay_dayZ, sub_of_Z. change zero with (of_Z 0). rewrite gt_of_Z.
    destruct (Z.ltb_spec 0 (dayZ r - dayZ y)) as [Hlt | Hge].
    + constructor; [exact IH |].
      eapply Permutation_Forall; [symmetry; apply insertByDay_perm |].
      constructor; [unfold dayLe; lia | exact Hy].
    + constructor; [now constructor |].
      constructor; [unfold dayLe; lia |].
      eapply Forall_impl; [| exact Hy]. unfold dayLe. intros a Ha. lia.
Qed.

(** X1.  [[...rows].sort((a, b) => parseDay(a) - parseDay(b))]
    rearranges the rows (none lost, none added), leaves them in the
    order of their days, and keeps the rows of one day in the order of
    the input. *)
Theorem sortByDay_sorted_stable (rows : list ApiRow) :
  Permutation (sortByDay rows) rows
  /\ StronglySorted dayLe (sortByDay rows)
  /\ forall d : Z, filter (ofDay d) (sortByDay rows) = filter (ofDay d) rows.
Proof.
  split; [apply sortByDay_perm |]. split.
  - induction rows as [| r rows IH]; [constructor |].
    cbn [sortByDay fold_right]. now apply insertByDay_sorted.
  - intros d. apply sortByDay_filter.
Qed.

(** ** The map from days to rows *)

Lemma rowOfDay_None (rows : list ApiRow) (d : Z) :
  rowOfDay rows d = None <-> forall r, In r rows -> dayZ r <> d.
Proof.
  induction rows as [| y l IH]; [split; [intros _ r [] | reflexivity] |].
  rewrite rowOfDay_cons. destruct (rowOfDay l d) as [r' |] eqn:E.
  - split; [discriminate |]. intros H.
    assert (Some r' = None) as F; [| discriminate F].
    apply IH. intros r Hr. apply H. now right.
  - destruct (Z.eqb_spec (dayZ y) d) as [Hd | Hd].
    + split; [discriminate |]. intros H. exfalso. apply (H y); [now left | exact Hd].
    + split; [| reflexivity]. intros _ r [<- | Hr]; [exact Hd |].
      now apply IH.
Qed.

Lemma rowOfDay_lastOfDay (rows : list ApiRow) (d : Z) (r : ApiRow) :
  rowOfDay rows d = Some r <-> lastOfDay rows d r.
Proof.
  split.
  - revert r. induction rows as [| y l IH]; intros r; [discriminate |].
    rewrite rowOfDay_cons. destruct (rowOfDay l d) as [r' |] eqn:E.
    + intros [= <-]. destruct (IH r' eq_refl) as (l1 & l2 & -> & Hd & Hl2).
      exists (y :: l1), l2. auto.
    + destruct (Z.eqb_spec (dayZ y) d) as [Hd | Hd]; [| discriminate].
      intros [= <-]. exists [], l. split; [reflexivity |]. split; [exact Hd |].
      now apply rowOfDay_None.
  - intros (l1 & l2 & -> & Hd & Hl2). induction l1 as [| y l1 IH].
    + cbn [app]. rewrite rowOfDay_cons.
      replace (rowOfDay l2 d) with (@None ApiRow)
        by (symmetry; now apply rowOfDay_None).
      now rewrite (proj2 (Z.eqb_eq _ _) Hd).
    + cbn [app]. now rewrite rowOfDay_cons, IH.
Qed.

Lemma strict_eq_trans (k k' x : number) :
  strict_eq k k' = true -> strict_eq k x = strict_eq k' x.
Proof.
  destruct k as [| | p |], k' as [| | q |]; try discriminate; try reflexivity.
  intros H. apply Qeq_bool_eq in H. destruct x as [| | y |]; try reflexivity.
  cbn [strict_eq].
  destruct (Qeq_bool q y) eqn:E.
  - apply Qeq_bool_iff. apply Qeq_bool_eq in E. now rewrite H.
  - apply not_true_is_false. intros F. apply Qeq_bool_eq in F.
    apply Qeq_bool_neq in E. apply E. now rewrite <- H.
Qed.

(** A key of the map is the day, between 1 and 31, of one of the rows. *)
Lemma buildByDay_key (l : list ApiRow) (m : DayMap) (k : number) (r : ApiRow) :
  fold_left
    (fun byDay r =>
       let day := rowDay r in
       if ge day one && le day (of_Z 31) then map_set byDay day r else byDay)
    l m k = Some r ->
  m k = Some r
  \/ exists r', In r' l /\ (1 <= dayZ r' <= 31)%Z
                /\ strict_eq k (of_Z (dayZ r')) = true.
Proof.
  revert m. induction l as [| y l IH]; intros m H; [now left |].
  cbn [fold_left] in H. apply IH in H.
  destruct H as [H | (r' & Hin & Hr')].
  - cbv zeta in H. rewrite rowDay_dayZ in H. unfold one in H.
    rewrite ge_of_Z, le_of_Z in H.
    destruct (Z.leb_spec 1 (dayZ y)) as [H1 | H1];
      [destruct (Z.leb_spec (dayZ y) 31) as [H2 | H2] |];
      cbn [andb] in H; try (now left).
    unfold map_set in H. destruct (strict_eq k (of_Z (dayZ y))) eqn:E;
      [| now left].
    right. exists y. split; [now left |]. split; [lia | exact E].
  - right. exists r'. split; [now right | exact Hr'].
Qed.

Lemma buildByDay_key_eq (l : list ApiRow) (m : DayMap) (k k' : number) :
  strict_eq k k' = true -> m k = m k' ->
  fold_left
    (fun byDay r =>
       let day := rowDay r in
       if ge day one && le day (of_Z 31) then map_set byDay day r else byDay)
    l m k
  = fold_left
    (fun byDay r =>
       let day := rowDay r in
       if ge day one && le day (of_Z 31) then map_set byDay day r else byDay)
    l m k'.
Proof.
  intros Hk. revert m. induction l as [| y l IH]; intros m Hm; [exact Hm |].
  cbn [fold_left]. apply IH. cbv zeta.
  destruct (_ && _); [| exact Hm].
  unfold map_set. now rewrite (@strict_eq_trans k k' _ Hk), Hm.
Qed.

(** X2.  The map [byDay] of the transformation: looking a day of the
    calendar up gives the last row of that day in the order of the
    input, and nothing when no row has that day; every key that holds
    a row is such a day between 1 and 31, so the rows of other days are
    never stored. *)
Theorem byDay_lookup (rows : list ApiRow) :
  let byDay := buildByDay (sortByDay rows) in
  (forall (d : Z) (r : ApiRow), (1 <= d <= 31)%Z -> lastOfDay rows d r ->
     map_get byDay (of_Z d) = Some r)
  /\ (forall d : Z, (1 <= d <= 31)%Z ->
        (forall r, In r rows -> dayZ r <> d) ->
        map_get byDay (of_Z d) = None)
  /\ (forall (k : number) (r : ApiRow), map_get byDay k = Some r ->
        exists d : Z, (1 <= d <= 31)%Z /\ strict_eq k (of_Z d) = true
                      /\ lastOfDay rows d r).
Proof.
  intros byDay. subst byDay. split; [| split].
  - intros d r Hd Hr. rewrite buildByDay_get by assumption.
    now apply rowOfDay_lastOfDay.
  - intros d Hd Hr. rewrite buildByDay_get by assumption.
    now apply rowOfDay_None.
  - intros k r H. pose proof H as H0. unfold map_get, buildByDay in H.
    apply buildByDay_key in H. destruct H as [H | (r' & _ & Hr' & Hk)];
      [discriminate |].
    exists (dayZ r'). split; [exact Hr' |]. split; [exact Hk |].
    apply rowOfDay_lastOfDay. rewrite <- buildByDay_get by assumption.
    rewrite <- H0. unfold map_get, buildByDay. symmetry.
    now apply buildByDay_key_eq.
Qed.

(** ** The daily amounts of a month *)

Lemma daysFrom_nth (d : Z) (n i : nat) :
  (i < n)%nat -> nth_error (daysFrom d n) i = Some (d + Z.of_nat i)%Z.
Proof.
  intros Hi. unfold daysFrom. rewrite nth_error_map, nth_error_seq.
  destruct (Nat.ltb_spec i n); [reflexivity | lia].
Qed.

Lemma dailyAmounts_nth (rows : list ApiRow) (key : ApiKey) (L d : Z) :
  (1 <= d <= L)%Z ->
  nth_error (dailyAmounts rows key L) (Z.to_nat (d - 1))
  = Some (dailyAmount rows key d).
Proof.
  intros Hd. unfold dailyAmounts.
  rewrite nth_error_map, daysFrom_nth by lia. cbn [option_map].
  do 2 f_equal. lia.
Qed.

(** X3.  [buildDaily], on the map of the rows and for a length of at
    most 31 days, gives one amount per day of the month: the parsed
    amount of the last row of that day, and 0 for a day without row.
    Its loop ends by its own test: more turns than 31 change nothing. *)
Theorem buildDaily_days (rows : list ApiRow) (key : ApiKey) (L : Z) :
  (0 <= L <= 31)%Z ->
  let byDay := buildByDay (sortByDay rows) in
  let daily := buildDaily byDay key (of_Z L) in
  List.length daily = Z.to_nat L
  /\ (forall (d : Z) (r : ApiRow), (1 <= d <= L)%Z -> lastOfDay rows d r ->
        nth_error daily (Z.to_nat (d - 1)) = Some (parsedAmount r key))
  /\ (forall d : Z, (1 <= d <= L)%Z ->
        (forall r, In r rows -> dayZ r <> d) ->
        nth_error daily (Z.to_nat (d - 1)) = Some zero)
  /\ forall fuel : nat, (31 <= fuel)%nat ->
       buildDaily_loop byDay key (of_Z L) fuel one = daily.
Proof.
  intros HL byDay daily. subst byDay daily.
  split; [| split; [| split]].
  - rewrite buildDaily_amounts by assumption. apply dailyAmounts_length.
  - intros d r Hd Hr. rewrite buildDaily_amounts, dailyAmounts_nth by assumption.
    unfold dailyAmount. apply rowOfDay_lastOfDay in Hr. now rewrite Hr.
  - intros d Hd Hr. rewrite buildDaily_amounts, dailyAmounts_nth by assumption.
    unfold dailyAmount. apply rowOfDay_None in Hr. now rewrite Hr.
  - intros fuel Hfuel. apply buildDaily_fuel; lia.
Qed.

Lemma buildDaily_days_witness :
  (0 <= 28 <= 31)%Z
  /\ let byDay := buildByDay (sortByDay rowsScenarioC) in
     let daily := buildDaily byDay K_current (of_Z 28) in
     List.length daily = Z.to_nat 28
     /\ (forall (d : Z) (r : ApiRow), (1 <= d <= 28)%Z ->
           lastOfDay rowsScenarioC d r ->
           nth_error daily (Z.to_nat (d - 1)) = Some (parsedAmount r K_current))
     /\ (forall d : Z, (1 <= d <= 28)%Z ->
           (forall r, In r rowsScenarioC -> dayZ r <> d) ->
           nth_error daily (Z.to_nat (d - 1)) = Some zero)
     /\ forall fuel : nat, (31 <= fuel)%nat ->
          buildDaily_loop byDay K_current (of_Z 28) fuel one = daily.
Proof.
  split; [lia |]. apply (@buildDaily_days rowsScenarioC K_current 28). lia.
Defined.

(** ** What the result depends on *)

Lemma transformRows_eta (rows : list ApiRow) :
  transformRows rows
  = mkTransformed (data (transformRows rows)) (meta (transformRows rows)).
Proof. now destruct (transformRows rows). Qed.

(** Two inputs with the same inferred lengths, the same inferred day
    and the same daily amounts have the same result. *)
Lemma transformRows_ext (rows rows' : list ApiRow) :
  monthLength currentKeys rows' = monthLength currentKeys rows ->
  monthLength recordKeys rows' = monthLength recordKeys rows ->
  todayInferred rows' = todayInferred rows ->
  (forall key L, dailyAmounts rows' key L = dailyAmounts rows key L) ->
  transformRows rows' = transformRows rows.
Proof.
  intros Hc Hr Ht Hd.
  rewrite (transformRows_eta rows), (transformRows_eta rows').
  rewrite !transformRows_points, !transformRows_meta.
  now rewrite Hc, Hr, Ht, !Hd.
Qed.

Lemma filter_filter_impl (A : Type) (P Q : A -> bool) (l : list A) :
  (forall a, P a = true -> Q a = true) ->
  filter P (filter Q l) = filter P l.
Proof.
  intros H. induction l as [| a l IH]; [reflexivity |].
  cbn [filter]. destruct (Q a) eqn:EQ; cbn [filter]; rewrite IH.
  - reflexivity.
  - destruct (P a) eqn:EP; [| reflexivity].
    rewrite (H a EP) in EQ. discriminate.
Qed.

Lemma maxDayOf_positive (P : ApiRow -> bool) (rows : list ApiRow) :
  (forall r, P r = true -> positiveDay r = true) ->
  maxDayOf P (filter positiveDay rows) = maxDayOf P rows.
Proof.
  intros H. unfold maxDayOf. now rewrite filter_filter_impl.
Qed.

Lemma dailyAmounts_positive (rows : list ApiRow) (key : ApiKey) (L : Z) :
  dailyAmounts (filter positiveDay rows) key L = dailyAmounts rows key L.
Proof.
  unfold dailyAmounts. apply map_ext_in. intros d Hd.
  unfold daysFrom in Hd. apply in_map_iff in Hd.
  destruct Hd as (i & <- & _).
  unfold dailyAmount, rowOfDay. rewrite filter_filter_impl; [reflexivity |].
  intros r Hr. apply Z.eqb_eq in Hr. unfold positiveDay.
  apply Z.ltb_lt. lia.
Qed.

(** X4.  A row whose day is not positive (a day that does not parse,
    0, a negative number) has no effect at all: as long as one row has
    a positive day, the result is the result of the input without those
    rows. *)
Theorem rows_without_positive_day_ignored (rows : list ApiRow) :
  (exists r, In r rows /\ positiveDay r = true) ->
  transformApiToNormalizedChart (Some (filter positiveDay rows))
  = transformApiToNormalizedChart (Some rows).
Proof.
  intros (r & Hin & Hr).
  rewrite !transform_nonempty.
  - apply transformRows_ext.
    + unfold monthLength. rewrite !maxDayOf_positive; [reflexivity | |];
        intros a Ha; [exact Ha |].
      unfold countsForLen in Ha. now apply andb_prop in Ha.
    + unfold monthLength. rewrite !maxDayOf_positive; [reflexivity | |];
        intros a Ha; [exact Ha |].
      unfold countsForLen in Ha. now apply andb_prop in Ha.
    + unfold todayInferred. rewrite !maxDayOf_positive; [reflexivity | |];
        intros a Ha; [exact Ha |].
      unfold countsForToday in Ha. now apply andb_prop in Ha.
    + apply dailyAmounts_positive.
  - intros ->. destruct Hin.
  - intros E. assert (Hf : In r (filter positiveDay rows))
      by (apply filter_In; now split).
    rewrite E in Hf. destruct Hf.
Qed.

Lemma rows_without_positive_day_ignored_witness :
  filter positiveDay [row "x" "9" "9" "9"; row "2" "5" "6" "7"; row "-3" "1" "1" "1"]
  = [row "2" "5" "6" "7"]
  /\ transformApiToNormalizedChart
       (Some (filter positiveDay
                [row "x" "9" "9" "9"; row "2" "5" "6" "7"; row "-3" "1" "1" "1"]))
     = transformApiToNormalizedChart
         (Some [row "x" "9" "9" "9"; row "2" "5" "6" "7"; row "-3" "1" "1" "1"]).
Proof.
  split; [vm_compute; reflexivity |].
  apply rows_without_positive_day_ignored.
  exists (row "2" "5" "6" "7"). split; [right; now left | vm_compute; reflexivity].
Defined.

Lemma dailyAmounts_no_day (rows : list ApiRow) (key : ApiKey) (L : Z) :
  (forall r, In r rows -> positiveDay r = false) ->
  dailyAmounts rows key L = repeat zero (Z.to_nat L).
Proof.
  intros H. unfold dailyAmounts, daysFrom. rewrite map_map.
  generalize 0%nat. induction (Z.to_nat L) as [| n IH]; intros s; [reflexivity |].
  cbn [seq map repeat]. rewrite IH. f_equal.
  unfold dailyAmount.
  replace (rowOfDay rows (1 + Z.of_nat s)) with (@None ApiRow); [reflexivity |].
  symmetry. apply rowOfDay_None. intros r Hr E.
  specialize (H r Hr). unfold positiveDay in H. apply Z.ltb_ge in H. lia.
Qed.

(** X5.  A non-empty input in which no row has a positive day is not
    treated as an empty input: the result has the 101 points, every
    value 0, for a month of 31 days at day 0, so that the current
    series stops after its first point. *)
Theorem no_positive_day_flat (rows : list ApiRow) :
  rows <> [] ->
  (forall r, In r rows -> positiveDay r = false) ->
  transformApiToNormalizedChart (Some rows)
  = mkTransformed
      (map (fun x => ChartRow.make x (if gt x zero then None else Some zero)
                       zero zero) percents)
      (mkMeta (of_Z 31) (of_Z 31) zero zero).
Proof.
  intros Hne H. rewrite transform_nonempty by assumption.
  rewrite transformRows_eta, transformRows_points, transformRows_meta.
  assert (Hlen : forall keys, monthLength keys rows = 31%Z).
  { intros keys. unfold monthLength. rewrite !maxDayOf_none; [reflexivity | exact H |].
    intros r Hr. unfold countsForLen. now rewrite (H r Hr). }
  assert (Ht : todayInferred rows = 0%Z).
  { unfold todayInferred. rewrite !maxDayOf_none; [reflexivity | exact H |].
    intros r Hr. unfold countsForToday. now rewrite (H r Hr). }
  rewrite !Hlen, Ht, !dailyAmounts_no_day by assumption.
  vm_compute. reflexivity.
Qed.

Lemma no_positive_day_flat_witness :
  [row "" "5" "6" "7"] <> []
  /\ (forall r, In r [row "" "5" "6" "7"] -> positiveDay r = false)
  /\ transformApiToNormalizedChart (Some [row "" "5" "6" "7"])
     = mkTransformed
         (map (fun x => ChartRow.make x (if gt x zero then None else Some zero)
                          zero zero) percents)
         (mkMeta (of_Z 31) (of_Z 31) zero zero).
Proof.
  assert (H : forall r, In r [row "" "5" "6" "7"] -> positiveDay r = false).
  { intros r [<- | []]. vm_compute. reflexivity. }
  split; [discriminate |]. split; [exact H |].
  apply no_positive_day_flat; [discriminate | exact H].
Defined.

(** ** The order of the rows *)

Lemma rowOfDay_unique (rows : list ApiRow) (r : ApiRow) :
  NoDup (map dayZ rows) -> In r rows -> rowOfDay rows (dayZ r) = Some r.
Proof.
  induction rows as [| y l IH]; [intros _ [] |].
  cbn [map]. intros Hnd Hin. inversion_clear Hnd as [| ? ? Hy Hl].
  rewrite rowOfDay_cons. destruct Hin as [-> | Hin].
  - replace (rowOfDay l (dayZ r)) with (@None ApiRow).
    + now rewrite Z.eqb_refl.
    + symmetry. apply rowOfDay_None. intros r' Hr' E. apply Hy.
      rewrite <- E. now apply in_map.
  - now rewrite IH.
Qed.

Lemma rowOfDay_perm (rows rows' : list ApiRow) (d : Z) :
  Permutation rows rows' -> NoDup (map dayZ rows) ->
  rowOfDay rows' d = rowOfDay rows d.
Proof.
  intros Hp Hnd.
  assert (Hnd' : NoDup (map dayZ rows'))
    by (eapply Permutation_NoDup; [apply Permutation_map; exact Hp | exact Hnd]).
  destruct (rowOfDay rows d) as [r |] eqn:E.
  - pose proof (rowOfDay_In _ _ E) as Hin.
    apply rowOfDay_lastOfDay in E. destruct E as (l1 & l2 & _ & Hd & _).
    rewrite <- Hd. apply rowOfDay_unique; [exact Hnd' |].
    eapply Permutation_in; eauto.
  - apply rowOfDay_None. intros r Hr.
    apply (proj1 (rowOfDay_None rows d) E).
    eapply Permutation_in; [symmetry; exact Hp | exact Hr].
Qed.

(** X6.  When no two rows have the same day, the order of the rows in
    the response does not matter: every rearrangement of the input has
    the same result. *)
Theorem row_order_irrelevant (rows rows' : list ApiRow) :
  Permutation rows rows' ->
  NoDup (map dayZ rows) ->
  transformApiToNormalizedChart (Some rows')
  = transformApiToNormalizedChart (Some rows).
Proof.
  intros Hp Hnd. destruct rows as [| r rows].
  - apply Permutation_nil in Hp. now subst.
  - rewrite !transform_nonempty; [| discriminate |].
    + apply transformRows_ext.
      * symmetry. now apply monthLength_perm.
      * symmetry. now apply monthLength_perm.
      * symmetry. now apply todayInferred_perm.
      * intros key L. unfold dailyAmounts. apply map_ext. intros d.
        unfold dailyAmount. now rewrite (rowOfDay_perm d Hp Hnd).
    + intros ->. apply Permutation_sym, Permutation_nil in Hp. discriminate.
Qed.

Lemma row_order_irrelevant_witness :
  transformApiToNormalizedChart
    (Some [row "3" "30" "3" "9"; row "1" "10" "1" "7"; row "2" "nan" "2" "8"])
  = transformApiToNormalizedChart
      (Some [row "1" "10" "1" "7"; row "2" "nan" "2" "8"; row "3" "30" "3" "9"]).
Proof.
  apply row_order_irrelevant.
  - apply Permutation_sym. apply (@Permutation_cons_append ApiRow
      [row "1" "10" "1" "7"; row "2" "nan" "2" "8"] (row "3" "30" "3" "9")).
  - vm_compute. repeat constructor; cbn [In]; lia.
Defined.

(** With two rows of one day the order does matter: the later row is
    the one that counts. *)
Example row_order_duplicate_day :
  transformApiToNormalizedChart (Some [row "1" "10" "0" "0"; row "1" "20" "0" "0"])
  <> transformApiToNormalizedChart (Some [row "1" "20" "0" "0"; row "1" "10" "0" "0"]).
Proof.
  intros H. apply (f_equal (fun t => nth_error (data t) 1)) in H.
  vm_compute in H. discriminate H.
Qed.

(** ** The meta data *)

(** The progress of today for every length and every day the program
    can reach. *)
Lemma progressPercent_table :
  forallb
    (fun len =>
       forallb
         (fun t =>
            let c := progressPercent t len in
            (0 <=? c)%Z && (c <=? 100)%Z
            && Bool.eqb (c =? 0)%Z (t =? 0)%Z
            && Bool.eqb (c =? 100)%Z (t =? len)%Z)
         (daysFrom 0 (Z.to_nat (len + 1))))
    (daysFrom 28 4)
  = true.
Proof. vm_compute. reflexivity. Qed.

Lemma progressPercent_range (today len : Z) :
  (28 <= len <= 31)%Z -> (0 <= today <= len)%Z ->
  (0 <= progressPercent today len <= 100)%Z
  /\ (progressPercent today len = 0 <-> today = 0)%Z
  /\ (progressPercent today len = 100 <-> today = len)%Z.
Proof.
  intros Hl Ht. pose proof progressPercent_table as T.
  rewrite forallb_forall in T.
  specialize (T len (@daysFrom_In 28 4 len ltac:(cbn; lia))).
  rewrite forallb_forall in T.
  specialize (T today (@daysFrom_In 0 (Z.to_nat (len + 1)) today ltac:(lia))).
  cbv zeta in T. apply andb_prop in T. destruct T as [T T4].
  apply andb_prop in T. destruct T as [T T3].
  apply andb_prop in T. destruct T as [T1 T2].
  apply Z.leb_le in T1, T2. apply eqb_prop in T3, T4.
  split; [lia |]. split.
  - rewrite <- !Z.eqb_eq. now rewrite T3.
  - rewrite <- !Z.eqb_eq. now rewrite T4.
Qed.

(** X7.  The meta data of a non-empty input are integers: both month
    lengths lie between 28 and 31, today between 0 and the length of
    the current month, its progress between 0 and 100; the progress is
    0 exactly when today is day 0, and 100 exactly when today is the
    last day of the month. *)
Theorem meta_ranges (rows : list ApiRow) :
  rows <> [] ->
  exists len rlen today progress : Z,
    meta (transformApiToNormalizedChart (Some rows))
    = mkMeta (of_Z len) (of_Z rlen) (of_Z today) (of_Z progress)
    /\ (28 <= len <= 31)%Z /\ (28 <= rlen <= 31)%Z
    /\ (0 <= today <= len)%Z /\ (0 <= progress <= 100)%Z
    /\ (progress = 0 <-> today = 0)%Z
    /\ (progress = 100 <-> today = len)%Z.
Proof.
  intros Hne. rewrite transform_nonempty, transformRows_meta by assumption.
  cbv zeta.
  pose proof (monthLength_range currentKeys rows) as Hl.
  pose proof (monthLength_range recordKeys rows) as Hr.
  pose proof (todayInferred_nonneg rows) as Ht.
  set (len := monthLength currentKeys rows) in *.
  set (today := Z.min (todayInferred rows) len).
  assert (Hrange : (0 <= today <= len)%Z) by (subst today; lia).
  destruct (progressPercent_range Hl Hrange) as (H1 & H2 & H3).
  exists len, (monthLength recordKeys rows), today, (progressPercent today len).
  split; [reflexivity |]. tauto.
Qed.

Lemma meta_ranges_witness :
  meta (transformApiToNormalizedChart (Some rowsScenarioC))
  = mkMeta (of_Z 29) (of_Z 28) (of_Z 28) (of_Z 97)
  /\ exists len rlen today progress : Z,
    meta (transformApiToNormalizedChart (Some rowsScenarioC))
    = mkMeta (of_Z len) (of_Z rlen) (of_Z today) (of_Z progress)
    /\ (28 <= len <= 31)%Z /\ (28 <= rlen <= 31)%Z
    /\ (0 <= today <= len)%Z /\ (0 <= progress <= 100)%Z
    /\ (progress = 0 <-> today = 0)%Z
    /\ (progress = 100 <-> today = len)%Z.
Proof.
  split; [vm_compute; reflexivity |].
  apply meta_ranges. discriminate.
Defined.

(** X8.  When some row with a positive day has, for one of the keys, a
    text that is neither empty nor ["nan"], the length of the month is
    the greatest day of such a row, brought into the interval from 28
    to 31. *)
Theorem inferLen_qualifying_row (rows : list ApiRow) (keys : list ApiKey)
    (r : ApiRow) :
  In r rows -> countsForLen keys r = true ->
  exists top : ApiRow,
    In top rows /\ countsForLen keys top = true
    /\ (forall r', In r' rows -> countsForLen keys r' = true ->
          (dayZ r' <= dayZ top)%Z)
    /\ inferLen (sortByDay rows) keys = of_Z (Z.min (Z.max (dayZ top) 28) 31).
Proof.
  intros Hin Hr.
  pose proof (maxDayOf_upper (countsForLen keys) rows r Hin Hr) as Hup.
  assert (Hpos : (0 < dayZ r)%Z).
  { unfold countsForLen in Hr. apply andb_prop in Hr. destruct Hr as [Hr _].
    now apply Z.ltb_lt in Hr. }
  destruct (maxDayOf_attained (countsForLen keys) rows)
    as [E | (top & Htin & Htop & Hd)]; [lia |].
  exists top. split; [exact Htin |]. split; [exact Htop |]. split.
  - intros r' Hr' Hc. rewrite Hd. now apply maxDayOf_upper.
  - rewrite inferLen_Z, (monthLength_perm _ (sortByDay_perm rows)).
    unfold monthLength. rewrite <- Hd.
    replace (dayZ top =? 0)%Z with false by (symmetry; apply Z.eqb_neq; lia).
    reflexivity.
Qed.

Lemma inferLen_qualifying_row_witness :
  exists top : ApiRow,
    In top rowsScenarioC /\ countsForLen recordKeys top = true
    /\ (forall r', In r' rowsScenarioC -> countsForLen recordKeys r' = true ->
          (dayZ r' <= dayZ top)%Z)
    /\ inferLen (sortByDay rowsScenarioC) recordKeys
       = of_Z (Z.min (Z.max (dayZ top) 28) 31).
Proof.
  apply (@inferLen_qualifying_row rowsScenarioC recordKeys (row "1" "100" "7" "50")).
  - now left.
  - vm_compute. reflexivity.
Defined.

(** ** Running totals and the interpolation between them *)











(** * Further properties of the parsers *)

(** ** The decimal text of an integer *)

Lemma digitsValue_acc (u : Decimal.uint) (acc : positive) :
  fold_left (fun acc c => (10 * acc + digitValue c)%Z)
    (list_ascii_of_string (NilEmpty.string_of_uint u)) (Zpos acc)
  = Zpos (Pos.of_uint_acc u acc).
Proof.
  revert acc. induction u; intros acc; cbn [NilEmpty.string_of_uint list_ascii_of_string fold_left Pos.of_uint_acc];
    try reflexivity; rewrite <- IHu; f_equal; vm_compute digitValue; lia.
Qed.

Lemma digitsValue_uint (u : Decimal.uint) :
  digitsValue (list_ascii_of_string (NilEmpty.string_of_uint u))
  = Z.of_N (N.of_uint u).
Proof.
  unfold digitsValue, N.of_uint.
  induction u; cbn [NilEmpty.string_of_uint list_ascii_of_string fold_left Pos.of_uint];
    try reflexivity; try exact IHu;
    cbn [Z.of_N]; rewrite <- digitsValue_acc; f_equal.
Qed.

Lemma isDigit_uint (u : Decimal.uint) :
  forallb isDigit (list_ascii_of_string (NilEmpty.string_of_uint u)) = true.
Proof.
  induction u; cbn [NilEmpty.string_of_uint list_ascii_of_string forallb];
    try reflexivity; rewrite IHu; reflexivity.
Qed.

Lemma digits_isDigit (n : Z) :
  forallb isDigit (list_ascii_of_string (digits n)) = true.
Proof.
  unfold digits, NilZero.string_of_uint.
  destruct (N.to_uint (Z.to_N n)) eqn:E; try reflexivity;
    rewrite <- E; try apply isDigit_uint.
Qed.

Lemma digits_value (n : Z) :
  (0 <= n)%Z -> digitsValue (list_ascii_of_string (digits n)) = n.
Proof.
  intros Hn. unfold digits, NilZero.string_of_uint.
  pose proof (DecimalN.Unsigned.of_to (Z.to_N n)) as E.
  destruct (N.to_uint (Z.to_N n)) eqn:U.
  - cbn in E. change (0 = n)%Z. lia.
  - rewrite digitsValue_uint, E. lia.
  - rewrite digitsValue_uint, E. lia.
  - rewrite digitsValue_uint, E. lia.
  - rewrite digitsValue_uint, E. lia.
  - rewrite digitsValue_uint, E. lia.
  - rewrite digitsValue_uint, E. lia.
  - rewrite digitsValue_uint, E. lia.
  - rewrite digitsValue_uint, E. lia.
  - rewrite digitsValue_uint, E. lia.
  - rewrite digitsValue_uint, E. lia.
Qed.

Lemma digits_nonempty (n : Z) : list_ascii_of_string (digits n) <> [].
Proof.
  unfold digits, NilZero.string_of_uint.
  destruct (N.to_uint (Z.to_N n)); discriminate.
Qed.

Lemma spanDigits_app (ds rest : list ascii) :
  forallb isDigit ds = true ->
  match rest with c :: _ => isDigit c = false | [] => True end ->
  spanDigits (ds ++ rest) = (ds, rest).
Proof.
  intros Hds Hrest. induction ds as [| c ds IH].
  - destruct rest as [| c r]; [reflexivity |]. cbn [app spanDigits]. now rewrite Hrest.
  - cbn [forallb] in Hds. apply andb_prop in Hds. destruct Hds as [Hc Hds].
    cbn [app spanDigits]. rewrite Hc, (IH Hds). reflexivity.
Qed.

Lemma isDigit_not_white (c : ascii) : isDigit c = true -> isWhiteSpace c = false.
Proof. destruct c as [[] [] [] [] [] [] [] []]; vm_compute; congruence. Qed.

Lemma isDigit_not_sign (c : ascii) :
  isDigit c = true -> Ascii.eqb c "+" = false /\ Ascii.eqb c "-" = false.
Proof. destruct c as [[] [] [] [] [] [] [] []]; vm_compute; intuition congruence. Qed.

Lemma number_value_small (z : Z) :
  (Z.abs z < 2 ^ 1024 - 2 ^ 970)%Z -> number_value (inject_Z z) = of_Z z.
Proof.
  intros H. unfold number_value.
  replace (Qle_bool overflow_threshold (Qabs (inject_Z z))) with false.
  - apply of_Q_inject_Z.
  - symmetry. apply not_true_is_false. intros E. apply Qle_bool_iff in E.
    unfold overflow_threshold in E.
    assert (Ha : Qabs (inject_Z z) = inject_Z (Z.abs z)) by reflexivity.
    rewrite Ha, <- Zle_Qle in E. lia.
Qed.


Lemma lower_digit (c : ascii) : isDigit c = true -> lower c = c.
Proof. destruct c as [[] [] [] [] [] [] [] []]; vm_compute; congruence. Qed.

Lemma isDigit_not_radix (c : ascii) :
  isDigit c = true ->
  (Ascii.eqb c "x" || Ascii.eqb c "X")%char = false
  /\ (Ascii.eqb c "o" || Ascii.eqb c "O")%char = false
  /\ (Ascii.eqb c "b" || Ascii.eqb c "B")%char = false.
Proof. destruct c as [[] [] [] [] [] [] [] []]; vm_compute; intuition congruence. Qed.

Lemma map_lower_digits (l : list ascii) :
  forallb isDigit l = true -> map lower l = l.
Proof.
  induction l as [| c l IH]; [reflexivity |]. cbn [forallb map].
  intros H. apply andb_prop in H. destruct H as [Hc Hl].
  now rewrite (lower_digit _ Hc), IH.
Qed.

Lemma digits_no_white (l : list ascii) :
  forallb isDigit l = true ->
  forallb (fun c => negb (isWhiteSpace c)) l = true.
Proof.
  rewrite !forallb_forall. intros H c Hc.
  now rewrite (isDigit_not_white _ (H c Hc)).
Qed.

Lemma number_value_eq (p q : Q) : (p == q)%Q -> number_value p = number_value q.
Proof.
  intros E. unfold number_value, Qlt_bool.
  assert (E1 : Qle_bool overflow_threshold (Qabs p)
               = Qle_bool overflow_threshold (Qabs q)) by now rewrite E.
  assert (E2 : Qle_bool 0 p = Qle_bool 0 q) by now rewrite E.
  rewrite E1, E2. clear E1 E2.
  destruct (Qle_bool overflow_threshold (Qabs q));
    [reflexivity | now apply of_Q_eq].
Qed.

Lemma Number_digits (n : Z) :
  (0 <= n < 2 ^ 1024 - 2 ^ 970)%Z -> Number (digits n) = of_Z n.
Proof.
  intros Hn. unfold Number.
  pose proof (digits_isDigit n) as Hd. pose proof (digits_nonempty n) as Hne.
  pose proof (digits_value (proj1 Hn)) as Hv.
  set (l := list_ascii_of_string (digits n)) in *.
  assert (Ht : trimEnd_l (trimStart_l l) = l).
  { pose proof (@trim_l_around [] l [] eq_refl eq_refl (digits_no_white _ Hd)) as T.
    cbn [app] in T. now rewrite app_nil_r in T. }
  rewrite Ht. destruct l as [| c ds] eqn:E; [congruence |].
  rewrite <- E in *. 
  assert (Hc : isDigit c = true).
  { rewrite E in Hd. cbn [forallb] in Hd. now apply andb_prop in Hd. }
  assert (Hnd : nonDecimalLiteral l = None).
  { rewrite E. destruct ds as [| p [| d ds']]; try reflexivity.
    cbn [nonDecimalLiteral].
    assert (Hp : isDigit p = true).
    { rewrite E in Hd. cbn [forallb] in Hd.
      apply andb_prop in Hd. destruct Hd as [_ Hd].
      now apply andb_prop in Hd. }
    destruct (isDigit_not_radix _ Hp) as (-> & -> & ->).
    now destruct (Ascii.eqb c "0"). }
  rewrite Hnd. unfold strDecimalLiteral.
  assert (Hs : spanSign l = (1%Z, l)).
  { rewrite E. unfold spanSign. now destruct (isDigit_not_sign _ Hc) as [-> ->]. }
  rewrite Hs.
  destruct (list_eq_dec ascii_dec l (list_ascii_of_string "Infinity")) as [F | _].
  { rewrite F in Hd. discriminate Hd. }
  unfold unsignedDecimal.
  rewrite <- (app_nil_r l) at 1. rewrite spanDigits_app by (auto; exact I).
  rewrite app_nil_r. rewrite E at 1. rewrite <- E.
  cbn [exponentPart List.length]. rewrite Hv.
  rewrite (@number_value_eq _ (inject_Z n)).
  - apply number_value_small. lia.
  - change (inject_Z 10 ^ (0 - Z.of_nat 0))%Q with 1%Q.
    change (inject_Z 1) with 1%Q. ring.
Qed.

Lemma isSentinel_digits (n : Z) : isSentinel (digits n) = false.
Proof.
  apply not_true_is_false. intros H. apply isSentinel_iff in H.
  pose proof (digits_isDigit n) as Hd. pose proof (digits_nonempty n) as Hne.
  cbn [sentinels In] in H.
  destruct H as [H | [H | [H | [H | []]]]]; rewrite <- H in *;
    try discriminate Hd. now apply Hne.
Qed.

Lemma toNumber_digits (pre post : string) (n : Z) :
  blank pre = true -> blank post = true ->
  (0 <= n < 2 ^ 1024 - 2 ^ 970)%Z ->
  toNumber (VString (pre ++ digits n ++ post)) = of_Z n.
Proof.
  intros Hpre Hpost Hn. cbn [toNumber].
  pose proof (digits_isDigit n) as Hd.
  rewrite trim_around by (auto using digits_no_white).
  assert (El : toLowerCase (digits n) = digits n).
  { unfold toLowerCase. rewrite map_lower_digits by exact Hd.
    apply string_of_list_ascii_of_string. }
  rewrite El, isSentinel_digits, Number_digits by exact Hn. reflexivity.
Qed.







(** ** [parseDay] and [toNumber] on the text of an integer *)

(** X12.  Apart from the three numbers that are not finite, [parseDay]
    gives an integer for every value: never [NaN], never an infinity,
    never a fraction. *)
Theorem parseDay_integer (v : value) :
  v <> VNumber NaN -> v <> VNumber PosInf -> v <> VNumber NegInf ->
  exists z : Z, parseDay v = of_Z z.
Proof.
  intros H1 H2 H3. destruct v as [| | b | n | s |];
    try (exists 0%Z; reflexivity).
  - destruct n as [| | q |]; try congruence.
    exists (Qfloor q). reflexivity.
  - apply parseDay_string.
Qed.

Lemma parseDay_integer_witness :
  parseDay (VString " 12.7 days") = of_Z 12
  /\ exists z : Z, parseDay (VString " 12.7 days") = of_Z z.
Proof.
  split; [vm_compute; reflexivity |].
  apply parseDay_integer; discriminate.
Defined.





(** * The page around the chart *)

(** ** The values of the points are finite *)




Lemma transformRows_pointAt (rows : list ApiRow) :
  data (transformRows rows) = map (pointAt rows) (daysFrom 0 101).
Proof.
  rewrite transformRows_points, percents_daysFrom, map_map.
  apply map_ext. intros i. unfold chartPoint, pointAt, seriesAt.
  now rewrite gt_of_Z.
Qed.

Lemma pointAt_In (rows : list ApiRow) (pt : ChartRow.t) :
  In pt (data (transformRows rows))
  <-> exists i : Z, (0 <= i <= 100)%Z /\ pt = pointAt rows i.
Proof.
  rewrite transformRows_pointAt, in_map_iff. split.
  - intros (i & <- & Hi). exists i. split; [| reflexivity].
    unfold daysFrom in Hi. apply in_map_iff in Hi.
    destruct Hi as (n & <- & Hn). apply in_seq in Hn. lia.
  - intros (i & Hi & ->). exists i. split; [reflexivity |].
    apply daysFrom_In. cbn. lia.
Qed.




(** ** The greatest of finite numbers *)





(** ** The labels *)



Lemma chartLabels_cons (first : ChartRow.t) (rest : list ChartRow.t)
    (currentProgressX : number) :
  let data := first :: rest in
  let todayPoint := nullish (findX data currentProgressX) first in
  let finalRecord :=
    match findX data (of_Z 100) with
    | Some d => ChartRow.record d
    | None => zero
    end in
  chartLabels data currentProgressX
  = mkLabels
      (mul (Math_max (flat_map pointValues data)) (Fin (11 # 10)))
      (labelOf (nullish (ChartRow.current todayPoint) zero))
      (labelOf (ChartRow.lastYear todayPoint))
      (labelOf (ChartRow.record todayPoint))
      (labelOf (Math_max [sub finalRecord (ChartRow.record todayPoint); zero])).
Proof. reflexivity. Qed.


Lemma pointAt_today (rows : list ApiRow) :
  let len := monthLength currentKeys rows in
  let today := Z.min (todayInferred rows) len in
  let c := progressPercent today len in
  (0 <= c <= 100)%Z
  /\ ChartRow.current (pointAt rows c)
     = Some (seriesAt (dailyAmounts rows K_current len) len (of_Z c)).
Proof.
  intros len today c.
  pose proof (monthLength_range currentKeys rows) as Hl.
  pose proof (todayInferred_nonneg rows) as Ht.
  assert (Hrange : (0 <= today <= len)%Z) by (subst today len; lia).
  destruct (@progressPercent_range today len Hl Hrange) as (Hc & _).
  split; [exact Hc |]. unfold pointAt. cbn [ChartRow.current].
  fold len. fold today. fold c. now rewrite Z.ltb_irrefl.
Qed.







(** ** The dots *)

Lemma pointAt_beyond (rows : list ApiRow) (j : Z) :
  let len := monthLength currentKeys rows in
  let c := progressPercent (Z.min (todayInferred rows) len) len in
  (c < j)%Z -> ChartRow.current (pointAt rows j) = None.
Proof.
  intros len c Hj. unfold pointAt. cbn [ChartRow.current].
  fold len. fold c. now rewrite (proj2 (Z.ltb_lt _ _) Hj).
Qed.

(** A dot is drawn only at the point the source calls the last one of
    the series. *)
Lemma createCustomDot_x (isMobile dotsVisible : bool) (cpx : number)
    (key : DataKey) (cx cy : number) (pt : ChartRow.t) (dot : Dot) :
  createCustomDot isMobile dotsVisible cpx key cx cy pt = Some dot ->
  strict_eq (ChartRow.x pt)
    (match key with DK_current => cpx | _ => of_Z 100 end) = true
  /\ dotsVisible = true
  /\ exists v : number,
       payloadValue key pt = Some v /\ strict_eq v zero = false
       /\ dot = mkDot cx cy (circleRadius (lineConfig isMobile key))
                  (color (lineConfig isMobile key))
                  (fontSize (lineConfig isMobile key)) DOT_GROW_MS
                  (formatBubble v).
Proof.
  unfold createCustomDot. cbv zeta.
  destruct key;
    (destruct (strict_eq (ChartRow.x pt) _) eqn:Ex; cbn [negb andb];
     [| discriminate]);
    (destruct (payloadValue _ pt) as [v |] eqn:Ev; [| discriminate]);
    (destruct (strict_eq v zero) eqn:E0; [discriminate |]);
    (destruct dotsVisible; cbn [negb]; [| discriminate]);
    intros [= <-]; (split; [reflexivity |]); (split; [reflexivity |]);
    exists v; auto.
Qed.

(** X17.  On the chart of a non-empty input, a dot of a series is drawn
    at one point at most: for the current month the point of today's
    progress, for the two other series the point [x = 100].  It shows
    [formatBubble] of the value of the series there, a value that is
    not 0, and no point further to the right has a value of that
    series. *)
Theorem createCustomDot_last_point (rows : list ApiRow)
    (isMobile dotsVisible : bool) (key : DataKey) (cx cy : number)
    (pt : ChartRow.t) (dot : Dot) :
  rows <> [] ->
  let out := transformApiToNormalizedChart (Some rows) in
  let dotAt := createCustomDot isMobile dotsVisible
                 (currentProgressX (meta out)) key cx cy in
  In pt (data out) ->
  dotAt pt = Some dot ->
  ChartRow.x pt
  = match key with
    | DK_current => currentProgressX (meta out)
    | _ => of_Z 100
    end
  /\ (exists v : number,
        payloadValue key pt = Some v /\ v <> zero
        /\ dot_text dot = formatBubble v)
  /\ (forall pt', In pt' (data out) ->
        gt (ChartRow.x pt') (ChartRow.x pt) = true ->
        payloadValue key pt' = None)
  /\ (forall pt' dot', In pt' (data out) -> dotAt pt' = Some dot' -> pt' = pt).
Proof.
  intros Hne out dotAt. subst out dotAt.
  rewrite transform_nonempty by assumption.
  rewrite transformRows_meta. cbv zeta. cbn [currentProgressX].
  destruct (pointAt_today rows) as (Hc & _).
  pose proof (pointAt_beyond rows) as Hbeyond. cbv zeta in Hbeyond.
  set (len := monthLength currentKeys rows) in *.
  set (c := progressPercent (Z.min (todayInferred rows) len) len) in *.
  intros Hpt Hdot. apply pointAt_In in Hpt. destruct Hpt as (i & Hi & ->).
  apply createCustomDot_x in Hdot. destruct Hdot as (Hx & _ & v & Hv & H0 & ->).
  assert (Hkey : forall j, (0 <= j <= 100)%Z ->
            strict_eq (ChartRow.x (pointAt rows j))
              (match key with DK_current => of_Z c | _ => of_Z 100 end) = true ->
            j = match key with DK_current => c | _ => 100%Z end).
  { intros j Hj H. change (ChartRow.x (pointAt rows j)) with (of_Z j) in H.
    destruct key; rewrite strict_eq_of_Z in H; now apply Z.eqb_eq in H. }
  pose proof (Hkey i Hi Hx) as Ei.
  split; [| split; [| split]].
  - change (ChartRow.x (pointAt rows i)) with (of_Z i). rewrite Ei.
    now destruct key.
  - exists v. split; [exact Hv |]. split; [| reflexivity].
    intros ->. vm_compute in H0. discriminate H0.
  - intros pt' Hpt' Hgt. apply pointAt_In in Hpt'.
    destruct Hpt' as (j & Hj & ->).
    change (gt (of_Z j) (of_Z i) = true) in Hgt.
    rewrite gt_of_Z in Hgt. apply Z.ltb_lt in Hgt.
    destruct key; try lia.
    cbn [payloadValue]. apply Hbeyond. lia.
  - intros pt' dot' Hpt' Hdot'. apply pointAt_In in Hpt'.
    destruct Hpt' as (j & Hj & ->).
    apply createCustomDot_x in Hdot'. destruct Hdot' as (Hx' & _).
    rewrite (Hkey j Hj Hx'), Ei. reflexivity.
Qed.

Lemma createCustomDot_last_point_witness :
  let out := transformApiToNormalizedChart (Some rowsScenarioC) in
  let dotAt := createCustomDot false true
                 (currentProgressX (meta out)) DK_current (of_Z 10) (of_Z 20) in
  let pt := pointAt rowsScenarioC 97 in
  let dot := mkDot (of_Z 10) (of_Z 20) (of_Z 65) "#ffd200" (of_Z 32)
               (of_Z 950) "0.1M" in
  dotAt pt = Some dot
  /\ ChartRow.x pt = currentProgressX (meta out)
  /\ (exists v : number,
        payloadValue DK_current pt = Some v /\ v <> zero
        /\ dot_text dot = formatBubble v)
  /\ (forall pt', In pt' (data out) ->
        gt (ChartRow.x pt') (ChartRow.x pt) = true ->
        payloadValue DK_current pt' = None)
  /\ (forall pt' dot', In pt' (data out) -> dotAt pt' = Some dot' -> pt' = pt).
Proof.
  assert (H : createCustomDot false true
                (currentProgressX
                   (meta (transformApiToNormalizedChart (Some rowsScenarioC))))
                DK_current (of_Z 10) (of_Z 20) (pointAt rowsScenarioC 97)
              = Some (mkDot (of_Z 10) (of_Z 20) (of_Z 65) "#ffd200" (of_Z 32)
                        (of_Z 950) "0.1M"))
    by (vm_compute; reflexivity).
  split; [exact H |].
  apply (@createCustomDot_last_point rowsScenarioC false true DK_current
           (of_Z 10) (of_Z 20) (pointAt rowsScenarioC 97)
           (mkDot (of_Z 10) (of_Z 20) (of_Z 65) "#ffd200" (of_Z 32)
              (of_Z 950) "0.1M")).
  - discriminate.
  - change (transformApiToNormalizedChart (Some rowsScenarioC))
      with (transformRows rowsScenarioC).
    apply pointAt_In. exists 97%Z. split; [lia | reflexivity].
  - exact H.
Defined.

(** ** Requests that fail *)

(** Without data, and with the one point that replaces the data after
    a failure, every label is ["0M"] and the axis ends at 0, whatever
    the progress of today in the meta data is. *)
Lemma chartLabels_fallback (currentProgressX : number) :
  chartLabels [] currentProgressX = mkLabels zero "0M" "0M" "0M" "0M"
  /\ chartLabels [ChartRow.make zero (Some zero) zero zero] currentProgressX
     = mkLabels zero "0M" "0M" "0M" "0M".
Proof.
  split; [reflexivity |].
  rewrite chartLabels_cons. cbv zeta.
  assert (F : forall x, nullish (findX [ChartRow.make zero (Some zero) zero zero] x)
                          (ChartRow.make zero (Some zero) zero zero)
                        = ChartRow.make zero (Some zero) zero zero).
  { intros x. unfold findX. cbn [find ChartRow.x].
    now destruct (strict_eq zero x). }
  rewrite F.
  assert (G : match findX [ChartRow.make zero (Some zero) zero zero] (of_Z 100) with
              | Some d => ChartRow.record d
              | None => zero
              end = zero) by reflexivity.
  rewrite G. vm_compute. reflexivity.
Qed.

(** X18.  A request that fails (a response that is not [ok], or a
    rejection other than an abort) leaves the page without data to
    show: whatever the state was, the cards all read ["0M"], the axis
    ends at 0, the data are not ready, an error text is set and the
    meta data of the last success are kept. *)
Theorem loadData_failure_labels (st : PageState) (outcome : FetchOutcome) :
  isFailure outcome = true ->
  let st' := fst (loadData st outcome) in
  chartLabels (st_data st') (currentProgressX (st_meta st'))
  = mkLabels zero "0M" "0M" "0M" "0M"
  /\ st_dataReady st' = false
  /\ st_loading st' = false
  /\ st_error st' <> None
  /\ st_meta st' = st_meta st.
Proof.
  intros Hf st'. subst st'.
  destruct outcome as [status | json | | message]; try discriminate;
    cbn [loadData fst st_data st_meta st_dataReady st_loading st_error];
    (split; [apply chartLabels_fallback |]);
    repeat split; discriminate.
Qed.

Lemma loadData_failure_labels_witness :
  let st := fst (loadData initialState (Loaded (Some rowsScenarioC))) in
  let st' := fst (loadData st (HttpError (of_Z 502))) in
  st_error st' = Some "API error: 502"
  /\ chartLabels (st_data st') (currentProgressX (st_meta st'))
     = mkLabels zero "0M" "0M" "0M" "0M"
  /\ st_dataReady st' = false
  /\ st_loading st' = false
  /\ st_error st' <> None
  /\ st_meta st' = st_meta st.
Proof.
  split; [vm_compute; reflexivity |].
  apply (@loadData_failure_labels
           (fst (loadData initialState (Loaded (Some rowsScenarioC))))
           (HttpError (of_Z 502))).
  reflexivity.
Defined.




Lemma loadAll_reloads_example :
  snd (loadAll initialState
         [HttpError (of_Z 500); Loaded None; Crashed None;
          HttpError (of_Z 502); Crashed (Some "Failed to fetch")])
  = 3%nat.
Proof. vm_compute. reflexivity. Qed.

(** ** The shift of the pixels *)

Lemma rand_floor (u : number) (q : Q) :
  represents u q -> rand u = of_Z (Qfloor (q * 9) - 4).
Proof.
  intros Hu. unfold rand.
  change (add (mul PIXEL_SHIFT_MAX (of_Z 2)) one) with (of_Z 9).
  rewrite (represents_floor (represents_mul Hu (represents_of_Z 9))).
  unfold PIXEL_SHIFT_MAX. rewrite sub_of_Z. reflexivity.
Qed.

(** X20.  For a value of [Math.random()], a number from 0 (included)
    to 1 (excluded), [rand] is a whole number of pixels from
    [-PIXEL_SHIFT_MAX] to [PIXEL_SHIFT_MAX], that is from -4 to 4; and
    each of these nine shifts is the result for some such value. *)
Theorem rand_range :
  (forall (u : number) (q : Q),
      represents u q -> (0 <= q)%Q -> (q < 1)%Q ->
      exists z : Z, rand u = of_Z z /\ (-4 <= z <= 4)%Z)
  /\ (forall z : Z, (-4 <= z <= 4)%Z ->
        exists (u : number) (q : Q),
          represents u q /\ (0 <= q)%Q /\ (q < 1)%Q /\ rand u = of_Z z).
Proof.
  split.
  - intros u q Hu H0 H1. exists (Qfloor (q * 9) - 4)%Z.
    split; [now apply rand_floor |].
    assert (Hlo : (0 <= Qfloor (q * 9))%Z).
    { rewrite <- (Qfloor_Z 0). apply Qfloor_resp_le.
      change (inject_Z 0) with 0%Q. lra. }
    assert (Hhi : (Qfloor (q * 9) < 9)%Z).
    { rewrite Zlt_Qlt. apply Qle_lt_trans with (q * 9)%Q; [apply Qfloor_le |].
      change (inject_Z 9) with 9%Q. lra. }
    lia.
  - intros z Hz. exists (Fin (inject_Z (z + 4) / 9)), (inject_Z (z + 4) / 9)%Q.
    assert (Hlo : (0 <= inject_Z (z + 4))%Q)
      by (change 0%Q with (inject_Z 0); rewrite <- Zle_Qle; lia).
    assert (Hhi : (inject_Z (z + 4) < 9)%Q)
      by (change 9%Q with (inject_Z 9); rewrite <- Zlt_Qlt; lia).
    split; [apply represents_Fin |].
    split; [apply Qle_shift_div_l; [reflexivity | lra] |].
    split; [apply Qlt_shift_div_r; [reflexivity | lra] |].
    rewrite (rand_floor (represents_Fin _)). f_equal.
    assert (E : (inject_Z (z + 4) / 9 * 9 == inject_Z (z + 4))%Q) by field.
    rewrite (Qfloor_comp _ _ E), Qfloor_Z. lia.
Qed.

(** ** The timing of the flaps *)

(** X21.  In [SplitFlapValue], for a delay that is a whole number of
    milliseconds, the animations of the characters start 80 ms one
    after the other, and the component is locked [FLIP_MS] after the
    start of the last one: at the lock every character has had its
    [FLIP_MS]. *)
Theorem splitFlap_lock (delay : Z) (value : string) (i : nat) :
  (i < String.length value)%nat ->
  let n := Z.of_nat (String.length value) in
  SplitFlapValue.d (of_Z delay) i = of_Z (delay + 80 * Z.of_nat i)
  /\ SplitFlapValue.total (of_Z delay) value = of_Z (delay + 80 * (n - 1) + 1000)
  /\ le (add (SplitFlapValue.d (of_Z delay) i) SplitFlapValue.FLIP_MS)
        (SplitFlapValue.total (of_Z delay) value) = true
  /\ (S i = String.length value ->
      add (SplitFlapValue.d (of_Z delay) i) SplitFlapValue.FLIP_MS
      = SplitFlapValue.total (of_Z delay) value).
Proof.
  intros Hi n.
  assert (Hmul : forall a b, mul (of_Z a) (of_Z b) = of_Z (a * b)).
  { intros a b. rewrite <- (of_Q_inject_Z (a * b)).
    change (mul (of_Z a) (of_Z b)) with (of_Q (inject_Z a * inject_Z b)).
    apply of_Q_eq. now rewrite inject_Z_mult. }
  assert (Hd : SplitFlapValue.d (of_Z delay) i = of_Z (delay + 80 * Z.of_nat i)).
  { unfold SplitFlapValue.d. rewrite Hmul, add_of_Z. f_equal. lia. }
  assert (Ht : SplitFlapValue.total (of_Z delay) value
               = of_Z (delay + 80 * (n - 1) + 1000)).
  { unfold SplitFlapValue.total, SplitFlapValue.chars,
      SplitFlapValue.CHAR_STAGGER_MS, SplitFlapValue.FLIP_MS, one.
    rewrite length_list_ascii_of_string, sub_of_Z, Hmul, !add_of_Z.
    f_equal. subst n. lia. }
  split; [exact Hd |]. split; [exact Ht |].
  rewrite Hd, Ht. unfold SplitFlapValue.FLIP_MS. rewrite add_of_Z, le_of_Z.
  split.
  - apply Z.leb_le. subst n. lia.
  - intros Hlast. f_equal. subst n. lia.
Qed.

Lemma splitFlap_lock_witness :
  SplitFlapValue.total (of_Z 4000) "2.5M" = of_Z 5240
  /\ let n := Z.of_nat (String.length "2.5M") in
     SplitFlapValue.d (of_Z 4000) 3 = of_Z (4000 + 80 * Z.of_nat 3)
     /\ SplitFlapValue.total (of_Z 4000) "2.5M"
        = of_Z (4000 + 80 * (n - 1) + 1000)
     /\ le (add (SplitFlapValue.d (of_Z 4000) 3) SplitFlapValue.FLIP_MS)
           (SplitFlapValue.total (of_Z 4000) "2.5M") = true
     /\ (4%nat = String.length "2.5M" ->
         add (SplitFlapValue.d (of_Z 4000) 3) SplitFlapValue.FLIP_MS
         = SplitFlapValue.total (of_Z 4000) "2.5M").
Proof.
  split; [vm_compute; reflexivity |].
  apply (@splitFlap_lock 4000 "2.5M" 3). cbn. lia.
Defined.

(** * The route handler *)

Lemma truthy_iff (s : string) : truthy s = true <-> s <> "".
Proof. destruct s; cbn; split; congruence. Qed.

Lemma configured_dec (url token : option string) :
  Route.configured url token
  \/ (negb (truthy (nullish url "")) || negb (truthy (nullish token "")) = true).
Proof.
  destruct url as [[| a u] |], token as [[| b t] |]; cbn; auto.
  left. exists (String a u), (String b t). repeat split; discriminate.
Qed.

Lemma configured_truthy (url token : option string) :
  Route.configured url token ->
  negb (truthy (nullish url "")) || negb (truthy (nullish token "")) = false.
Proof.
  intros (u & t & -> & -> & Hu & Ht). cbn [nullish].
  apply truthy_iff in Hu, Ht. now rewrite Hu, Ht.
Qed.

Lemma not_configured (url token : option string) :
  negb (truthy (nullish url "")) || negb (truthy (nullish token "")) = true ->
  ~ Route.configured url token.
Proof.
  intros H C. apply configured_truthy in C. congruence.
Qed.

Lemma slice0_length (s : string) (n : nat) :
  (String.length (Route.slice0 s n) <= n)%nat.
Proof.
  unfold Route.slice0. revert s. induction n as [| n IH]; intros s.
  - destruct s; cbn; lia.
  - destruct s as [| c s]; cbn; [lia |]. specialize (IH s). lia.
Qed.

Lemma slice0_prefix (s : string) (n : nat) :
  String.prefix (Route.slice0 s n) s = true.
Proof.
  unfold Route.slice0. revert s. induction n as [| n IH]; intros s.
  - destruct s; reflexivity.
  - destruct s as [| c s]; cbn; [reflexivity |].
    rewrite IH. now destruct (ascii_dec c c).
Qed.

Section RouteProperties.

Variable J : Type.
Variable JSON_parse : string -> J + Route.Thrown.

(** X22.  The status of the answer of the route is 200, 500 or 502.  It
    is 500 exactly when the address or the token of the upstream API is
    missing or empty; in that case the answer is the fixed error
    object, nothing is written to the console and [fetch] plays no
    part.  It is 200 exactly when the environment is complete, the
    request with the bearer token got a response with a status from 200
    to 299, and the text of that response parses whenever its content
    type contains ["application/json"]. *)
Theorem GET_status (url token : option string)
    (fetch : Route.Request -> Route.FetchResult) :
  let answer := Route.GET JSON_parse url token fetch in
  (Route.code (fst answer) = 200%Z \/ Route.code (fst answer) = 500%Z
   \/ Route.code (fst answer) = 502%Z)
  /\ (Route.code (fst answer) = 500%Z <-> ~ Route.configured url token)
  /\ (~ Route.configured url token ->
      answer
      = (Route.mkResponse
           (Route.Object
              [("error",
                Route.FString
                  "Missing DASHBOARD_API_URL or DASHBOARD_API_TOKEN in environment.")])
           500,
         []))
  /\ (Route.code (fst answer) = 200%Z <->
      exists (u t : string) (res : Route.Upstream),
        url = Some u /\ token = Some t /\ u <> "" /\ t <> ""
        /\ fetch (Route.request u t) = Route.Responded res
        /\ Route.ok res = true
        /\ (Route.includes (Route.contentType res) "application/json" = true ->
            exists d : J, JSON_parse (Route.raw res) = inl d)).
Proof.
  intros answer. subst answer.
  destruct (configured_dec url token) as [C | N].
  - pose proof (configured_truthy C) as E.
    destruct C as (u & t & -> & -> & Hu & Ht).
    unfold Route.GET. cbv zeta. rewrite E. cbn [nullish].
    assert (Hc : Route.configured (Some u) (Some t))
      by (exists u, t; auto).
    destruct (fetch (Route.request u t)) as [err | res] eqn:Ef.
    + cbn [Route.caught fst Route.code].
      split; [auto |]. split; [split; [discriminate | tauto] |].
      split; [tauto |]. split; [discriminate |].
      intros (u' & t' & res & [= <-] & [= <-] & _ & _ & F & _). congruence.
    + fold (Route.contentType res). fold (Route.raw res).
      destruct (Route.ok res) eqn:Eok; cbn [negb].
      * destruct (Route.includes (Route.contentType res) "application/json") eqn:Ei.
        -- destruct (JSON_parse (Route.raw res)) as [d | err] eqn:Ep.
           ++ cbn [fst Route.code].
              split; [auto |]. split; [split; [discriminate | tauto] |].
              split; [tauto |]. split; [| reflexivity].
              intros _. exists u, t, res.
              do 6 (split; [auto |]). eauto.
           ++ cbn [Route.caught fst Route.code].
              split; [auto |]. split; [split; [discriminate | tauto] |].
              split; [tauto |]. split; [discriminate |].
              intros (u' & t' & res' & [= <-] & [= <-] & _ & _ & F & _ & P).
              rewrite Ef in F. injection F as <-.
              destruct (P Ei) as (d & Hd). congruence.
        -- cbn [fst Route.code].
           split; [auto |]. split; [split; [discriminate | tauto] |].
           split; [tauto |]. split; [| reflexivity].
           intros _. exists u, t, res.
           do 6 (split; [auto |]). intros F. congruence.
      * cbn [fst Route.code].
        split; [auto |]. split; [split; [discriminate | tauto] |].
        split; [tauto |]. split; [discriminate |].
        intros (u' & t' & res' & [= <-] & [= <-] & _ & _ & F & O & _).
        rewrite Ef in F. injection F as <-. congruence.
  - pose proof (@not_configured url token N) as NC.
    unfold Route.GET. cbv zeta. rewrite N. cbn [fst Route.code].
    split; [auto |]. split; [tauto |]. split; [reflexivity |].
    split; [discriminate |].
    intros (u & t & res & -> & -> & Hu & Ht & _). exfalso. apply NC.
    exists u, t. auto.
Qed.

(** X23.  When the upstream API answers with a status outside 200-299,
    the route answers 502 with an object that holds the status of the
    upstream API and nothing else of its response; of the text of that
    response the console gets the first 2000 characters at most. *)
Theorem GET_upstream_error (u t : string)
    (fetch : Route.Request -> Route.FetchResult) (res : Route.Upstream) :
  u <> "" -> t <> "" ->
  fetch (Route.request u t) = Route.Responded res ->
  Route.ok res = false ->
  exists logged : string,
    Route.GET JSON_parse (Some u) (Some t) fetch
    = (Route.mkResponse
         (Route.Object [("error", Route.FString "Upstream API error");
                        ("status", Route.FNumber (Route.status res))])
         502,
       [Route.UpstreamErrorLog (Route.status res) (Route.statusText res)
          (Route.contentType res) logged])
    /\ (String.length logged <= 2000)%nat
    /\ String.prefix logged (Route.raw res) = true.
Proof.
  intros Hu Ht Hf Hok. exists (Route.slice0 (Route.raw res) 2000).
  split; [| split; [apply slice0_length | apply slice0_prefix]].
  unfold Route.GET. cbv zeta. cbn [nullish].
  apply truthy_iff in Hu, Ht. rewrite Hu, Ht. cbn [negb orb].
  rewrite Hf, Hok. reflexivity.
Qed.

End RouteProperties.

Lemma GET_upstream_error_witness :
  let res := Route.mkUpstream 503 "Service Unavailable" (Some "text/html")
               (Some "<html>down</html>") in
  let fetch := fun _ : Route.Request => Route.Responded res in
  let parse := fun s : string => @inl string Route.Thrown s in
  exists logged : string,
    Route.GET parse (Some "https://upstream.example/monthly") (Some "secret") fetch
    = (Route.mkResponse
         (Route.Object [("error", Route.FString "Upstream API error");
                        ("status", Route.FNumber 503)])
         502,
       [Route.UpstreamErrorLog 503 "Service Unavailable" "text/html" logged])
    /\ (String.length logged <= 2000)%nat
    /\ String.prefix logged "<html>down</html>" = true.
Proof.
  apply (@GET_upstream_error string (fun s => inl s)
           "https://upstream.example/monthly" "secret"
           (fun _ => Route.Responded
                       (Route.mkUpstream 503 "Service Unavailable"
                          (Some "text/html") (Some "<html>down</html>")))
           (Route.mkUpstream 503 "Service Unavailable"
              (Some "text/html") (Some "<html>down</html>")));
    try discriminate; reflexivity.
Defined.

Example includes_examples :
  Route.includes "application/json; charset=utf-8" "application/json" = true
  /\ Route.includes "text/html" "application/json" = false
  /\ Route.includes "" "application/json" = false
  /\ Route.includes "Application/JSON" "application/json" = false
  /\ Route.includes "x" "" = true.
Proof. repeat split; vm_compute; reflexivity. Qed.

(** * Today's value *)





(** * Doubles: the inputs of the two comparisons *)

Lemma progress_binary64_witness :
  Binary64.progress 15 31 = Some 48%Z
  /\ Binary64.progress 15 31 = Some (progressPercent 15 31).
Proof.
  split; [vm_compute; reflexivity |].
  apply progress_binary64; lia.
Defined.

Lemma position_binary64_witness :
  option_map Qfloor (Binary64.position 48 31) = Some 14%Z
  /\ exists p s : Q,
    Binary64.fraction 48 = Some p
    /\ Binary64.position 48 31 = Some s
    /\ Qle_bool p 0 = (48 =? 0)%Z
    /\ Qle_bool 1 p = (48 =? 100)%Z
    /\ Qfloor s = Qfloor (position 48 31).
Proof.
  split; [vm_compute; reflexivity |].
  apply position_binary64; lia.
Defined.
